(** * inestool: the iNES header codec, the container handlers and the
      cartridge database loader of [inestool.py], embedded in Rocq.

    Python integers are [Z], [bytes] values are [list byte], [str] values are
    [string] (sequences of 8-bit characters), dictionaries are [gmap]s or
    association lists where the insertion order is observable, and an
    exception is the [Raised] case of [outcome]. *)

From Stdlib Require Import ZArith List Bool Lia.
From Stdlib Require Import Ascii String.
From Stdlib Require Import Strings.Byte.
From stdpp Require Import base option list strings gmap.
From Equations Require Import Equations.

Local Open Scope Z_scope.

(* ===================================================================== *)
(** ** Exceptions and results *)
(* ===================================================================== *)

(** The arguments of the [Exception(...)] values the program raises, one
    constructor per [raise] site, carrying the values that the source
    interpolates into the message. *)
Inductive message :=
| CantRepresentPrgRom (size : Z)
| CantRepresentChrRom (size : Z)
| CantRepresentMapper (mapper : Z)
| CantRepresentPrgRam (size : Z)
| CantParseSize (str_value : string)
| TooManyChildren (path : string)
| NoChildren (path : string)
| CantFindBoard
| BothPadsSet (crc32 : string)
| NeitherPadSet (crc32 : string)
| PadsOnFourScreen (crc32 : string)
| ShouldNeverGetHere
| UnknownRequestType (req_type : Z)
| OnlyAcceptRequestsFor (own other : string)
| RequestsForUnknownFiles (names : list (option string))
| IteratorInvalidated.

(** The three reasons for which [SkipROM] is raised: "UNIF currently
    unsupported", "NES 2.0 currently unsupported" and 'ROMs with "trainers"
    currently unsupported'. *)
Inductive skip_reason :=
| UnifUnsupported
| Nes20Unsupported
| TrainersUnsupported.

Inductive exn :=
| AssertionError (n : Z)
| SkipROM (reason : skip_reason)
| Exception (msg : message)
| KeyError (key : string)
| ValueError
| IndexError
| StopIteration
| FileNotFoundError
| BadZipFile.

Inductive outcome (A : Type) :=
| Returned (a : A)
| Raised (e : exn).
Arguments Returned {A} a.
Arguments Raised {A} e.

#[global] Instance outcome_ret : MRet outcome := fun _ a => Returned a.
#[global] Instance outcome_bind : MBind outcome := fun _ _ f m =>
  match m with
  | Returned a => f a
  | Raised e => Raised e
  end.
#[global] Instance outcome_fmap : FMap outcome := fun _ _ f m =>
  match m with
  | Returned a => Returned (f a)
  | Raised e => Raised e
  end.

Definition raises {A} (m : outcome A) : Prop := exists e, m = Raised e.

(* ===================================================================== *)
(** ** Bytes *)
(* ===================================================================== *)

Definition byte_val (b : byte) : Z := Z.of_N (Byte.to_N b).

(** [bytearray.extend] accepts an integer only in [range(256)]. *)
Definition byte_of_int (z : Z) : outcome byte :=
  if z <? 0 then Raised ValueError
  else match Byte.of_N (Z.to_N z) with
       | Some b => Returned b
       | None => Raised ValueError
       end.

(** [bytes[i]] for a non-negative constant index. *)
Definition getitem (bs : list byte) (i : nat) : outcome Z :=
  match nth_error bs i with
  | Some b => Returned (byte_val b)
  | None => Raised IndexError
  end.

Fixpoint startswith (bs prefix : list byte) : bool :=
  match prefix, bs with
  | [], _ => true
  | p :: prefix', b :: bs' => Byte.eqb b p && startswith bs' prefix'
  | _ :: _, [] => false
  end.

Definition b_UNIF : list byte := [x55; x4e; x49; x46].
Definition b_NES : list byte := [x4e; x45; x53; x1a].

(** Python truth value of an integer. *)
Definition truthy (z : Z) : bool := negb (z =? 0).

(* ===================================================================== *)
(** ** ROMInfo *)
(* ===================================================================== *)

Definition MIRROR_HORIZONTAL : Z := 0.
Definition MIRROR_VERTICAL : Z := 1.
Definition MIRROR_FOUR_SCREEN : Z := 8.
Definition MIRROR_FOUR_SCREEN_ODD : Z := 9.
Definition MIRROR_CONTROLLED : Z := 16.

Definition TV_NTSC : Z := 0.
Definition TV_PAL : Z := 1.
Definition TV_BOTH : Z := 2.

Record ROMInfo := mkROMInfo {
  prg_rom_size : Z;
  prg_ram_size : Z;
  chr_rom_size : Z;
  mapper : Z;
  mirroring : Z;
  tv_system : Z;
  has_nvram : bool;
  has_trainer : bool;
  is_playchoice_10 : bool;
  is_vs_unisystem : bool
}.

(** [ROMInfo.__init__]: ten plain attribute assignments. *)
Definition ROMInfo_init (prg_rom_size prg_ram_size chr_rom_size mapper
    mirroring tv_system : Z)
    (has_nvram has_trainer is_playchoice_10 is_vs_unisystem : bool)
    : outcome ROMInfo :=
  Returned (mkROMInfo prg_rom_size prg_ram_size chr_rom_size mapper
              mirroring tv_system has_nvram has_trainer is_playchoice_10
              is_vs_unisystem).

(* ===================================================================== *)
(** ** The header codec *)
(* ===================================================================== *)

Definition MIN_HEADER_READ_SIZE : Z := 16.

Definition parse_header (header_bytes : list byte) : outcome (option ROMInfo) :=
  if negb (Z.of_nat (length header_bytes) >=? MIN_HEADER_READ_SIZE)
  then Raised (AssertionError (Z.of_nat (length header_bytes)))
  else if startswith header_bytes b_UNIF
  then Raised (SkipROM UnifUnsupported)
  else if negb (startswith header_bytes b_NES)
  then Returned None
  else
    b7 ← getitem header_bytes 7;
    if Z.land b7 12 =? 8
    then Raised (SkipROM Nes20Unsupported)
    else
      b6 ← getitem header_bytes 6;
      if truthy (Z.land b6 4)
      then Raised (SkipROM TrainersUnsupported)
      else
        b4 ← getitem header_bytes 4;
        b5 ← getitem header_bytes 5;
        b8 ← getitem header_bytes 8;
        b9 ← getitem header_bytes 9;
        Some <$> ROMInfo_init
          (b4 * 16384)
          (b8 * 8192)
          (b5 * 8192)
          (Z.land b7 240 + Z.shiftr (Z.land b6 240) 4)
          (Z.land b6 9)
          (Z.land b9 1)
          (truthy (Z.land b6 2))
          (truthy (Z.land b6 4))
          (truthy (Z.land b7 2))
          (truthy (Z.land b7 1)).

(** [int(math.ceil(n / 8192.0))]: on the range that reaches this line
    (0 <= n <= 255 * 8192) the float quotient is exact, so this is the
    integer ceiling of the quotient. *)
Definition ceil_div (n d : Z) : Z := - ((- n) / d).

Definition make_ines_header (rom_info : ROMInfo) : outcome (list byte) :=
  if truthy (Z.land (prg_rom_size rom_info) 16383)
     || (prg_rom_size rom_info >? 255 * 16384)
     || (prg_rom_size rom_info <? 0)
  then Raised (Exception (CantRepresentPrgRom (prg_rom_size rom_info)))
  else
  let prg_rom := prg_rom_size rom_info / 16384 in
  if truthy (Z.land (chr_rom_size rom_info) 8191)
     || (chr_rom_size rom_info >? 255 * 8192)
     || (chr_rom_size rom_info <? 0)
  then Raised (Exception (CantRepresentChrRom (chr_rom_size rom_info)))
  else
  let chr_rom := chr_rom_size rom_info / 8192 in
  if (mapper rom_info <? 0) || (mapper rom_info >? 255)
  then Raised (Exception (CantRepresentMapper (mapper rom_info)))
  else
  let flags_6 :=
    Z.lor (Z.lor (Z.lor (Z.shiftl (Z.land (mapper rom_info) 15) 4)
                        (Z.land (mirroring rom_info) 15))
                 (Z.shiftl (Z.b2z (has_trainer rom_info)) 2))
          (Z.shiftl (Z.b2z (has_nvram rom_info)) 1) in
  let flags_7 :=
    Z.lor (Z.lor (Z.land (mapper rom_info) 240)
                 (Z.shiftl (Z.b2z (is_playchoice_10 rom_info)) 1))
          (Z.b2z (is_vs_unisystem rom_info)) in
  if (prg_ram_size rom_info >? 255 * 8192) || (prg_ram_size rom_info <? 0)
  then Raised (Exception (CantRepresentPrgRam (prg_ram_size rom_info)))
  else
  let prg_ram := ceil_div (prg_ram_size rom_info) 8192 in
  let flags_9 := Z.land (tv_system rom_info) 1 in
  tail ← mapM byte_of_int [prg_rom; chr_rom; flags_6; flags_7; prg_ram; flags_9];
  Returned (b_NES ++ tail).

(* ===================================================================== *)
(** ** Attribute values and [ROMInfo.diff] *)
(* ===================================================================== *)

(** The Python values that flow through [diff] and [load_db]: [None],
    integers, booleans and the pairs stored in the differences dict. *)
Inductive value :=
| VNone
| VInt (z : Z)
| VBool (b : bool)
| VPair (a b : value).

(** Python [==] on these values: a [bool] is the integer 0 or 1, [None]
    equals only [None], tuples compare componentwise. *)
Fixpoint py_eq (x y : value) : bool :=
  match x, y with
  | VNone, VNone => true
  | VInt a, VInt b => a =? b
  | VInt a, VBool b => a =? Z.b2z b
  | VBool a, VInt b => Z.b2z a =? b
  | VBool a, VBool b => Bool.eqb a b
  | VPair a1 a2, VPair b1 b2 => py_eq a1 b1 && py_eq a2 b2
  | _, _ => false
  end.

(** The integer an [int] or [bool] stands for in a bitwise expression. *)
Definition as_int (v : value) : Z :=
  match v with
  | VInt z => z
  | VBool b => Z.b2z b
  | _ => 0
  end.

(** Python truth value: [None], zero and [False] are false. *)
Definition value_truthy (v : value) : bool :=
  match v with
  | VNone => false
  | VInt z => truthy z
  | VBool b => b
  | VPair _ _ => true
  end.

(** The attribute names of [ROMInfo.FIELD_LABELS], in the order of that
    dict, which is the order of [ROMInfo.FIELDS]. *)
Inductive field :=
| f_prg_rom_size
| f_prg_ram_size
| f_chr_rom_size
| f_mapper
| f_mirroring
| f_tv_system
| f_has_nvram
| f_has_trainer
| f_is_playchoice_10
| f_is_vs_unisystem.

#[global] Instance field_eq_dec : EqDecision field.
Proof. solve_decision. Defined.

Definition FIELDS : list field :=
  [f_prg_rom_size; f_prg_ram_size; f_chr_rom_size; f_mapper; f_mirroring;
   f_tv_system; f_has_nvram; f_has_trainer; f_is_playchoice_10;
   f_is_vs_unisystem].

Definition getattr (r : ROMInfo) (attr : field) : value :=
  match attr with
  | f_prg_rom_size => VInt (prg_rom_size r)
  | f_prg_ram_size => VInt (prg_ram_size r)
  | f_chr_rom_size => VInt (chr_rom_size r)
  | f_mapper => VInt (mapper r)
  | f_mirroring => VInt (mirroring r)
  | f_tv_system => VInt (tv_system r)
  | f_has_nvram => VBool (has_nvram r)
  | f_has_trainer => VBool (has_trainer r)
  | f_is_playchoice_10 => VBool (is_playchoice_10 r)
  | f_is_vs_unisystem => VBool (is_vs_unisystem r)
  end.

Definition _is_ignored_mirroring_diff (mirror_val_a mirror_val_b : Z) : bool :=
  Z.land (Z.lor mirror_val_a mirror_val_b)
         (Z.lor MIRROR_CONTROLLED MIRROR_FOUR_SCREEN)
  =? MIRROR_CONTROLLED.

(** An insertion-ordered dict as an association list. *)
Definition dict_set {K V} `{EqDecision K} (d : list (K * V)) (k : K) (v : V)
    : list (K * V) :=
  if existsb (fun kv => bool_decide (kv.1 = k)) d
  then map (fun kv => if bool_decide (kv.1 = k) then (k, v) else kv) d
  else d ++ [(k, v)].

Definition dict_get {K V} `{EqDecision K} (d : list (K * V)) (k : K)
    : option V :=
  snd <$> find (fun kv => bool_decide (kv.1 = k)) d.

Definition dict_del {K V} `{EqDecision K} (d : list (K * V)) (k : K)
    : list (K * V) :=
  filter (fun kv => kv.1 <> k) d.

(** The test of the loop body of [diff] for one attribute. *)
Definition differs (attr : field) (self_val other_val : value) : bool :=
  negb (py_eq self_val other_val)
  && negb ((bool_decide (attr = f_mirroring)
            && _is_ignored_mirroring_diff (as_int self_val) (as_int other_val))
           || (bool_decide (attr = f_tv_system)
               && (py_eq (VInt TV_BOTH) self_val
                   || py_eq (VInt TV_BOTH) other_val))).

Definition diff (self other : ROMInfo) : list (field * value) :=
  fold_left
    (fun differences attr =>
       let self_val := getattr self attr in
       let other_val := getattr other attr in
       if differs attr self_val other_val
       then dict_set differences attr (VPair self_val other_val)
       else differences)
    FIELDS [].

(* ===================================================================== *)
(** ** Strings *)
(* ===================================================================== *)

Definition code (c : ascii) : N := Ascii.N_of_ascii c.

Definition is_digit (c : ascii) : bool := ((48 <=? code c) && (code c <=? 57))%N.

(** Space, tab, line feed, vertical tab, form feed, carriage return. *)
Definition is_space (c : ascii) : bool :=
  ((code c =? 32) || ((9 <=? code c) && (code c <=? 13)))%N.

Definition ascii_upper (c : ascii) : ascii :=
  if ((97 <=? code c) && (code c <=? 122))%N
  then Ascii.ascii_of_N (code c - 32) else c.

Definition ascii_lower (c : ascii) : ascii :=
  if ((65 <=? code c) && (code c <=? 90))%N
  then Ascii.ascii_of_N (code c + 32) else c.

Fixpoint str_map (f : ascii -> ascii) (s : string) : string :=
  match s with
  | EmptyString => EmptyString
  | String c s' => String (f c) (str_map f s')
  end.

Definition upper (s : string) : string := str_map ascii_upper s.
Definition lower (s : string) : string := str_map ascii_lower s.

(** [s.isdigit()]: at least one character and all of them digits. *)
Definition isdigit (s : string) : bool :=
  match list_ascii_of_string s with
  | [] => false
  | cs => forallb is_digit cs
  end.

(** [s.endswith("k")] and [s[:-1]]. *)
Definition endswith_k (s : string) : bool :=
  match last (list_ascii_of_string s) with
  | Some c => bool_decide (c = "k"%char)
  | None => false
  end.

Definition drop_last (s : string) : string :=
  string_of_list_ascii (removelast (list_ascii_of_string s)).

(** The digits of a decimal literal, where single underscores may separate
    digits; [prev] tells whether the previous character was a digit. *)
Fixpoint digits_value (acc : Z) (prev : bool) (cs : list ascii) : outcome Z :=
  match cs with
  | [] => if prev then Returned acc else Raised ValueError
  | c :: cs' =>
      if is_digit c
      then digits_value (acc * 10 + (Z.of_N (code c) - 48)) true cs'
      else if bool_decide (c = "_"%char) && prev
      then digits_value acc false cs'
      else Raised ValueError
  end.

Fixpoint lstrip (cs : list ascii) : list ascii :=
  match cs with
  | c :: cs' => if is_space c then lstrip cs' else cs
  | [] => []
  end.

Definition strip (cs : list ascii) : list ascii :=
  rev (lstrip (rev (lstrip cs))).

(** [int(s)] for a string: optional surrounding white space, an optional
    sign, then decimal digits; anything else is a [ValueError]. *)
Definition py_int (s : string) : outcome Z :=
  match strip (list_ascii_of_string s) with
  | "+"%char :: cs => digits_value 0 false cs
  | "-"%char :: cs => Z.opp <$> digits_value 0 false cs
  | cs => digits_value 0 false cs
  end.

Definition parse_size (str_value : string) : outcome Z :=
  if negb (endswith_k str_value) || negb (isdigit (drop_last str_value))
  then Raised (Exception (CantParseSize str_value))
  else n ← py_int (drop_last str_value); Returned (n * 2 ^ 10).

(* ===================================================================== *)
(** ** Element trees *)
(* ===================================================================== *)

(** An [xml.etree.ElementTree.Element]: tag, attribute dict, children. *)
#[local] Unset Elimination Schemes.
Inductive Element :=
| mkElement (tag : string) (attrib : gmap string string)
            (children : list Element).
#[local] Set Elimination Schemes.

Definition tag (e : Element) : string :=
  match e with mkElement t _ _ => t end.
Definition attrib (e : Element) : gmap string string :=
  match e with mkElement _ a _ => a end.
Definition children (e : Element) : list Element :=
  match e with mkElement _ _ cs => cs end.

(** [elem.findall(path)] for a path that is a plain tag name: the direct
    children with that tag, in document order. *)
Definition findall (elem : Element) (path : string) : list Element :=
  filter (fun c => tag c = path) (children elem).

(** [elem.attrib[key]]. *)
Definition attrib_item (elem : Element) (key : string) : outcome string :=
  match attrib elem !! key with
  | Some v => Returned v
  | None => Raised (KeyError key)
  end.

(** [elem.find(".//*[@battery='1']") is not None]: some element below
    [elem], at any depth, carries the attribute [battery] with value 1. *)
Fixpoint has_battery_below (elem : Element) : bool :=
  match elem with
  | mkElement _ _ cs =>
      (fix any (l : list Element) : bool :=
         match l with
         | [] => false
         | c :: l' =>
             bool_decide (attrib c !! "battery" = Some "1")
             || has_battery_below c || any l'
         end) cs
  end.

(** The truth value of an [Element] is that of a sequence: an element
    without children is false. *)
Definition element_truthy (e : Element) : bool :=
  match children e with
  | [] => false
  | _ :: _ => true
  end.

Definition etree_find_one (elem : Element) (path : string) (optional : bool)
    : outcome (option Element) :=
  let children := findall elem path in
  if (1 <? length children)%nat
  then Raised (Exception (TooManyChildren path))
  else if negb optional && (length children =? 0)%nat
  then Raised (Exception (NoChildren path))
  else Returned (head children).

Definition FOUR_SCREEN_BOARDS : list string :=
  ["NES-DRROM"; "NES-TR1ROM"; "TENGEN-800004"; "NES-TVROM";
   "IREM-74*161/161/21/138"; "HVC-DRROM"; "HVC-TVROM"].

Definition PAL_SYSTEMS : list string :=
  ["NES-PAL"; "NES-PAL-A"; "NES-PAL-B"; "Dendy"].

(** [x in s] for a frozenset of strings. *)
Definition str_in (x : string) (s : list string) : bool :=
  bool_decide (x ∈ s).

(** [sum(parse_size(e.attrib["size"]) for e in board.findall(kind))]. *)
Fixpoint sum_sizes (elems : list Element) (acc : Z) : outcome Z :=
  match elems with
  | [] => Returned acc
  | e :: elems' =>
      size ← attrib_item e "size";
      n ← parse_size size;
      sum_sizes elems' (acc + n)
  end.

(** [int(pad.attrib.get(key, "0"))]. *)
Definition pad_bit (pad : Element) (key : string) : outcome Z :=
  py_int (default "0" (attrib pad !! key)).

(** The mirroring part of [parse_db_entry], from the first read of the
    [pad] element to the last branch of the mirroring [if]. *)
Definition db_mirroring (crc32 : string) (board : Element) : outcome Z :=
  pad ← etree_find_one board "pad" true;
  pads ← match pad with
         | None => Returned (VNone, VNone)
         | Some pad =>
             pad_h ← pad_bit pad "h";
             pad_v ← pad_bit pad "v";
             if truthy pad_h && truthy pad_v
             then Raised (Exception (BothPadsSet crc32))
             else if negb (truthy pad_h || truthy pad_v)
             then Raised (Exception (NeitherPadSet crc32))
             else Returned (VInt pad_h, VInt pad_v)
         end;
  let '(pad_h, pad_v) := pads in
  let board_type := attrib board !! "type" in
  if match board_type with
     | Some ty => str_in ty FOUR_SCREEN_BOARDS
     | None => false
     end
  then
    if match pad with Some p => element_truthy p | None => false end
       && (value_truthy pad_h || value_truthy pad_v)
    then Raised (Exception (PadsOnFourScreen crc32))
    else Returned MIRROR_FOUR_SCREEN
  else if match pad with None => true | Some _ => false end
  then Returned MIRROR_CONTROLLED
  else if value_truthy pad_h
  then Returned MIRROR_VERTICAL
  else if value_truthy pad_v
  then Returned MIRROR_HORIZONTAL
  else Raised (Exception ShouldNeverGetHere).

Definition parse_db_entry (elem : Element) : outcome (string * ROMInfo) :=
  crc ← attrib_item elem "crc";
  let crc32 := upper crc in
  system ← attrib_item elem "system";
  let tv_system := if str_in system PAL_SYSTEMS then TV_PAL else TV_NTSC in
  board ← etree_find_one elem "board" false;
  match board with
  | None => Raised (Exception CantFindBoard)
  | Some board =>
      mapper ← match attrib board !! "mapper" with
               | Some m => py_int m
               | None => Returned 0
               end;
      prg_rom_size ← sum_sizes (findall board "prg") 0;
      prg_ram_size ← sum_sizes (findall board "wram") 0;
      chr_rom_size ← sum_sizes (findall board "chr") 0;
      let has_nvram := has_battery_below board in
      mirroring ← db_mirroring crc32 board;
      rom_info ← ROMInfo_init prg_rom_size prg_ram_size chr_rom_size mapper
                   mirroring tv_system has_nvram false
                   (bool_decide (lower system = "playchoice-10"))
                   (bool_decide (lower system = "vs-unisystem"));
      Returned (crc32, rom_info)
  end.

(* ===================================================================== *)
(** ** Loading the database *)
(* ===================================================================== *)

(** The records passed to [logging.warning]. *)
Inductive warning :=
| MultipleDifferentEntries (crc32 : string)
| DuplicateIdenticalEntries (crc32 : string)
| SkippedROM (name : string) (reason : skip_reason).

Definition set_tv_system (r : ROMInfo) (tv : Z) : ROMInfo :=
  mkROMInfo (prg_rom_size r) (prg_ram_size r) (chr_rom_size r) (mapper r)
            (mirroring r) tv (has_nvram r) (has_trainer r)
            (is_playchoice_10 r) (is_vs_unisystem r).

(** The body of the loop of [load_db] for an ["end"] event of a
    [cartridge] or [arcade] element.  [db] is the dict under construction,
    [log] the warnings logged so far.  The record stored under [crc32] is
    the object that [existing_rom_info] names, so the assignment to its
    [tv_system] updates the dict entry. *)
Definition load_db_entry (db : gmap string ROMInfo) (log : list warning)
    (elem : Element) : outcome (gmap string ROMInfo * list warning) :=
  '(crc32, rom_info) ← parse_db_entry elem;
  match db !! crc32 with
  | Some existing_rom_info =>
      let differences := diff existing_rom_info rom_info in
      let existing_tv_system :=
        default VNone (dict_get differences f_tv_system) in
      let differences := dict_del differences f_tv_system in
      if negb (bool_decide (differences = []))
      then Returned (db, log ++ [MultipleDifferentEntries crc32])
      else if py_eq existing_tv_system (VInt TV_BOTH)
              || py_eq (VInt (tv_system rom_info)) existing_tv_system
      then Returned (db, log ++ [DuplicateIdenticalEntries crc32])
      else Returned (<[crc32 := set_tv_system existing_rom_info TV_BOTH]> db,
                     log)
  | None => Returned (<[crc32 := rom_info]> db, log)
  end.

(** The events of [ElementTree.iterparse(path, events=("start", "end"))]:
    the event name and the element as it is when the event is delivered. *)
Definition xml_event : Type := string * Element.

Fixpoint load_db_loop (db : gmap string ROMInfo) (log : list warning)
    (xml_iter : list xml_event) : outcome (gmap string ROMInfo * list warning) :=
  match xml_iter with
  | [] => Returned (db, log)
  | (event, elem) :: xml_iter' =>
      if bool_decide (event = "end")
         && (bool_decide (tag elem = "cartridge")
             || bool_decide (tag elem = "arcade"))
      then
        '(db', log') ← load_db_entry db log elem;
        load_db_loop db' log' xml_iter'
      else load_db_loop db log xml_iter'
  end.

(** [load_db]: the first event only names the root; the others are looped
    over.  The result is the dict, paired here with the warnings logged. *)
Definition load_db (xml_iter : list xml_event)
    : outcome (gmap string ROMInfo * list warning) :=
  match xml_iter with
  | [] => Raised StopIteration
  | (event, root) :: xml_iter' => load_db_loop ∅ [] xml_iter'
  end.

(* ===================================================================== *)
(** ** Checksums *)
(* ===================================================================== *)

(** [binascii.crc32(data, value)]: the CRC-32 of ISO 3309 in its reflected
    form (polynomial 0xEDB88320), continued from the running value [value],
    which is taken as an unsigned 32-bit number. *)
Definition crc_bit (c : Z) : Z :=
  if Z.testbit c 0 then Z.lxor (Z.shiftr c 1) 0xEDB88320 else Z.shiftr c 1.

Definition crc_byte (c : Z) (b : byte) : Z :=
  Nat.iter 8 crc_bit (Z.lxor c (byte_val b)).

Definition binascii_crc32 (data : list byte) (value : Z) : Z :=
  Z.lxor (fold_left crc_byte data (Z.lxor (Z.land value 0xFFFFFFFF) 0xFFFFFFFF))
         0xFFFFFFFF.

Definition hex_digit (d : Z) : ascii :=
  nth (Z.to_nat d) (list_ascii_of_string "0123456789ABCDEF") "0"%char.

(** The last [n] hexadecimal digits of [z], most significant first. *)
Fixpoint hex_digits (n : nat) (z : Z) (acc : string) : string :=
  match n with
  | O => acc
  | S n' => hex_digits n' (z / 16) (String (hex_digit (z mod 16)) acc)
  end.

(** ["%08X" % (z,)] for 0 <= z < 2^32. *)
Definition format_08X (z : Z) : string := hex_digits 8 z "".

(* ===================================================================== *)
(** ** Files read as streams *)
(* ===================================================================== *)

Definition READ_SIZE : Z := 65536.

(** An open binary file is the list of the bytes not read yet;
    [file_obj.read(n)] returns the next [n] bytes, or fewer at the end of
    the file, and the file object after the read. *)
Definition read (n : Z) (file_obj : list byte) : list byte * list byte :=
  (take (Z.to_nat n) file_obj, drop (Z.to_nat n) file_obj).

Definition inspect {A} (a : A) : {b : A | a = b} := exist _ a eq_refl.

(** The [while True] loop of [_make_file_info], for a read size [size]
    (the source reads [READ_SIZE] bytes at a time): feed each chunk to the
    running checksum until a read returns no data. *)
Equations crc32_loop (size : Z) (file_obj : list byte) (crc32 : Z) : Z
  by wf (length file_obj) lt :=
  crc32_loop size file_obj crc32 with inspect (read size file_obj) := {
    | exist _ ([], _) _ => crc32
    | exist _ (b :: data, file_obj') _ =>
        crc32_loop size file_obj' (binascii_crc32 (b :: data) crc32) }.
Next Obligation.
  rewrite length_drop. destruct file_obj; simpl in *.
  - destruct (Z.to_nat size); discriminate.
  - destruct (Z.to_nat size); [discriminate | lia].
Qed.

Record FileInfo := mkFileInfo {
  name : string;
  crc32 : string;
  rom_info : option ROMInfo;
  handler_data : option string
}.

(** [IOHandler._make_file_info], on the file as a stream of bytes.  The
    second component of the result is what the call logs. *)
Definition _make_file_info (name : string) (file_obj : list byte)
    (handler_data : option string) : outcome FileInfo * list warning :=
  let '(header_bytes, file_obj) := read MIN_HEADER_READ_SIZE file_obj in
  match parse_header header_bytes with
  | Raised (SkipROM ex) => (Raised (SkipROM ex), [SkippedROM name ex])
  | Raised e => (Raised e, [])
  | Returned rom_info =>
      let crc32 := match rom_info with
                   | Some _ => 0
                   | None => binascii_crc32 header_bytes 0
                   end in
      let crc32 := crc32_loop READ_SIZE file_obj crc32 in
      (Returned (mkFileInfo name (format_08X (Z.land crc32 0xFFFFFFFF))
                   rom_info handler_data), [])
  end.

(* ===================================================================== *)
(** ** The file system *)
(* ===================================================================== *)

(** Paths: those the user names, and those the program makes up.
    [TempIn p n] is the [n]-th temporary file, created by
    [NamedTemporaryFile(dir=os.path.dirname(p))] next to [p]; [TempDir n]
    is a directory made by [tempfile.mkdtemp()]; [Extracted d name] is where
    [ZipFile.extract(name, d)] puts a member. *)
Inductive path :=
| Named (s : string)
| TempIn (sibling : path) (n : nat)
| TempDir (n : nat)
| Extracted (dir : path) (member : string).

#[global] Instance path_eq_dec : EqDecision path.
Proof. solve_decision. Defined.

(** What a path holds: a plain file with its bytes, a zip archive with its
    members in archive order (the bytes of the archive file itself are not
    modelled: an archive is only ever opened through [zipfile]), or a
    directory. *)
Inductive node :=
| File (content : list byte)
| Zip (members : list (string * list byte))
| Dir.

Record world := mkWorld {
  fs : path -> option node;
  next_temp : nat;
  log : list warning
}.

(** [p] lies inside the directory [d]. *)
Fixpoint inside (d p : path) : bool :=
  match p with
  | Extracted d' _ => bool_decide (d' = d) || inside d d'
  | TempIn q _ => inside d q
  | _ => false
  end.

Definition fs_set (p : path) (n : option node) (f : path -> option node)
    : path -> option node :=
  fun q => if bool_decide (q = p) then n else f q.

(** Computations that read and change the world and may raise. *)
Definition M (A : Type) : Type := world -> outcome A * world.

#[global] Instance M_ret : MRet M := fun _ a w => (Returned a, w).
#[global] Instance M_bind : MBind M := fun _ _ f m w =>
  match m w with
  | (Returned a, w') => f a w'
  | (Raised e, w') => (Raised e, w')
  end.

Definition raise {A} (e : exn) : M A := fun w => (Raised e, w).

Definition lift {A} (o : outcome A) : M A := fun w => (o, w).

(** [try: body finally: cleanup]. *)
Definition try_finally {A} (body : M A) (cleanup : M unit) : M A := fun w =>
  let '(r, w1) := body w in
  match cleanup w1 with
  | (Returned _, w2) => (r, w2)
  | (Raised e, w2) => (Raised e, w2)
  end.

(** [try: body except SkipROM: handler]. *)
Definition except_SkipROM {A} (body : M A) (handler : M A) : M A := fun w =>
  match body w with
  | (Raised (SkipROM _), w1) => handler w1
  | r => r
  end.

Definition logging_warning (ws : list warning) : M unit := fun w =>
  (Returned (), mkWorld (fs w) (next_temp w) (log w ++ ws)).

Definition exists_ (p : path) : M bool := fun w =>
  (Returned (bool_decide (is_Some (fs w p))), w).

(** [open(p, "rb").read()], and the file objects opened for reading. *)
Definition read_file (p : path) : M (list byte) := fun w =>
  match fs w p with
  | Some (File content) => (Returned content, w)
  | _ => (Raised FileNotFoundError, w)
  end.

(** Replace the bytes of the file at [p]. *)
Definition write_file (p : path) (content : list byte) : M unit := fun w =>
  (Returned (), mkWorld (fs_set p (Some (File content)) (fs w))
                        (next_temp w) (log w)).

(** [tempfile.NamedTemporaryFile(dir=os.path.dirname(p), delete=False)]:
    a new empty file under a name not in use. *)
Definition NamedTemporaryFile (p : path) : M path := fun w =>
  let t := TempIn p (next_temp w) in
  (Returned t, mkWorld (fs_set t (Some (File [])) (fs w))
                       (S (next_temp w)) (log w)).

(** [tempfile.mkdtemp()]. *)
Definition mkdtemp : M path := fun w =>
  let d := TempDir (next_temp w) in
  (Returned d, mkWorld (fs_set d (Some Dir) (fs w)) (S (next_temp w)) (log w)).

(** [os.rename(src, dst)]. *)
Definition rename (src dst : path) : M unit := fun w =>
  match fs w src with
  | Some n =>
      (Returned (), mkWorld (fs_set src None (fs_set dst (Some n) (fs w)))
                            (next_temp w) (log w))
  | None => (Raised FileNotFoundError, w)
  end.

(** [os.unlink(p)] and [os.remove(p)]. *)
Definition unlink (p : path) : M unit := fun w =>
  match fs w p with
  | Some _ =>
      (Returned (), mkWorld (fs_set p None (fs w)) (next_temp w) (log w))
  | None => (Raised FileNotFoundError, w)
  end.

(** [shutil.rmtree(d, True)]: errors are ignored. *)
Definition rmtree (d : path) : M unit := fun w =>
  (Returned (),
   mkWorld (fun q => if bool_decide (q = d) || inside d q then None
                     else fs w q)
           (next_temp w) (log w)).

(** [zipfile.ZipFile(p, "r")]: the members of the archive at [p]. *)
Definition ZipFile_r (p : path) : M (list (string * list byte)) := fun w =>
  match fs w p with
  | Some (Zip members) => (Returned members, w)
  | Some _ => (Raised BadZipFile, w)
  | None => (Raised FileNotFoundError, w)
  end.

(** [zipfile.ZipFile(temp_file, "w")]: start an empty archive at [p]. *)
Definition ZipFile_w (p : path) : M unit := fun w =>
  (Returned (), mkWorld (fs_set p (Some (Zip [])) (fs w))
                        (next_temp w) (log w)).

(** The member a name stands for: the last one of that name in the
    archive. *)
Definition getinfo (members : list (string * list byte)) (name : string)
    : outcome (list byte) :=
  match find (fun m => bool_decide (m.1 = name)) (rev members) with
  | Some m => Returned m.2
  | None => Raised (KeyError name)
  end.

(** [orig_zip_file.extract(name, temp_dir)]. *)
Definition extract (members : list (string * list byte)) (name : string)
    (temp_dir : path) : M path :=
  content ← lift (getinfo members name);
  write_file (Extracted temp_dir name) content;;
  mret (Extracted temp_dir name).

(** Append a member to the archive being written at [archive]. *)
Definition zip_append (archive : path) (name : string) (content : list byte)
    : M unit := fun w =>
  match fs w archive with
  | Some (Zip members) =>
      (Returned (),
       mkWorld (fs_set archive (Some (Zip (members ++ [(name, content)])))
                       (fs w))
               (next_temp w) (log w))
  | _ => (Raised BadZipFile, w)
  end.

(** [new_zip_file.write(member_path, name, zipfile.ZIP_DEFLATED)]. *)
Definition zip_write (archive member_path : path) (name : string) : M unit :=
  content ← read_file member_path;
  zip_append archive name content.

(* ===================================================================== *)
(** ** Update requests and the handlers *)
(* ===================================================================== *)

Module UpdateRequest.
Definition REQ_HEADER_INSERT : Z := 1.
Definition REQ_HEADER_REPLACE : Z := 2.

Record t := mk {
  file_info : FileInfo;
  type : Z;
  rom_info : ROMInfo
}.
End UpdateRequest.

(** [_make_file_info] as a computation: its warnings go to the log. *)
Definition make_file_info (name : string) (file_obj : list byte)
    (handler_data : option string) : M FileInfo := fun w =>
  let '(r, ws) := _make_file_info name file_obj handler_data in
  (r, mkWorld (fs w) (next_temp w) (log w ++ ws)).

(** [temp_file.write(data)] and [shutil.copyfileobj(orig_file, temp_file)]:
    append to the file at [p]. *)
Definition append_file (p : path) (data : list byte) : M unit :=
  content ← read_file p;
  write_file p (content ++ data).

(** The [REQ_HEADER_INSERT] branch of [_update_file].  The temporary file
    is always created in this model, so the [finally] block tests only
    whether it still exists. *)
Definition insert_header (p : path) (header_bytes : list byte) : M unit :=
  temp_file ← NamedTemporaryFile p;
  try_finally
    (append_file temp_file header_bytes;;
     orig ← read_file p;
     append_file temp_file orig;;
     rename temp_file p)
    (e ← exists_ temp_file;
     if e : bool then unlink temp_file else mret ()).

(** The [REQ_HEADER_REPLACE] branch: [open(path, "r+b")] and a write at
    offset 0, which overwrites as many bytes as are written. *)
Definition replace_header (p : path) (header_bytes : list byte) : M unit :=
  content ← read_file p;
  write_file p (header_bytes ++ drop (length header_bytes) content).

Fixpoint _update_file (p : path) (requests : list UpdateRequest.t) : M unit :=
  match requests with
  | [] => mret ()
  | request :: requests' =>
      header_bytes ← lift (make_ines_header (UpdateRequest.rom_info request));
      (if UpdateRequest.type request =? UpdateRequest.REQ_HEADER_REPLACE
       then replace_header p header_bytes
       else if UpdateRequest.type request =? UpdateRequest.REQ_HEADER_INSERT
       then insert_header p header_bytes
       else raise (Exception (UnknownRequestType (UpdateRequest.type request))));;
      _update_file p requests'
  end.

(** *** Bare files *)

Module FileIOHandler.
Record t := mk { _path : string }.

(** [__iter__], as the list of the items it yields. *)
Definition iter (self : t) : M (list FileInfo) :=
  the_file ← read_file (Named (_path self));
  except_SkipROM
    (file_info ← make_file_info (_path self) the_file None;
     mret [file_info])
    (mret []).

Fixpoint check_requests (self : t) (requests : list UpdateRequest.t)
    : M unit :=
  match requests with
  | [] => mret ()
  | request :: requests' =>
      if bool_decide (name (UpdateRequest.file_info request) <> _path self)
      then raise (Exception (OnlyAcceptRequestsFor (_path self)
                    (name (UpdateRequest.file_info request))))
      else check_requests self requests'
  end.

Definition update (self : t) (requests : list UpdateRequest.t) : M unit :=
  check_requests self requests;;
  _update_file (Named (_path self)) requests.
End FileIOHandler.

(** *** Zip archives *)

(** [os.path.join(a, b)]. *)
Definition path_join (a b : string) : string :=
  match b with
  | String "/"%char _ => b
  | _ =>
      match last (list_ascii_of_string a) with
      | None => b
      | Some "/"%char => a +:+ b
      | Some _ => a +:+ "/" +:+ b
      end
  end.

Module ZipIOHandler.
Record t := mk { _path : string; _updates : Z }.

(** The loop of [__iter__] over [zip_file.namelist()]; the result lists
    the items yielded.  A member that raises [SkipROM] is passed over. *)
Fixpoint iter_loop (self : t) (expected_updates : Z)
    (members : list (string * list byte)) (names : list string)
    : M (list FileInfo) :=
  match names with
  | [] => mret []
  | name :: names' =>
      if bool_decide (_updates self <> expected_updates)
      then raise (Exception IteratorInvalidated)
      else
        let full_name := path_join (_path self) name in
        yielded ← except_SkipROM
          (member ← lift (getinfo members name);
           file_info ← make_file_info full_name member (Some name);
           mret [file_info])
          (mret []);
        rest ← iter_loop self expected_updates members names';
        mret (yielded ++ rest)
  end.

Definition iter (self : t) : M (list FileInfo) :=
  let expected_updates := _updates self in
  members ← ZipFile_r (Named (_path self));
  iter_loop self expected_updates members (members.*1).

(** [requests_by_file[request.file_info.handler_data].append(request)]
    for each request, on a [defaultdict(list)]. *)
Definition group_requests (requests : list UpdateRequest.t)
    : list (option string * list UpdateRequest.t) :=
  fold_left
    (fun d request =>
       let k := handler_data (UpdateRequest.file_info request) in
       dict_set d k (default [] (dict_get d k) ++ [request]))
    requests [].

(** The loop of [update] over [orig_zip_file.namelist()]; it returns what
    is left in [requests_by_file]. *)
Fixpoint rebuild (members : list (string * list byte))
    (temp_file temp_dir : path) (names : list string)
    (requests_by_file : list (option string * list UpdateRequest.t))
    : M (list (option string * list UpdateRequest.t)) :=
  match names with
  | [] => mret requests_by_file
  | name :: names' =>
      member_path ← extract members name temp_dir;
      let requests := default [] (dict_get requests_by_file (Some name)) in
      let requests_by_file := dict_del requests_by_file (Some name) in
      _update_file member_path requests;;
      zip_write temp_file member_path name;;
      unlink member_path;;
      rebuild members temp_file temp_dir names' requests_by_file
  end.

(** The [try] block of [update], from the opening of the two archives on;
    it returns the handler with its new [_updates]. *)
Definition update_try (self : t) (temp_file temp_dir : path)
    (requests_by_file : list (option string * list UpdateRequest.t)) : M t :=
  orig_members ← ZipFile_r (Named (_path self));
  ZipFile_w temp_file;;
  requests_by_file ← rebuild orig_members temp_file temp_dir
                       (orig_members.*1) requests_by_file;
  if negb (bool_decide (requests_by_file = []))
  then raise (Exception (RequestsForUnknownFiles (requests_by_file.*1)))
  else
    rename temp_file (Named (_path self));;
    mret (mk (_path self) (_updates self + 1)).

(** The [finally] block of [update].  Both temporaries are always created
    in this model, so the block tests only whether they still exist. *)
Definition update_finally (temp_file temp_dir : path) : M unit :=
  e ← exists_ temp_file;
  (if e : bool then unlink temp_file else mret ());;
  e ← exists_ temp_dir;
  if e : bool then rmtree temp_dir else mret ().

Definition update (self : t) (requests : list UpdateRequest.t) : M t :=
  let requests_by_file := group_requests requests in
  temp_file ← NamedTemporaryFile (Named (_path self));
  temp_dir ← mkdtemp;
  try_finally (update_try self temp_file temp_dir requests_by_file)
              (update_finally temp_file temp_dir).
End ZipIOHandler.

(* ===================================================================== *)
(** ** Vocabulary of the statements *)
(* ===================================================================== *)

(** The fields of a record are within the ranges the header can hold. *)
Definition representable (r : ROMInfo) : Prop :=
  (prg_rom_size r mod 16384 = 0 /\ 0 <= prg_rom_size r <= 255 * 16384)
  /\ (chr_rom_size r mod 8192 = 0 /\ 0 <= chr_rom_size r <= 255 * 8192)
  /\ 0 <= mapper r <= 255
  /\ 0 <= prg_ram_size r <= 255 * 8192.

(** Mirroring and TV timing are values of their enumerations. *)
Definition valid_mirroring (m : Z) : Prop :=
  m = MIRROR_HORIZONTAL \/ m = MIRROR_VERTICAL \/ m = MIRROR_FOUR_SCREEN
  \/ m = MIRROR_FOUR_SCREEN_ODD \/ m = MIRROR_CONTROLLED.

Definition valid_tv_system (tv : Z) : Prop :=
  tv = TV_NTSC \/ tv = TV_PAL \/ tv = TV_BOTH.

(** The least multiple of 8192 that is not below [n]. *)
Definition round_up_8192 (n : Z) : Z := (n + 8191) / 8192 * 8192.

(** A size whose count of units does not fit the one byte of the header. *)
Definition size_out_of_range (r : ROMInfo) : Prop :=
  prg_rom_size r < 0 \/ 255 * 16384 < prg_rom_size r
  \/ chr_rom_size r < 0 \/ 255 * 8192 < chr_rom_size r
  \/ prg_ram_size r < 0 \/ 255 * 8192 < prg_ram_size r.

(** What the round trip is said to return: the record with its PRG RAM
    size rounded up and the TV timing "both" turned into NTSC. *)
Definition round_trip_stated (r : ROMInfo) : ROMInfo :=
  mkROMInfo (prg_rom_size r) (round_up_8192 (prg_ram_size r))
            (chr_rom_size r) (mapper r) (mirroring r)
            (if tv_system r =? TV_BOTH then TV_NTSC else tv_system r)
            (has_nvram r) (has_trainer r) (is_playchoice_10 r)
            (is_vs_unisystem r).

(** What the round trip returns: as stated, and mapper-controlled mirroring
    turned into horizontal. *)
Definition round_trip_image (r : ROMInfo) : ROMInfo :=
  mkROMInfo (prg_rom_size r) (round_up_8192 (prg_ram_size r))
            (chr_rom_size r) (mapper r)
            (if mirroring r =? MIRROR_CONTROLLED then MIRROR_HORIZONTAL
             else mirroring r)
            (if tv_system r =? TV_BOTH then TV_NTSC else tv_system r)
            (has_nvram r) (has_trainer r) (is_playchoice_10 r)
            (is_vs_unisystem r).

(** The two flag bytes as [make_ines_header] computes them. *)
Definition flags_6 (m mir : Z) (trainer nvram : bool) : Z :=
  Z.lor (Z.lor (Z.lor (Z.shiftl (Z.land m 15) 4) (Z.land mir 15))
               (Z.shiftl (Z.b2z trainer) 2))
        (Z.shiftl (Z.b2z nvram) 1).

Definition flags_7 (m : Z) (pc10 vs : bool) : Z :=
  Z.lor (Z.lor (Z.land m 240) (Z.shiftl (Z.b2z pc10) 1)) (Z.b2z vs).

(** The facts about the flag bytes that the round trip needs, as a test
    that can be run over every mapper and every combination of flags. *)
Definition flags_ok (m mir : Z) (trainer nvram pc10 vs : bool) : bool :=
  let f6 := flags_6 m mir trainer nvram in
  let f7 := flags_7 m pc10 vs in
  (0 <=? f6) && (f6 <? 256) && (0 <=? f7) && (f7 <? 256)
  && negb (Z.land f7 12 =? 8)
  && Bool.eqb (truthy (Z.land f6 4)) trainer
  && (Z.land f7 240 + Z.shiftr (Z.land f6 240) 4 =? m)
  && (Z.land f6 9 =? (if mir =? MIRROR_CONTROLLED then MIRROR_HORIZONTAL
                      else mir))
  && Bool.eqb (truthy (Z.land f6 2)) nvram
  && Bool.eqb (truthy (Z.land f7 2)) pc10
  && Bool.eqb (truthy (Z.land f7 1)) vs.

Definition all_bool (f : bool -> bool) : bool := f true && f false.

Definition flags_ok_everywhere : bool :=
  forallb (fun m =>
    forallb (fun mir =>
      all_bool (fun trainer => all_bool (fun nvram =>
      all_bool (fun pc10 => all_bool (fun vs =>
        flags_ok m mir trainer nvram pc10 vs)))))
      [MIRROR_HORIZONTAL; MIRROR_VERTICAL; MIRROR_FOUR_SCREEN;
       MIRROR_FOUR_SCREEN_ODD; MIRROR_CONTROLLED])
    (seqZ 0 256).

(* ===================================================================== *)
(** ** Inputs and predicates of the statements *)
(* ===================================================================== *)

(** A record in range whose mirroring is mapper-controlled. *)
Definition controlled_rom : ROMInfo :=
  mkROMInfo 16384 0 0 0 MIRROR_CONTROLLED TV_NTSC false false false false.

(** The bytes written for it. *)
Definition controlled_header : list byte :=
  b_NES ++ [x01; x00; x00; x00; x00; x00].

(** A record in range with 2 KiB of PRG RAM, for both TV systems. *)
Definition crisis_rom : ROMInfo :=
  mkROMInfo 32768 2048 8192 23 MIRROR_VERTICAL TV_BOTH true false false false.

(** A record with 256 units of PRG ROM, one more than a byte counts. *)
Definition oversized_rom : ROMInfo :=
  mkROMInfo (256 * 16384) 0 0 0 0 0 false false false false.

(** The value of the byte at offset [i]. *)
Definition byte_at (bs : list byte) (i : nat) : Z := byte_val (nth i bs x00).

(** Headers of 16 bytes: one with the NES 2.0 bits, one with the trainer
    bit, and the start of a UNIF file. *)
Definition nes20_header : list byte :=
  b_NES ++ [x02; x01; x00; x08] ++ repeat x00 8.
Definition trainer_header : list byte :=
  b_NES ++ [x02; x01; x04; x00] ++ repeat x00 8.
Definition unif_header : list byte := b_UNIF ++ repeat x00 12.

(** The entry of [b.diff(a)] that answers an entry of [a.diff(b)]. *)
Definition swap_entry (kv : field * value) : field * value :=
  (kv.1, match kv.2 with VPair x y => VPair y x | v => v end).

(** The entry of the differences dict for one attribute, if any. *)
Definition diff_entry (self other : ROMInfo) (attr : field)
    : option (field * value) :=
  if differs attr (getattr self attr) (getattr other attr)
  then Some (attr, VPair (getattr self attr) (getattr other attr))
  else None.

(** The board type is one of the four-screen boards. *)
Definition is_four_screen_board (board : Element) : bool :=
  match attrib board !! "type" with
  | Some ty => str_in ty FOUR_SCREEN_BOARDS
  | None => false
  end.

(** A four-screen board whose pad element sets neither bit. *)
Definition tvrom_board_unset_pad : Element :=
  mkElement "board" {[ "type" := "NES-TVROM"; "mapper" := "4" ]}
    [mkElement "prg" {[ "size" := "128k" ]} [];
     mkElement "pad" {[ "h" := "0"; "v" := "0" ]} []].

(** A four-screen board whose pad element sets the h bit. *)
Definition tvrom_board_h_pad : Element :=
  mkElement "board" {[ "type" := "NES-TVROM"; "mapper" := "4" ]}
    [mkElement "prg" {[ "size" := "128k" ]} [];
     mkElement "pad" {[ "h" := "1"; "v" := "0" ]} []].

(** A corpus entry, and the events of a corpus that holds it once and
    twice. *)
Definition smb_board : Element :=
  mkElement "board" {[ "type" := "NES-NROM-256"; "mapper" := "0" ]}
    [mkElement "prg" {[ "size" := "32k" ]} [];
     mkElement "chr" {[ "size" := "8k" ]} [];
     mkElement "pad" {[ "h" := "0"; "v" := "1" ]} []].

Definition smb_cartridge : Element :=
  mkElement "cartridge" {[ "system" := "NES-NTSC"; "crc" := "3337ec46" ]}
    [smb_board].

Definition smb_info : ROMInfo :=
  mkROMInfo 32768 0 8192 0 MIRROR_HORIZONTAL TV_NTSC false false false false.

Definition corpus_once : list xml_event :=
  [("start", mkElement "database" ∅ []);
   ("start", mkElement "game" ∅ []);
   ("start", mkElement "cartridge" (attrib smb_cartridge) []);
   ("start", mkElement "board" (attrib smb_board) []);
   ("end", smb_board);
   ("end", smb_cartridge);
   ("end", mkElement "game" ∅ [mkElement "cartridge" ∅ []])].

Definition corpus_twice : list xml_event :=
  corpus_once ++
  [("start", mkElement "game" ∅ []);
   ("start", mkElement "cartridge" (attrib smb_cartridge) []);
   ("start", mkElement "board" (attrib smb_board) []);
   ("end", smb_board);
   ("end", smb_cartridge);
   ("end", mkElement "game" ∅ [mkElement "cartridge" ∅ []]);
   ("end", mkElement "database" ∅ [])].

(** An entity of 32 bytes that begins with the UNIF magic, one that begins
    with neither magic, and one with a header. *)
Definition unif_entity : list byte := b_UNIF ++ repeat x00 28.
Definition raw_entity : list byte := repeat xea 40.
Definition headed_entity : list byte :=
  b_NES ++ [x02; x01; x01; x00; x00; x00] ++ repeat x00 6 ++ repeat xea 40.

(** The name [name] stands, in the archive, for a member shorter than a
    header. *)
Definition short_member (members : list (string * list byte))
    (name : string) : Prop :=
  exists content, getinfo members name = Returned content
                  /\ (length content < 16)%nat.

Definition short_world : world :=
  mkWorld (fs_set (Named "tiny.nes") (Some (File (repeat xea 9)))
             (fs_set (Named "roms.zip")
                (Some (Zip [("a.nes", headed_entity);
                            ("tiny.nes", repeat xea 9);
                            ("b.nes", raw_entity)]))
                (fun _ => None)))
          0 [].

(** A bare file of 100 bytes without header, the record to insert, and the
    request that asks for it. *)
Definition bare_payload : list byte := repeat xea 100.

Definition bare_world : world :=
  mkWorld (fs_set (Named "rom.nes") (Some (File bare_payload))
             (fun _ => None)) 0 [].

Definition nrom_info : ROMInfo :=
  mkROMInfo 32768 0 8192 0 MIRROR_VERTICAL TV_NTSC false false false false.

Definition nrom_written : list byte :=
  b_NES ++ [x02; x01; x01; x00; x00; x00].

Definition bare_insert : UpdateRequest.t :=
  UpdateRequest.mk (mkFileInfo "rom.nes" "B6FBC955" None None)
    UpdateRequest.REQ_HEADER_INSERT nrom_info.

(** The paths the user names hold in [w'] what they hold in [w]. *)
Definition same_named (w w' : world) : Prop :=
  forall s, fs w' (Named s) = fs w (Named s).

(** A computation that leaves alone the paths the user names, however it
    ends; and one that does so when it raises. *)
Definition keeps_named {A} (m : M A) : Prop :=
  forall w r w', m w = (r, w') -> same_named w w'.

Definition keeps_named_on_error {A} (m : M A) : Prop :=
  forall w e w', m w = (Raised e, w') -> same_named w w'.

Definition made_up (p : path) : Prop :=
  match p with
  | Named _ => False
  | _ => True
  end.

(** An archive of two members and a request that cannot be written. *)
Definition two_roms : world :=
  mkWorld (fs_set (Named "roms.zip")
             (Some (Zip [("a.nes", raw_entity); ("b.nes", headed_entity)]))
             (fun _ => None)) 0 [].

Definition odd_info : ROMInfo :=
  mkROMInfo 1000 0 8192 0 MIRROR_VERTICAL TV_NTSC false false false false.

Definition request_for (member : string) (req_type : Z) (info : ROMInfo)
    : UpdateRequest.t :=
  UpdateRequest.mk
    (mkFileInfo (path_join "roms.zip" member) "00000000" None (Some member))
    req_type info.

(** A computation that raises from every world. *)
Definition always_raises {A} (m : M A) : Prop :=
  forall w, exists e w', m w = (Raised e, w').

(** The record of a request cannot be written. *)
Definition unwritable (request : UpdateRequest.t) : Prop :=
  raises (make_ines_header (UpdateRequest.rom_info request)).

(* ===================================================================== *)
(** ** Further vocabulary *)
(* ===================================================================== *)


(** The record a header is parsed into lies within the ranges the header
    can hold. *)
Definition parsed_shape (r : ROMInfo) : Prop :=
  representable r
  /\ prg_ram_size r mod 8192 = 0
  /\ (mirroring r = MIRROR_HORIZONTAL \/ mirroring r = MIRROR_VERTICAL
      \/ mirroring r = MIRROR_FOUR_SCREEN
      \/ mirroring r = MIRROR_FOUR_SCREEN_ODD)
  /\ (tv_system r = TV_NTSC \/ tv_system r = TV_PAL)
  /\ has_trainer r = false.

(** The header of the end-to-end example: 32 KiB of PRG ROM, 8 KiB of CHR
    ROM, mapper 0, vertical mirroring bit set. *)
Definition example_header : list byte :=
  b_NES ++ [x02; x01; x01; x00; x00; x00] ++ repeat x00 6.


(* ===================================================================== *)
(** ** The driver *)
(* ===================================================================== *)

(** What [update_rom_header] prints, line by line: the status of a file,
    and for a header that differs one line for each field with the pair of
    the expected value and the value read.  (The text of the lines is left
    out.) *)
Inductive report :=
| NoHeaderNotInDatabase (file_info : FileInfo)
| NotInDatabase (file_info : FileInfo)
| WillAddHeader (file_info : FileInfo)
| HeaderMatches (file_info : FileInfo)
| HeaderDiffers (file_info : FileInfo)
| ExpectedRead (attr : field) (values : value).

(** The visitor of [cmd_write], closed over the database and the dry-run
    flag: the lines it prints and the request it returns, if any. *)
Definition update_rom_header (db : gmap string ROMInfo) (dry_run : bool)
    (file_info : FileInfo) : list report * option UpdateRequest.t :=
  let db_rom_info := db !! crc32 file_info in
  match rom_info file_info, db_rom_info with
  | None, None => ([NoHeaderNotInDatabase file_info], None)
  | Some _, None => ([NotInDatabase file_info], None)
  | None, Some db_rom_info =>
      ([WillAddHeader file_info],
       if dry_run then None
       else Some (UpdateRequest.mk file_info UpdateRequest.REQ_HEADER_INSERT
                    db_rom_info))
  | Some header, Some db_rom_info =>
      let diff := diff db_rom_info header in
      if bool_decide (diff = [])
      then ([HeaderMatches file_info], None)
      else (HeaderDiffers file_info
              :: map (fun kv => ExpectedRead kv.1 kv.2) diff,
            if dry_run then None
            else Some (UpdateRequest.mk file_info
                         UpdateRequest.REQ_HEADER_REPLACE db_rom_info))
  end.

(** The last occurrence of [c] in [cs]: what is before it, and the rest
    from it on. *)
Fixpoint rsplit (c : ascii) (cs : list ascii)
    : option (list ascii * list ascii) :=
  match cs with
  | [] => None
  | x :: cs' =>
      match rsplit c cs' with
      | Some (before, rest) => Some (x :: before, rest)
      | None => if bool_decide (x = c) then Some ([], cs) else None
      end
  end.

(** [os.path.splitext(p)[1]] on POSIX paths: the part of the last
    component from its last dot on, unless only dots come before it. *)
Definition splitext_ext (p : string) : string :=
  let cs := list_ascii_of_string p in
  let filename := match rsplit "/"%char cs with
                  | Some (_, _ :: filename) => filename
                  | _ => cs
                  end in
  match rsplit "."%char filename with
  | Some (before, ext) =>
      if existsb (fun x => negb (bool_decide (x = "."%char))) before
      then string_of_list_ascii ext
      else ""
  | None => ""
  end.

Inductive io_handler_cls :=
| FileIOHandler_cls
| ZipIOHandler_cls
| SevenZipIOHandler_cls.

(** [EXTENSION_TO_IO_HANDLER.get(extension.lower(), FileIOHandler)];
    [py7zlib] tells whether that module could be imported. *)
Definition io_handler_cls_for (py7zlib : bool) (rom_path : string)
    : io_handler_cls :=
  let extension := lower (splitext_ext rom_path) in
  if bool_decide (extension = ".zip") then ZipIOHandler_cls
  else if py7zlib && bool_decide (extension = ".7z") then SevenZipIOHandler_cls
  else FileIOHandler_cls.

(** The inner loop of [visit_roms]: the lines the visitor prints and the
    requests it returns, over the items of one handler. *)
Fixpoint visit_items (visitor : FileInfo -> list report * option UpdateRequest.t)
    (items : list FileInfo) : list report * list UpdateRequest.t :=
  match items with
  | [] => ([], [])
  | file_info :: items' =>
      let '(lines, request) := visitor file_info in
      let '(lines', requests) := visit_items visitor items' in
      (lines ++ lines',
       match request with
       | Some request => request :: requests
       | None => requests
       end)
  end.

(** The body of the loop of [visit_roms] for one path, where [py7zlib] is
    not available, so that the table holds the zip handler only.  The
    result lists the lines printed for the path when the body ends without
    an exception. *)
Definition visit_rom (visitor : FileInfo -> list report * option UpdateRequest.t)
    (rom_path : string) : M (list report) :=
  match io_handler_cls_for false rom_path with
  | ZipIOHandler_cls =>
      let io_handler := ZipIOHandler.mk rom_path 0 in
      items ← ZipIOHandler.iter io_handler;
      let '(lines, requests) := visit_items visitor items in
      (if bool_decide (requests = []) then mret ()
       else ZipIOHandler.update io_handler requests;; mret ());;
      mret lines
  | _ =>
      let io_handler := FileIOHandler.mk rom_path in
      items ← FileIOHandler.iter io_handler;
      let '(lines, requests) := visit_items visitor items in
      (if bool_decide (requests = []) then mret ()
       else FileIOHandler.update io_handler requests);;
      mret lines
  end.

Fixpoint visit_roms (rom_paths : list string)
    (visitor : FileInfo -> list report * option UpdateRequest.t)
    : M (list report) :=
  match rom_paths with
  | [] => mret []
  | rom_path :: rom_paths' =>
      lines ← visit_rom visitor rom_path;
      lines' ← visit_roms rom_paths' visitor;
      mret (lines ++ lines')
  end.

(** [cmd_write], given the events of the database file: load the
    database, then visit the ROMs with [update_rom_header]. *)
Definition cmd_write (xml_iter : list xml_event) (dry_run : bool)
    (roms : list string) : M (list report) :=
  loaded ← lift (load_db xml_iter);
  logging_warning loaded.2;;
  visit_roms roms (update_rom_header loaded.1 dry_run).

(** [w'] has the files and the counter of temporaries of [w]. *)
Definition same_files (w w' : world) : Prop :=
  fs w' = fs w /\ next_temp w' = next_temp w.

(** A computation that, however it ends, writes to no file. *)
Definition reads_only {A} (m : M A) : Prop :=
  forall w, same_files w (m w).2.

(** What [_make_file_info] returns and logs, read off the parse of the
    first 16 bytes: the checksum covers the bytes after the header when
    there is one, and all the bytes when there is none. *)
Definition file_info_for (name : string) (content : list byte)
    (handler_data : option string) : outcome FileInfo * list warning :=
  match parse_header (take 16 content) with
  | Raised (SkipROM ex) => (Raised (SkipROM ex), [SkippedROM name ex])
  | Raised e => (Raised e, [])
  | Returned info =>
      (Returned (mkFileInfo name
         (format_08X (binascii_crc32
            (match info with
             | Some _ => drop 16 content
             | None => content
             end) 0))
         info handler_data), [])
  end.


(** A character of an upper-case hexadecimal numeral. *)
Definition is_upper_hex (c : ascii) : bool :=
  is_digit c || ((65 <=? code c) && (code c <=? 70))%N.


(** A cartridge element without a board, and a corpus that holds it
    between two copies of a good entry. *)
Definition boardless_cartridge : Element :=
  mkElement "cartridge" {[ "system" := "NES-NTSC"; "crc" := "0badc0de" ]} [].

Definition corpus_with_boardless : list xml_event :=
  corpus_once ++ ("end", boardless_cartridge) :: corpus_once.

(** What holds of every key and record of a loaded database. *)
Definition db_record_ok (crc32 : string) (info : ROMInfo) : Prop :=
  upper crc32 = crc32
  /\ (0 <= prg_rom_size info /\ prg_rom_size info mod 1024 = 0)
  /\ (0 <= prg_ram_size info /\ prg_ram_size info mod 1024 = 0)
  /\ (0 <= chr_rom_size info /\ chr_rom_size info mod 1024 = 0)
  /\ has_trainer info = false
  /\ (tv_system info = TV_NTSC \/ tv_system info = TV_PAL
      \/ tv_system info = TV_BOTH)
  /\ (mirroring info = MIRROR_HORIZONTAL \/ mirroring info = MIRROR_VERTICAL
      \/ mirroring info = MIRROR_FOUR_SCREEN
      \/ mirroring info = MIRROR_CONTROLLED)
  /\ is_playchoice_10 info && is_vs_unisystem info = false.

(** A bare file that has a header, and a request to replace it. *)
Definition headed_world : world :=
  mkWorld (fs_set (Named "rom.nes") (Some (File headed_entity))
             (fun _ => None)) 0 [].

Definition headed_replace : UpdateRequest.t :=
  UpdateRequest.mk (mkFileInfo "rom.nes" "00000000" None None)
    UpdateRequest.REQ_HEADER_REPLACE nrom_info.





(* ===================================================================== *)
(** * Properties *)
(* ===================================================================== *)

(** ** Bytes and arithmetic *)

Lemma byte_val_range (b : byte) : 0 <= byte_val b < 256.
Proof.
  unfold byte_val. pose proof (Byte.to_N_bounded b). lia.
Qed.

Lemma byte_of_int_ok (z : Z) :
  0 <= z < 256 -> exists b, byte_of_int z = Returned b /\ byte_val b = z.
Proof.
  intros Hz. unfold byte_of_int.
  destruct (Z.ltb_spec z 0); [lia |].
  destruct (Byte.of_N (Z.to_N z)) as [b |] eqn:E.
  - exists b. split; [reflexivity |].
    unfold byte_val. rewrite (Byte.to_of_N _ E). lia.
  - apply Byte.of_N_None_iff in E. lia.
Qed.

Lemma land_16383_zero (x : Z) :
  x mod 16384 = 0 -> truthy (Z.land x 16383) = false.
Proof.
  intros Hx. change 16383 with (Z.ones 14).
  rewrite Z.land_ones by lia. change (2 ^ 14) with 16384.
  rewrite Hx. reflexivity.
Qed.

Lemma land_8191_zero (x : Z) :
  x mod 8192 = 0 -> truthy (Z.land x 8191) = false.
Proof.
  intros Hx. change 8191 with (Z.ones 13).
  rewrite Z.land_ones by lia. change (2 ^ 13) with 8192.
  rewrite Hx. reflexivity.
Qed.

Lemma ceil_div_8192 (n : Z) : ceil_div n 8192 * 8192 = round_up_8192 n.
Proof.
  unfold ceil_div, round_up_8192.
  pose proof (Z_div_mod_eq_full (- n) 8192).
  pose proof (Z.mod_pos_bound (- n) 8192 ltac:(lia)).
  pose proof (Z_div_mod_eq_full (n + 8191) 8192).
  pose proof (Z.mod_pos_bound (n + 8191) 8192 ltac:(lia)).
  lia.
Qed.

Lemma ceil_div_range (n : Z) :
  0 <= n <= 255 * 8192 -> 0 <= ceil_div n 8192 < 256.
Proof.
  intros Hn. unfold ceil_div.
  pose proof (Z_div_mod_eq_full (- n) 8192).
  pose proof (Z.mod_pos_bound (- n) 8192 ltac:(lia)).
  lia.
Qed.

(** [round_up_8192] is what its name says. *)
Lemma round_up_8192_least (n : Z) :
  n <= round_up_8192 n /\ round_up_8192 n mod 8192 = 0
  /\ forall m, m mod 8192 = 0 -> n <= m -> round_up_8192 n <= m.
Proof.
  unfold round_up_8192.
  pose proof (Z_div_mod_eq_full (n + 8191) 8192).
  pose proof (Z.mod_pos_bound (n + 8191) 8192 ltac:(lia)).
  split; [lia |]. split.
  - apply Z.mod_mul. lia.
  - intros m Hm Hle.
    pose proof (Z_div_mod_eq_full m 8192). lia.
Qed.

Lemma flags_ok_all : flags_ok_everywhere = true.
Proof. vm_compute. reflexivity. Qed.

Lemma all_bool_at (f : bool -> bool) (b : bool) :
  all_bool f = true -> f b = true.
Proof.
  unfold all_bool. intros H. apply andb_prop in H. destruct H, b; assumption.
Qed.

Lemma flags_ok_at (m mir : Z) (trainer nvram pc10 vs : bool) :
  0 <= m <= 255 -> valid_mirroring mir ->
  flags_ok m mir trainer nvram pc10 vs = true.
Proof.
  intros Hm Hmir.
  pose proof flags_ok_all as H. unfold flags_ok_everywhere in H.
  rewrite forallb_forall in H.
  specialize (H m). 
  assert (Hin : In m (seqZ 0 256)).
  { apply list_elem_of_In, elem_of_seqZ. lia. }
  specialize (H Hin). rewrite forallb_forall in H.
  specialize (H mir).
  assert (Hin' : In mir [MIRROR_HORIZONTAL; MIRROR_VERTICAL;
                         MIRROR_FOUR_SCREEN; MIRROR_FOUR_SCREEN_ODD;
                         MIRROR_CONTROLLED]).
  { unfold valid_mirroring in Hmir. simpl. intuition. }
  specialize (H Hin').
  apply (all_bool_at _ trainer) in H. apply (all_bool_at _ nvram) in H.
  apply (all_bool_at _ pc10) in H. apply (all_bool_at _ vs) in H.
  exact H.
Qed.

(** ** The header codec *)

(** Writing a representable record succeeds, and gives the magic followed
    by six bytes with the values computed from the record. *)
Lemma make_ines_header_ok (r : ROMInfo) :
  representable r -> valid_mirroring (mirroring r) ->
  exists b4 b5 b6 b7 b8 b9,
    make_ines_header r = Returned (b_NES ++ [b4; b5; b6; b7; b8; b9])
    /\ byte_val b4 = prg_rom_size r / 16384
    /\ byte_val b5 = chr_rom_size r / 8192
    /\ byte_val b6 = flags_6 (mapper r) (mirroring r) (has_trainer r)
                             (has_nvram r)
    /\ byte_val b7 = flags_7 (mapper r) (is_playchoice_10 r)
                             (is_vs_unisystem r)
    /\ byte_val b8 = ceil_div (prg_ram_size r) 8192
    /\ byte_val b9 = Z.land (tv_system r) 1.
Proof.
  intros [[Hp1 Hp2] [[Hc1 Hc2] [Hm Hr]]] Hmir.
  pose proof (flags_ok_at (mapper r) (mirroring r) (has_trainer r)
                (has_nvram r) (is_playchoice_10 r) (is_vs_unisystem r)
                Hm Hmir) as Hf.
  unfold flags_ok in Hf. cbv zeta in Hf.
  repeat (apply andb_prop in Hf; destruct Hf as [Hf ?]).
  destruct (byte_of_int_ok (prg_rom_size r / 16384)) as [b4 [E4 V4]].
  { pose proof (Z_div_mod_eq_full (prg_rom_size r) 16384). lia. }
  destruct (byte_of_int_ok (chr_rom_size r / 8192)) as [b5 [E5 V5]].
  { pose proof (Z_div_mod_eq_full (chr_rom_size r) 8192). lia. }
  destruct (byte_of_int_ok (flags_6 (mapper r) (mirroring r) (has_trainer r)
                              (has_nvram r))) as [b6 [E6 V6]]; [lia |].
  destruct (byte_of_int_ok (flags_7 (mapper r) (is_playchoice_10 r)
                              (is_vs_unisystem r))) as [b7 [E7 V7]]; [lia |].
  destruct (byte_of_int_ok (ceil_div (prg_ram_size r) 8192)) as [b8 [E8 V8]].
  { apply ceil_div_range. assumption. }
  destruct (byte_of_int_ok (Z.land (tv_system r) 1)) as [b9 [E9 V9]].
  { change 1 with (Z.ones 1). rewrite Z.land_ones by lia.
    pose proof (Z.mod_pos_bound (tv_system r) (2 ^ 1) ltac:(lia)). lia. }
  exists b4, b5, b6, b7, b8, b9.
  split; [| repeat split; assumption].
  unfold make_ines_header.
  rewrite (land_16383_zero _ Hp1), (land_8191_zero _ Hc1).
  replace (prg_rom_size r >? 255 * 16384) with false by lia.
  replace (prg_rom_size r <? 0) with false by lia.
  replace (chr_rom_size r >? 255 * 8192) with false by lia.
  replace (chr_rom_size r <? 0) with false by lia.
  replace (mapper r <? 0) with false by lia.
  replace (mapper r >? 255) with false by lia.
  replace (prg_ram_size r >? 255 * 8192) with false by lia.
  replace (prg_ram_size r <? 0) with false by lia.
  cbn [orb]. cbv zeta.
  fold (flags_6 (mapper r) (mirroring r) (has_trainer r) (has_nvram r)).
  fold (flags_7 (mapper r) (is_playchoice_10 r) (is_vs_unisystem r)).
  cbn [mapM]. rewrite E4, E5, E6, E7, E8, E9. reflexivity.
Qed.

(** Reading back a header whose first ten bytes are known. *)
Lemma parse_header_fields (b4 b5 b6 b7 b8 b9 : byte) (rest : list byte) :
  (6 <= length rest)%nat ->
  parse_header (b_NES ++ [b4; b5; b6; b7; b8; b9] ++ rest) =
  if Z.land (byte_val b7) 12 =? 8
  then Raised (SkipROM Nes20Unsupported)
  else if truthy (Z.land (byte_val b6) 4)
  then Raised (SkipROM TrainersUnsupported)
  else Returned (Some (mkROMInfo
         (byte_val b4 * 16384) (byte_val b8 * 8192) (byte_val b5 * 8192)
         (Z.land (byte_val b7) 240 + Z.shiftr (Z.land (byte_val b6) 240) 4)
         (Z.land (byte_val b6) 9) (Z.land (byte_val b9) 1)
         (truthy (Z.land (byte_val b6) 2)) (truthy (Z.land (byte_val b6) 4))
         (truthy (Z.land (byte_val b7) 2)) (truthy (Z.land (byte_val b7) 1)))).
Proof.
  intros Hlen. unfold parse_header, MIN_HEADER_READ_SIZE.
  replace (Z.of_nat (length (b_NES ++ [b4; b5; b6; b7; b8; b9] ++ rest)) >=? 16)
    with true.
  2:{ symmetry. rewrite !length_app. simpl length.
      destruct (Z.geb_spec (Z.of_nat (4 + (6 + length rest))) 16); [reflexivity | lia]. }
  cbn -[Z.land Z.shiftr Z.mul Z.add Z.eqb truthy].
  destruct (Z.land (byte_val b7) 12 =? 8); [reflexivity |].
  cbn -[Z.land Z.shiftr Z.mul Z.add Z.eqb truthy].
  destruct (truthy (Z.land (byte_val b6) 4)); reflexivity.
Qed.

Lemma flags_facts (m mir : Z) (trainer nvram pc10 vs : bool) :
  0 <= m <= 255 -> valid_mirroring mir ->
  let f6 := flags_6 m mir trainer nvram in
  let f7 := flags_7 m pc10 vs in
  (Z.land f7 12 =? 8) = false
  /\ truthy (Z.land f6 4) = trainer
  /\ Z.land f7 240 + Z.shiftr (Z.land f6 240) 4 = m
  /\ Z.land f6 9 = (if mir =? MIRROR_CONTROLLED then MIRROR_HORIZONTAL
                    else mir)
  /\ truthy (Z.land f6 2) = nvram
  /\ truthy (Z.land f7 2) = pc10
  /\ truthy (Z.land f7 1) = vs.
Proof.
  intros Hm Hmir. cbv zeta.
  pose proof (flags_ok_at m mir trainer nvram pc10 vs Hm Hmir) as Hf.
  unfold flags_ok in Hf. cbv zeta in Hf.
  apply andb_prop in Hf. destruct Hf as [Hf Hvs].
  apply andb_prop in Hf. destruct Hf as [Hf Hpc].
  apply andb_prop in Hf. destruct Hf as [Hf Hnv].
  apply andb_prop in Hf. destruct Hf as [Hf Hmi].
  apply andb_prop in Hf. destruct Hf as [Hf Hma].
  apply andb_prop in Hf. destruct Hf as [Hf Htr].
  apply andb_prop in Hf. destruct Hf as [_ Hgen].
  apply negb_true_iff in Hgen.
  apply eqb_prop in Hvs, Hpc, Hnv, Htr.
  apply Z.eqb_eq in Hmi, Hma.
  repeat split; assumption.
Qed.

(** C2, as amended.  For every record within the representable ranges whose
    mirroring and TV timing are values of their enumerations and which has
    no trainer, writing succeeds and parsing what was written, followed by
    whatever bytes make up the 16 that parsing asks for, returns the record
    with its PRG RAM size rounded up to the next multiple of 8192, the TV
    timing "both" as NTSC and mapper-controlled mirroring as horizontal. *)
Theorem round_trip (r : ROMInfo) :
  representable r -> valid_mirroring (mirroring r) ->
  valid_tv_system (tv_system r) -> has_trainer r = false ->
  exists header,
    make_ines_header r = Returned header
    /\ forall rest, (16 <= length (header ++ rest))%nat ->
         parse_header (header ++ rest) = Returned (Some (round_trip_image r)).
Proof.
  intros Hrep Hmir Htv Htr.
  destruct (make_ines_header_ok r Hrep Hmir)
    as (b4 & b5 & b6 & b7 & b8 & b9 & Hw & V4 & V5 & V6 & V7 & V8 & V9).
  exists (b_NES ++ [b4; b5; b6; b7; b8; b9]). split; [exact Hw |].
  intros rest Hlen. rewrite <- app_assoc.
  rewrite parse_header_fields.
  2:{ rewrite !length_app in Hlen. simpl in Hlen. lia. }
  destruct Hrep as [[Hp1 Hp2] [[Hc1 Hc2] [Hm Hr]]].
  destruct (flags_facts (mapper r) (mirroring r) (has_trainer r) (has_nvram r)
              (is_playchoice_10 r) (is_vs_unisystem r) Hm Hmir)
    as (Hgen & Htrain & Hmap & Hmi & Hnv & Hpc & Hvs).
  rewrite V6, V7, Hgen, Htrain, Hmap, Hmi, Hnv, Hpc, Hvs, V4, V5, V8, V9, Htr.
  unfold round_trip_image. rewrite Htr. do 2 f_equal. f_equal.
  - pose proof (Z_div_mod_eq_full (prg_rom_size r) 16384). lia.
  - apply ceil_div_8192.
  - pose proof (Z_div_mod_eq_full (chr_rom_size r) 8192). lia.
  - destruct Htv as [-> | [-> | ->]]; reflexivity.
Qed.

(** C2, as stated, fails.  The record [controlled_rom] is within the
    representable ranges; the bytes written for it are not parsed at all
    (they are 10, parsing asserts 16), and however they are continued the
    record parsed is never the one stated: its mirroring is horizontal,
    not mapper-controlled. *)
Lemma round_trip_as_stated_fails :
  representable controlled_rom
  /\ make_ines_header controlled_rom = Returned controlled_header
  /\ parse_header controlled_header = Raised (AssertionError 10)
  /\ (forall rest, parse_header (controlled_header ++ rest)
                   <> Returned (Some (round_trip_stated controlled_rom)))
  /\ parse_header (controlled_header ++ repeat x00 6)
     = Returned (Some (round_trip_image controlled_rom))
  /\ round_trip_image controlled_rom <> round_trip_stated controlled_rom.
Proof.
  split; [repeat split; vm_compute; congruence |].
  split; [reflexivity |]. split; [reflexivity |].
  split; [| split; [reflexivity | discriminate]].
  intros rest.
  destruct (le_lt_dec 6 (length rest)) as [Hlen | Hlen].
  - unfold controlled_header. rewrite <- app_assoc.
    rewrite parse_header_fields by exact Hlen. cbn. discriminate.
  - destruct rest as [| ? [| ? [| ? [| ? [| ? [| ? rest]]]]]];
      try discriminate.
    simpl in Hlen. lia.
Qed.

Lemma round_trip_witness :
  (representable crisis_rom /\ valid_mirroring (mirroring crisis_rom)
   /\ valid_tv_system (tv_system crisis_rom)
   /\ has_trainer crisis_rom = false)
  /\ exists header,
       make_ines_header crisis_rom = Returned header
       /\ forall rest, (16 <= length (header ++ rest))%nat ->
            parse_header (header ++ rest)
            = Returned (Some (round_trip_image crisis_rom)).
Proof.
  assert (H1 : representable crisis_rom)
    by (repeat split; vm_compute; congruence).
  assert (H2 : valid_mirroring (mirroring crisis_rom))
    by (right; left; reflexivity).
  assert (H3 : valid_tv_system (tv_system crisis_rom))
    by (right; right; reflexivity).
  assert (H4 : has_trainer crisis_rom = false) by reflexivity.
  split; [auto |].
  exact (round_trip crisis_rom H1 H2 H3 H4).
Defined.

(** ** The length of a written header *)

(** Whatever record is written, the result has the 4 bytes of the magic and
    six more. *)
Lemma make_ines_header_length (r : ROMInfo) (header : list byte) :
  make_ines_header r = Returned header ->
  length header = 10%nat /\ take 4 header = b_NES.
Proof.
  unfold make_ines_header.
  repeat match goal with
         | |- context [if ?c then Raised _ else _] => destruct c; [discriminate |]
         end.
  cbv zeta. cbn [mapM].
  repeat match goal with
         | |- context [byte_of_int ?z] =>
             destruct (byte_of_int z); [| discriminate]
         end.
  cbn. intros H. inversion H. split; reflexivity.
Qed.

(** ** Construction and the range checks *)

(** C4, as stated, fails: constructing a record whose PRG ROM size is 256
    units returns the record, with the size as it was given. *)
Lemma init_accepts_oversized :
  size_out_of_range oversized_rom
  /\ ROMInfo_init (256 * 16384) 0 0 0 0 0 false false false false
     = Returned oversized_rom
  /\ prg_rom_size oversized_rom = 256 * 16384.
Proof.
  split; [| split; reflexivity].
  right; left. vm_compute. reflexivity.
Qed.

(** C4, as amended.  Constructing a record never fails and keeps every
    field as given; a PRG ROM, CHR ROM or PRG RAM size outside the range of
    the one-byte count is refused when the record is written: writing
    raises and returns no bytes. *)
Theorem size_checked_when_written (r : ROMInfo) :
  size_out_of_range r ->
  ROMInfo_init (prg_rom_size r) (prg_ram_size r) (chr_rom_size r) (mapper r)
               (mirroring r) (tv_system r) (has_nvram r) (has_trainer r)
               (is_playchoice_10 r) (is_vs_unisystem r) = Returned r
  /\ exists msg, make_ines_header r = Raised (Exception msg).
Proof.
  intros Hout. split; [destruct r; reflexivity |].
  unfold make_ines_header.
  destruct (_ || _ || (prg_rom_size r <? 0)) eqn:E1; [eauto |].
  destruct (_ || _ || (chr_rom_size r <? 0)) eqn:E2; [eauto |].
  destruct ((mapper r <? 0) || _) eqn:E3; [eauto |].
  destruct ((prg_ram_size r >? 255 * 8192) || _) eqn:E4; [eauto |].
  exfalso.
  apply orb_false_elim in E1, E2, E4.
  destruct E1 as [E1 E1'], E2 as [E2 E2'], E4 as [E4 E4'].
  apply orb_false_elim in E1, E2.
  destruct E1 as [_ E1], E2 as [_ E2].
  unfold size_out_of_range in Hout. lia.
Qed.

Lemma size_checked_when_written_witness :
  size_out_of_range oversized_rom
  /\ ROMInfo_init (256 * 16384) 0 0 0 0 0 false false false false
     = Returned oversized_rom
  /\ exists msg, make_ines_header oversized_rom = Raised (Exception msg).
Proof.
  assert (H : size_out_of_range oversized_rom)
    by (right; left; vm_compute; reflexivity).
  split; [exact H |].
  exact (size_checked_when_written oversized_rom H).
Defined.

(** ** What parsing refuses *)

Lemma getitem_byte_at (bs : list byte) (i : nat) :
  (i < length bs)%nat -> getitem bs i = Returned (byte_at bs i).
Proof.
  intros Hi. unfold getitem, byte_at.
  rewrite (nth_error_nth' bs x00 Hi). reflexivity.
Qed.

Lemma trainer_bit (b : byte) :
  truthy (Z.land (byte_val b) 4) = Z.testbit (byte_val b) 2.
Proof. destruct b; reflexivity. Qed.

Lemma startswith_NES_not_UNIF (bs : list byte) :
  startswith bs b_NES = true -> startswith bs b_UNIF = false.
Proof.
  destruct bs as [| b bs]; [discriminate |].
  simpl. intros H. apply andb_prop in H. destruct H as [H _].
  apply byte_dec_bl in H. subst b. reflexivity.
Qed.

Lemma assert_passes (bs : list byte) :
  (16 <= length bs)%nat ->
  negb (Z.of_nat (length bs) >=? MIN_HEADER_READ_SIZE) = false.
Proof.
  intros H. unfold MIN_HEADER_READ_SIZE.
  destruct (Z.geb_spec (Z.of_nat (length bs)) 16); [reflexivity | lia].
Qed.

Lemma assert_fails (bs : list byte) :
  (length bs < 16)%nat ->
  negb (Z.of_nat (length bs) >=? MIN_HEADER_READ_SIZE) = true.
Proof.
  intros H. unfold MIN_HEADER_READ_SIZE.
  destruct (Z.geb_spec (Z.of_nat (length bs)) 16); [lia | reflexivity].
Qed.

(** C8.  For every input of 16 bytes or more: if it begins with the UNIF
    magic, or begins with the iNES magic and either bits 2-3 of byte 7 say
    NES 2.0 or bit 2 of byte 6 (trainer present) is set, parsing raises
    SkipROM, so it returns no record. *)
Theorem parse_header_skips (bs : list byte) :
  (16 <= length bs)%nat ->
  startswith bs b_UNIF = true
  \/ (startswith bs b_NES = true
      /\ (Z.land (byte_at bs 7) 12 = 8 \/ Z.testbit (byte_at bs 6) 2 = true)) ->
  exists reason, parse_header bs = Raised (SkipROM reason).
Proof.
  intros Hlen H. unfold parse_header.
  rewrite (assert_passes bs Hlen).
  destruct H as [HU | [HN Hbits]].
  - rewrite HU. eauto.
  - rewrite (startswith_NES_not_UNIF bs HN), HN. cbn [negb].
    rewrite !getitem_byte_at by lia. cbn [mbind outcome_bind].
    destruct (Z.eqb_spec (Z.land (byte_at bs 7) 12) 8) as [E | E]; [eauto |].
    destruct Hbits as [Hb | Hb]; [contradiction |].
    unfold byte_at in *. rewrite trainer_bit, Hb. eauto.
Qed.

Lemma parse_header_skips_witness :
  (exists reason, parse_header unif_header = Raised (SkipROM reason))
  /\ (exists reason, parse_header nes20_header = Raised (SkipROM reason))
  /\ (exists reason, parse_header trainer_header = Raised (SkipROM reason)).
Proof.
  split; [| split].
  - apply (parse_header_skips unif_header); [simpl; lia |].
    left. reflexivity.
  - apply (parse_header_skips nes20_header); [simpl; lia |].
    right. split; [reflexivity |]. left. reflexivity.
  - apply (parse_header_skips trainer_header); [simpl; lia |].
    right. split; [reflexivity |]. right. reflexivity.
Defined.

(** ** Differences *)

Lemma py_eq_sym (x y : value) : py_eq x y = py_eq y x.
Proof.
  revert y. induction x as [| a | a | x1 IH1 x2 IH2]; intros [| b | b | y1 y2];
    simpl; try reflexivity.
  - apply Z.eqb_sym.
  - apply Z.eqb_sym.
  - apply Z.eqb_sym.
  - destruct a, b; reflexivity.
  - rewrite IH1, IH2. reflexivity.
Qed.

Lemma py_eq_refl_attr (r : ROMInfo) (attr : field) :
  py_eq (getattr r attr) (getattr r attr) = true.
Proof.
  destruct attr; simpl; try apply Z.eqb_refl; apply eqb_reflx.
Qed.

Lemma ignored_mirroring_diff_sym (a b : Z) :
  _is_ignored_mirroring_diff a b = _is_ignored_mirroring_diff b a.
Proof. unfold _is_ignored_mirroring_diff. rewrite Z.lor_comm. reflexivity. Qed.

Lemma differs_sym (attr : field) (x y : value) :
  differs attr x y = differs attr y x.
Proof.
  unfold differs.
  rewrite (py_eq_sym x y), (ignored_mirroring_diff_sym (as_int x) (as_int y)).
  rewrite (orb_comm (py_eq (VInt TV_BOTH) x)). reflexivity.
Qed.

(** The mirroring exception, on the values of the enumeration: a difference
    is ignored exactly when one value at least is mapper-controlled and
    neither is four-screen. *)
Lemma ignored_mirroring_diff_spec (a b : Z) :
  valid_mirroring a -> valid_mirroring b ->
  (_is_ignored_mirroring_diff a b = true <->
   (a = MIRROR_CONTROLLED \/ b = MIRROR_CONTROLLED)
   /\ a <> MIRROR_FOUR_SCREEN /\ a <> MIRROR_FOUR_SCREEN_ODD
   /\ b <> MIRROR_FOUR_SCREEN /\ b <> MIRROR_FOUR_SCREEN_ODD).
Proof.
  unfold valid_mirroring.
  intros [-> | [-> | [-> | [-> | ->]]]] [-> | [-> | [-> | [-> | ->]]]];
    vm_compute; intuition congruence.
Qed.

Lemma dict_set_fresh {V} (d : list (field * V)) (k : field) (v : V) :
  k ∉ d.*1 -> dict_set d k v = d ++ [(k, v)].
Proof.
  intros Hk. unfold dict_set.
  destruct (existsb _ d) eqn:E; [| reflexivity].
  exfalso. apply existsb_exists in E. destruct E as [[k' v'] [Hin E]].
  apply bool_decide_eq_true in E. simpl in E. subst k'.
  apply Hk. apply list_elem_of_fmap. exists (k, v').
  split; [reflexivity | apply list_elem_of_In; exact Hin].
Qed.

(** The loop of [diff] adds, in the order of the attributes, one entry for
    each attribute that differs. *)
Lemma diff_loop_listing (self other : ROMInfo) (attrs : list field)
    (acc : list (field * value)) :
  NoDup attrs -> (forall k, k ∈ attrs -> k ∉ acc.*1) ->
  fold_left
    (fun differences attr =>
       let self_val := getattr self attr in
       let other_val := getattr other attr in
       if differs attr self_val other_val
       then dict_set differences attr (VPair self_val other_val)
       else differences)
    attrs acc
  = acc ++ omap (diff_entry self other) attrs.
Proof.
  revert acc. induction attrs as [| attr attrs IH]; intros acc Hnd Hfresh.
  - simpl. rewrite app_nil_r. reflexivity.
  - apply NoDup_cons in Hnd. destruct Hnd as [Hattr Hnd].
    cbn [fold_left]. cbv zeta.
    change (omap (diff_entry self other) (attr :: attrs))
      with (match diff_entry self other attr with
            | Some e => e :: omap (diff_entry self other) attrs
            | None => omap (diff_entry self other) attrs
            end).
    unfold diff_entry at 1.
    destruct (differs attr (getattr self attr) (getattr other attr)).
    + rewrite dict_set_fresh by (apply Hfresh; left).
      rewrite IH; [rewrite <- app_assoc; reflexivity | exact Hnd |].
      intros k Hk. rewrite fmap_app. intros Hin.
      apply elem_of_app in Hin. destruct Hin as [Hin | Hin].
      * exact (Hfresh k (list_elem_of_further _ _ _ Hk) Hin).
      * apply list_elem_of_singleton in Hin. simpl in Hin. subst k.
        exact (Hattr Hk).
    + apply IH; [exact Hnd |].
      intros k Hk. apply Hfresh. right. exact Hk.
Qed.

Lemma FIELDS_NoDup : NoDup FIELDS.
Proof. apply (bool_decide_unpack (NoDup FIELDS)). vm_compute. exact I. Qed.

Lemma diff_listing (self other : ROMInfo) :
  diff self other = omap (diff_entry self other) FIELDS.
Proof.
  unfold diff. rewrite diff_loop_listing.
  - reflexivity.
  - exact FIELDS_NoDup.
  - intros k _ Hin. simpl in Hin. inversion Hin.
Qed.

Lemma diff_entry_sym (a b : ROMInfo) (attr : field) :
  diff_entry b a attr = swap_entry <$> diff_entry a b attr.
Proof.
  unfold diff_entry. rewrite (differs_sym attr (getattr b attr)).
  destruct (differs attr (getattr a attr) (getattr b attr)); reflexivity.
Qed.

(** C9.  [b.diff(a)] has the entries of [a.diff(b)], in the same order,
    each with its pair of values swapped; so both report the same field
    names.  The two exceptions are symmetric by themselves. *)
Theorem diff_symmetric (a b : ROMInfo) :
  diff b a = swap_entry <$> diff a b
  /\ (diff b a).*1 = (diff a b).*1
  /\ (forall x y, _is_ignored_mirroring_diff x y
                  = _is_ignored_mirroring_diff y x)
  /\ (forall attr x y, differs attr x y = differs attr y x).
Proof.
  assert (H : diff b a = swap_entry <$> diff a b).
  { rewrite !diff_listing.
    induction FIELDS as [| attr attrs IH]; [reflexivity |].
    change (omap (diff_entry b a) (attr :: attrs))
      with (match diff_entry b a attr with
            | Some e => e :: omap (diff_entry b a) attrs
            | None => omap (diff_entry b a) attrs
            end).
    change (omap (diff_entry a b) (attr :: attrs))
      with (match diff_entry a b attr with
            | Some e => e :: omap (diff_entry a b) attrs
            | None => omap (diff_entry a b) attrs
            end).
    rewrite diff_entry_sym, IH.
    destruct (diff_entry a b attr); reflexivity. }
  split; [exact H |]. split.
  - rewrite H. rewrite <- list_fmap_compose.
    apply list_fmap_ext. intros _ [k v] _. reflexivity.
  - split; [exact ignored_mirroring_diff_sym | exact differs_sym].
Qed.

(** ** Mirroring in the database *)

(** C5, as stated, fails.  On a board of the four-screen list whose pad
    element sets neither the h nor the v bit, no pad preference is declared,
    yet the result is not four-screen: the entry is refused, because the
    pad element is checked before the board type is looked at. *)
Lemma four_screen_board_unset_pad_refused :
  is_four_screen_board tvrom_board_unset_pad = true
  /\ (exists pad, findall tvrom_board_unset_pad "pad" = [pad]
        /\ pad_bit pad "h" = Returned 0 /\ pad_bit pad "v" = Returned 0)
  /\ db_mirroring "9A2DB086" tvrom_board_unset_pad
     = Raised (Exception (NeitherPadSet "9A2DB086"))
  /\ db_mirroring "9A2DB086" tvrom_board_unset_pad
     <> Returned MIRROR_FOUR_SCREEN.
Proof.
  split; [vm_compute; reflexivity |]. split.
  - eexists. split; [vm_compute; reflexivity |].
    split; vm_compute; reflexivity.
  - split; [vm_compute; reflexivity | vm_compute; discriminate].
Qed.

(** C5, as amended.  More than one pad element is an error.  A pad element
    must have exactly one of its h and v values non-zero, on every board:
    both non-zero, or both zero, is an error, and so is a value that is not
    an integer.  With no pad element the result is four-screen on a board
    of the four-screen list and mapper-controlled on any other.  With a
    pad element that passes the check, on a board outside the list, the
    result is the opposite axis: h set gives vertical, v set gives
    horizontal.  (What a board of the list with such a pad element gives is
    left open.) *)
Theorem db_mirroring_rule (crc32 : string) (board : Element) :
  match findall board "pad" with
  | [] =>
      db_mirroring crc32 board
      = Returned (if is_four_screen_board board then MIRROR_FOUR_SCREEN
                  else MIRROR_CONTROLLED)
  | [pad] =>
      match pad_bit pad "h", pad_bit pad "v" with
      | Returned h, Returned v =>
          if truthy h && truthy v
          then db_mirroring crc32 board = Raised (Exception (BothPadsSet crc32))
          else if negb (truthy h || truthy v)
          then db_mirroring crc32 board
               = Raised (Exception (NeitherPadSet crc32))
          else if is_four_screen_board board
          then True
          else db_mirroring crc32 board
               = Returned (if truthy h then MIRROR_VERTICAL
                           else MIRROR_HORIZONTAL)
      | Raised e, _ => db_mirroring crc32 board = Raised e
      | Returned _, Raised e => db_mirroring crc32 board = Raised e
      end
  | _ :: _ :: _ =>
      db_mirroring crc32 board = Raised (Exception (TooManyChildren "pad"))
  end.
Proof.
  unfold db_mirroring, etree_find_one, is_four_screen_board.
  destruct (findall board "pad") as [| pad [| pad' pads]].
  - cbn. destruct (attrib board !! "type") as [ty |]; [| reflexivity].
    destruct (str_in ty FOUR_SCREEN_BOARDS); reflexivity.
  - cbn. destruct (pad_bit pad "h") as [h | e]; [| reflexivity].
    destruct (pad_bit pad "v") as [v | e]; [| reflexivity].
    cbn. destruct (truthy h) eqn:Eh, (truthy v) eqn:Ev; cbn;
      try reflexivity.
    + destruct (attrib board !! "type") as [ty |]; cbn;
        [destruct (str_in ty FOUR_SCREEN_BOARDS) |]; cbn;
        rewrite ?Eh, ?Ev; cbn; trivial.
    + destruct (attrib board !! "type") as [ty |]; cbn;
        [destruct (str_in ty FOUR_SCREEN_BOARDS) |]; cbn;
        rewrite ?Eh, ?Ev; cbn; trivial.
  - reflexivity.
Qed.

(** What the amended C5 leaves open: on a board of the four-screen list
    with a pad element that sets one bit, the entry is refused only when
    the pad element has child elements; a pad element without children,
    as the database writes them, is accepted and the result is
    four-screen. *)
Lemma four_screen_board_with_pad (crc32 : string) (board pad : Element)
    (h v : Z) :
  is_four_screen_board board = true ->
  findall board "pad" = [pad] ->
  pad_bit pad "h" = Returned h -> pad_bit pad "v" = Returned v ->
  truthy h && truthy v = false -> truthy h || truthy v = true ->
  db_mirroring crc32 board
  = if element_truthy pad then Raised (Exception (PadsOnFourScreen crc32))
    else Returned MIRROR_FOUR_SCREEN.
Proof.
  intros Hfour Hpad Hh Hv Hboth Hone.
  unfold db_mirroring, etree_find_one, is_four_screen_board in *.
  rewrite Hpad. cbn. rewrite Hh, Hv. cbn. rewrite Hboth, Hone. cbn.
  rewrite Hfour, Hone. rewrite andb_true_r. reflexivity.
Qed.

Lemma four_screen_board_h_pad_accepted :
  db_mirroring "9A2DB086" tvrom_board_h_pad = Returned MIRROR_FOUR_SCREEN.
Proof. vm_compute. reflexivity. Qed.

(** ** Merging database entries *)

Lemma diff_entry_self (r : ROMInfo) (attr : field) : diff_entry r r attr = None.
Proof.
  unfold diff_entry, differs. rewrite py_eq_refl_attr. reflexivity.
Qed.

Lemma diff_self (r : ROMInfo) : diff r r = [].
Proof.
  rewrite diff_listing.
  induction FIELDS as [| attr attrs IH]; [reflexivity |].
  change (omap (diff_entry r r) (attr :: attrs))
    with (match diff_entry r r attr with
          | Some e => e :: omap (diff_entry r r) attrs
          | None => omap (diff_entry r r) attrs
          end).
  rewrite diff_entry_self. exact IH.
Qed.

(** Every value of the differences dict is a pair. *)
Lemma diff_values_are_pairs (a b : ROMInfo) (k : field) (v : value) :
  dict_get (diff a b) k = Some v -> exists x y, v = VPair x y.
Proof.
  rewrite diff_listing. unfold dict_get.
  destruct (find _ _) as [[k' v'] |] eqn:E; [| discriminate].
  simpl. intros H. inversion H. subst v'.
  apply find_some in E. destruct E as [Hin _].
  apply list_elem_of_In, list_elem_of_omap in Hin.
  destruct Hin as [attr [_ Hattr]]. unfold diff_entry in Hattr.
  destruct (differs _ _ _); [| discriminate].
  inversion Hattr. eauto.
Qed.

(** Loading again an entry whose record is in the dict and does not differ
    from it: no warning is logged, and the TV timing of the record becomes
    "both". *)
Lemma load_db_entry_again (db : gmap string ROMInfo) (log : list warning)
    (elem : Element) (crc32 : string) (info existing : ROMInfo) :
  parse_db_entry elem = Returned (crc32, info) ->
  db !! crc32 = Some existing -> diff existing info = [] ->
  load_db_entry db log elem
  = Returned (<[crc32 := set_tv_system existing TV_BOTH]> db, log).
Proof.
  intros Hparse Hdb Hdiff. unfold load_db_entry.
  rewrite Hparse. cbn -[diff]. rewrite Hdb, Hdiff. reflexivity.
Qed.

(** The warning for duplicate identical entries is never logged: what
    [pop] returns is [None] or a pair, and neither equals a TV timing. *)
Lemma duplicate_warning_unreachable (db db' : gmap string ROMInfo)
    (log log' : list warning) (elem : Element) :
  load_db_entry db log elem = Returned (db', log') ->
  log' = log \/ exists crc32, log' = log ++ [MultipleDifferentEntries crc32].
Proof.
  unfold load_db_entry.
  destruct (parse_db_entry elem) as [[crc32 info] | e]; [| discriminate].
  cbn -[diff]. destruct (db !! crc32) as [existing |].
  - destruct (negb _).
    + intros H. inversion H. eauto.
    + destruct (dict_get (diff existing info) f_tv_system) as [v |] eqn:E.
      * destruct (diff_values_are_pairs _ _ _ _ E) as [x [y ->]].
        cbn -[diff]. intros H. inversion H. auto.
      * cbn -[diff]. intros H. inversion H. auto.
  - intros H. inversion H. auto.
Qed.

(** C3 at an entry loaded twice.  Loaded once, the record of the entry has
    NTSC timing.  Loaded twice, the dict holds one record, no warning is
    logged, and the TV timing of the record is "both": the record is not
    the one of a single load. *)
Lemma load_db_twice :
  parse_db_entry smb_cartridge = Returned ("3337EC46", smb_info)
  /\ load_db corpus_once = Returned ({[ "3337EC46" := smb_info ]}, [])
  /\ load_db corpus_twice
     = Returned ({[ "3337EC46" := set_tv_system smb_info TV_BOTH ]}, [])
  /\ set_tv_system smb_info TV_BOTH <> smb_info.
Proof.
  split; [vm_compute; reflexivity |].
  split; [vm_compute; reflexivity |].
  split; [vm_compute; reflexivity | discriminate].
Qed.

(** ** Checksums *)

Lemma lxor_range (a b : Z) :
  0 <= a < 2 ^ 32 -> 0 <= b < 2 ^ 32 -> 0 <= Z.lxor a b < 2 ^ 32.
Proof.
  intros Ha Hb.
  assert (H0 : 0 <= Z.lxor a b) by (apply Z.lxor_nonneg; lia).
  split; [exact H0 |].
  destruct (Z.eq_dec (Z.lxor a b) 0) as [E | E]; [rewrite E; lia |].
  apply Z.log2_lt_pow2; [lia |].
  pose proof (Z.log2_lxor a b ltac:(lia) ltac:(lia)) as Hl.
  assert (Z.log2 a < 32).
  { destruct (Z.eq_dec a 0) as [-> | ?]; [cbn; lia |].
    apply Z.log2_lt_pow2; lia. }
  assert (Z.log2 b < 32).
  { destruct (Z.eq_dec b 0) as [-> | ?]; [cbn; lia |].
    apply Z.log2_lt_pow2; lia. }
  lia.
Qed.

Lemma crc_bit_range (c : Z) : 0 <= c < 2 ^ 32 -> 0 <= crc_bit c < 2 ^ 32.
Proof.
  intros Hc. unfold crc_bit.
  assert (Hs : 0 <= Z.shiftr c 1 < 2 ^ 32).
  { rewrite Z.shiftr_div_pow2 by lia. change (2 ^ 1) with 2.
    pose proof (Z_div_mod_eq_full c 2).
    pose proof (Z.mod_pos_bound c 2 ltac:(lia)). lia. }
  destruct (Z.testbit c 0); [| exact Hs].
  apply lxor_range; [exact Hs | lia].
Qed.

Lemma crc_byte_range (c : Z) (b : byte) :
  0 <= c < 2 ^ 32 -> 0 <= crc_byte c b < 2 ^ 32.
Proof.
  intros Hc. unfold crc_byte.
  assert (H : 0 <= Z.lxor c (byte_val b) < 2 ^ 32).
  { apply lxor_range; [exact Hc |]. pose proof (byte_val_range b). lia. }
  generalize dependent (Z.lxor c (byte_val b)). intros x Hx.
  do 8 (cbn [Nat.iter nat_rect]; try apply crc_bit_range). exact Hx.
Qed.

Lemma crc_fold_range (data : list byte) (c : Z) :
  0 <= c < 2 ^ 32 -> 0 <= fold_left crc_byte data c < 2 ^ 32.
Proof.
  revert c. induction data as [| b data IH]; intros c Hc; [exact Hc |].
  cbn [fold_left]. apply IH, crc_byte_range, Hc.
Qed.

Lemma land_mask_range (v : Z) : 0 <= Z.land v 0xFFFFFFFF < 2 ^ 32.
Proof.
  change 0xFFFFFFFF with (Z.ones 32). rewrite Z.land_ones by lia.
  apply Z.mod_pos_bound. lia.
Qed.

Lemma land_mask_id (v : Z) : 0 <= v < 2 ^ 32 -> Z.land v 0xFFFFFFFF = v.
Proof.
  intros Hv. change 0xFFFFFFFF with (Z.ones 32). rewrite Z.land_ones by lia.
  apply Z.mod_small. exact Hv.
Qed.

Lemma binascii_crc32_range (data : list byte) (v : Z) :
  0 <= binascii_crc32 data v < 2 ^ 32.
Proof.
  unfold binascii_crc32.
  apply lxor_range; [| lia].
  apply crc_fold_range, lxor_range; [apply land_mask_range | lia].
Qed.

Lemma binascii_crc32_nil (v : Z) :
  0 <= v < 2 ^ 32 -> binascii_crc32 [] v = v.
Proof.
  intros Hv. unfold binascii_crc32. cbn [fold_left].
  rewrite land_mask_id by exact Hv.
  rewrite Z.lxor_assoc, Z.lxor_nilpotent, Z.lxor_0_r. reflexivity.
Qed.

(** A checksum continued is the checksum of the concatenation. *)
Lemma binascii_crc32_app (a b : list byte) (v : Z) :
  binascii_crc32 b (binascii_crc32 a v) = binascii_crc32 (a ++ b) v.
Proof.
  unfold binascii_crc32 at 1.
  rewrite land_mask_id by apply binascii_crc32_range.
  unfold binascii_crc32.
  rewrite Z.lxor_assoc, Z.lxor_nilpotent, Z.lxor_0_r.
  rewrite fold_left_app. reflexivity.
Qed.

Lemma take_nil_inv (n : nat) (f : list byte) :
  (0 < n)%nat -> take n f = [] -> f = [].
Proof.
  intros Hn. destruct n as [| n]; [lia |].
  destruct f; [reflexivity | discriminate].
Qed.

(** The reading loop computes the checksum of all that is left to read. *)
Lemma crc32_loop_spec (size : Z) (file_obj : list byte) (v : Z) :
  0 < size -> 0 <= v < 2 ^ 32 ->
  crc32_loop size file_obj v = binascii_crc32 file_obj v.
Proof.
  intros Hsize. funelim (crc32_loop size file_obj v); intros Hv.
  - match goal with E : take _ _ = [] |- _ =>
      apply take_nil_inv in E; [| lia]; rewrite E
    end.
    symmetry. apply binascii_crc32_nil. exact Hv.
  - match goal with
    | IH : _ -> _ -> crc32_loop _ _ _ = binascii_crc32 _ _,
      E : take _ _ = _ :: _ |- _ =>
        rewrite IH by (try assumption; apply binascii_crc32_range);
        rewrite binascii_crc32_app, <- E, take_drop
    end.
    reflexivity.
Qed.

(** ** What the checksum covers *)

Lemma startswith_take (bs prefix : list byte) (n : nat) :
  (length prefix <= n)%nat ->
  startswith (take n bs) prefix = startswith bs prefix.
Proof.
  revert bs n. induction prefix as [| p prefix IH]; intros bs n Hn.
  - destruct (take n bs), bs; reflexivity.
  - simpl in Hn. destruct n as [| n]; [lia |].
    destruct bs as [| b bs]; [reflexivity |].
    simpl. rewrite IH by lia. reflexivity.
Qed.

Lemma read_header (file_obj : list byte) :
  read MIN_HEADER_READ_SIZE file_obj = (take 16 file_obj, drop 16 file_obj).
Proof. reflexivity. Qed.

Lemma READ_SIZE_pos : 0 < READ_SIZE.
Proof. reflexivity. Qed.

(** C7, as stated, fails.  An entity that begins with the UNIF magic does
    not begin with the iNES magic, yet parsing does not return "absent": it
    raises SkipROM, and no checksum is computed. *)
Lemma unif_entity_not_absent :
  startswith unif_entity b_NES = false
  /\ parse_header (take 16 unif_entity) = Raised (SkipROM UnifUnsupported)
  /\ parse_header (take 16 unif_entity) <> Returned None
  /\ _make_file_info "game.unf" unif_entity None
     = (Raised (SkipROM UnifUnsupported),
        [SkippedROM "game.unf" UnifUnsupported]).
Proof.
  split; [reflexivity |]. split; [reflexivity |].
  split; [discriminate | reflexivity].
Qed.

(** C7, as amended.  For every entity of 16 bytes or more: if it begins
    neither with the iNES magic nor with the UNIF magic, parsing its first
    16 bytes returns "absent" and the checksum of the item is the CRC-32 of
    all the bytes of the entity; if parsing returns a header, the checksum
    is the CRC-32 of the bytes after the first 16. *)
Theorem checksum_coverage (name : string) (content : list byte)
    (handler_data : option string) :
  (16 <= length content)%nat ->
  (startswith content b_NES = false -> startswith content b_UNIF = false ->
   parse_header (take 16 content) = Returned None
   /\ _make_file_info name content handler_data
      = (Returned (mkFileInfo name (format_08X (binascii_crc32 content 0))
                     None handler_data), []))
  /\ (forall info, parse_header (take 16 content) = Returned (Some info) ->
      _make_file_info name content handler_data
      = (Returned (mkFileInfo name
                     (format_08X (binascii_crc32 (drop 16 content) 0))
                     (Some info) handler_data), [])).
Proof.
  intros Hlen. split.
  - intros HN HU.
    assert (Hparse : parse_header (take 16 content) = Returned None).
    { unfold parse_header. rewrite assert_passes.
      - rewrite !startswith_take by (simpl; lia). rewrite HU, HN. reflexivity.
      - rewrite length_take. lia. }
    split; [exact Hparse |].
    unfold _make_file_info. rewrite read_header, Hparse.
    rewrite crc32_loop_spec
      by (try apply READ_SIZE_pos; apply binascii_crc32_range).
    rewrite binascii_crc32_app, take_drop.
    rewrite land_mask_id by apply binascii_crc32_range. reflexivity.
  - intros info Hparse.
    unfold _make_file_info. rewrite read_header, Hparse.
    rewrite crc32_loop_spec by (try apply READ_SIZE_pos; lia).
    rewrite land_mask_id by apply binascii_crc32_range. reflexivity.
Qed.

Lemma checksum_coverage_witness :
  (parse_header (take 16 raw_entity) = Returned None
   /\ _make_file_info "raw.bin" raw_entity None
      = (Returned (mkFileInfo "raw.bin"
                     (format_08X (binascii_crc32 raw_entity 0)) None None),
         []))
  /\ (_make_file_info "rom.nes" headed_entity None
      = (Returned (mkFileInfo "rom.nes"
                     (format_08X (binascii_crc32 (drop 16 headed_entity) 0))
                     (Some (mkROMInfo 32768 0 8192 0 1 0
                              false false false false)) None), [])).
Proof.
  split.
  - apply (checksum_coverage "raw.bin" raw_entity None); [simpl; lia | |];
      reflexivity.
  - apply (checksum_coverage "rom.nes" headed_entity None); [simpl; lia |].
    reflexivity.
Defined.

(** ** Entities shorter than a header *)

Lemma parse_header_short (bs : list byte) :
  (length bs < 16)%nat ->
  parse_header bs = Raised (AssertionError (Z.of_nat (length bs))).
Proof.
  intros H. unfold parse_header. rewrite assert_fails by exact H. reflexivity.
Qed.

Lemma make_file_info_short (name : string) (content : list byte)
    (handler_data : option string) :
  (length content < 16)%nat ->
  _make_file_info name content handler_data
  = (Raised (AssertionError (Z.of_nat (length content))), []).
Proof.
  intros H. unfold _make_file_info. rewrite read_header.
  rewrite take_ge by lia. rewrite parse_header_short by exact H. reflexivity.
Qed.

Lemma getinfo_member (members : list (string * list byte)) (name : string) :
  name ∈ members.*1 -> exists content, getinfo members name = Returned content.
Proof.
  intros Hin. unfold getinfo.
  destruct (find _ (rev members)) as [m |] eqn:E; [eauto |].
  exfalso. apply list_elem_of_fmap in Hin. destruct Hin as [m [Hm Hin]].
  apply list_elem_of_In, in_rev in Hin.
  pose proof (find_none _ _ E m Hin) as Hnone. cbn in Hnone.
  apply bool_decide_eq_false in Hnone. auto.
Qed.

(** What [_make_file_info] can raise. *)
Lemma make_file_info_raises (name : string) (content : list byte)
    (handler_data : option string) (e : exn) (ws : list warning) :
  _make_file_info name content handler_data = (Raised e, ws) ->
  (exists reason, e = SkipROM reason)
  \/ (e = AssertionError (Z.of_nat (length content))
      /\ (length content < 16)%nat).
Proof.
  destruct (le_lt_dec 16 (length content)) as [Hlen | Hlen].
  - unfold _make_file_info. rewrite read_header.
    unfold parse_header. rewrite assert_passes by (rewrite length_take; lia).
    destruct (startswith _ b_UNIF); [intros H; inversion H; eauto |].
    destruct (negb (startswith _ b_NES)); [discriminate |].
    rewrite !getitem_byte_at by (rewrite length_take; lia).
    cbn [mbind outcome_bind].
    destruct (_ =? 8); [intros H; inversion H; eauto |].
    destruct (truthy _); [intros H; inversion H; eauto |].
    discriminate.
  - rewrite make_file_info_short by exact Hlen.
    intros H. inversion H. auto.
Qed.

Lemma zip_iter_loop_short (self : ZipIOHandler.t)
    (members : list (string * list byte)) (names : list string) (w : world) :
  (forall name, name ∈ names -> name ∈ members.*1) ->
  Exists (short_member members) names ->
  exists n, n < 16
    /\ (ZipIOHandler.iter_loop self (ZipIOHandler._updates self) members
          names w).1 = Raised (AssertionError n).
Proof.
  revert w. induction names as [| name names IH]; intros w Hall Hex.
  - inversion Hex.
  - cbn [ZipIOHandler.iter_loop].
    rewrite bool_decide_eq_false_2 by auto.
    destruct (getinfo_member members name) as [content Hget];
      [apply Hall; left |].
    unfold except_SkipROM, mbind, M_bind, lift, make_file_info.
    rewrite Hget.
    destruct (_make_file_info (path_join (ZipIOHandler._path self) name)
                content (Some name)) as [[fi | e] ws] eqn:E.
    + cbn. apply Exists_cons in Hex. destruct Hex as [Hshort | Hex].
      * destruct Hshort as [content' [Hget' Hlen]].
        rewrite Hget in Hget'. inversion Hget'. subst content'.
        rewrite make_file_info_short in E by exact Hlen. discriminate.
      * match goal with
        | |- context [ZipIOHandler.iter_loop _ _ _ _ ?w'] =>
            destruct (IH w') as [n [Hn Hr]];
              [intros; apply Hall; right; assumption | exact Hex |]
        end.
        exists n. split; [exact Hn |].
        destruct (ZipIOHandler.iter_loop _ _ _ _ _) as [[r | e'] w''];
          cbn in *; congruence.
    + destruct (make_file_info_raises _ _ _ _ _ E) as [[reason ->] | [-> Hlen]].
      * cbn. apply Exists_cons in Hex. destruct Hex as [Hshort | Hex].
        -- destruct Hshort as [content' [Hget' Hlen]].
           rewrite Hget in Hget'. inversion Hget'. subst content'.
           rewrite make_file_info_short in E by exact Hlen. discriminate.
        -- match goal with
           | |- context [ZipIOHandler.iter_loop _ _ _ _ ?w'] =>
               destruct (IH w') as [n [Hn Hr]];
                 [intros; apply Hall; right; assumption | exact Hex |]
           end.
           exists n. split; [exact Hn |].
           destruct (ZipIOHandler.iter_loop _ _ _ _ _) as [[r | e'] w''];
             cbn in *; congruence.
      * cbn. exists (Z.of_nat (length content)). split; [lia | reflexivity].
Qed.

(** C10.  For every entity shorter than 16 bytes, parsing what was read of
    it raises an assertion error, and so does [_make_file_info]: it returns
    no item and logs nothing.  The error is not a SkipROM, so the
    enumeration of a bare file passes it on, and the enumeration of a zip
    archive passes on the error of a member that short. *)
Theorem short_entity_asserts (name : string) (content : list byte)
    (handler_data : option string) :
  (length content < 16)%nat ->
  parse_header (take 16 content)
  = Raised (AssertionError (Z.of_nat (length content)))
  /\ _make_file_info name content handler_data
     = (Raised (AssertionError (Z.of_nat (length content))), [])
  /\ (forall (self : FileIOHandler.t) (w : world),
        fs w (Named (FileIOHandler._path self)) = Some (File content) ->
        FileIOHandler.iter self w
        = (Raised (AssertionError (Z.of_nat (length content))), w))
  /\ (forall (self : ZipIOHandler.t) (w : world)
             (members : list (string * list byte)),
        fs w (Named (ZipIOHandler._path self)) = Some (Zip members) ->
        name ∈ members.*1 ->
        getinfo members name = Returned content ->
        exists n, n < 16
          /\ (ZipIOHandler.iter self w).1 = Raised (AssertionError n)).
Proof.
  intros Hlen. split.
  { rewrite take_ge by lia. apply parse_header_short. exact Hlen. }
  split.
  { apply make_file_info_short. exact Hlen. }
  split.
  - intros self w Hfs.
    unfold FileIOHandler.iter, mbind, M_bind, read_file, except_SkipROM,
      make_file_info.
    rewrite Hfs. rewrite make_file_info_short by exact Hlen.
    cbn. rewrite app_nil_r. destruct w; reflexivity.
  - intros self w members Hfs Hin Hget.
    unfold ZipIOHandler.iter, mbind, M_bind, ZipFile_r. rewrite Hfs.
    apply zip_iter_loop_short; [auto |].
    apply Exists_exists. exists name.
    split; [exact Hin |].
    exists content. auto.
Qed.

Lemma short_entity_asserts_witness :
  parse_header (take 16 (repeat xea 9)) = Raised (AssertionError 9)
  /\ FileIOHandler.iter (FileIOHandler.mk "tiny.nes") short_world
     = (Raised (AssertionError 9), short_world)
  /\ exists n, n < 16
       /\ (ZipIOHandler.iter (ZipIOHandler.mk "roms.zip" 0) short_world).1
          = Raised (AssertionError n).
Proof.
  pose proof (short_entity_asserts "tiny.nes" (repeat xea 9) None
                ltac:(simpl; lia)) as [H1 [_ [H3 H4]]].
  split; [exact H1 |]. split.
  - apply (H3 (FileIOHandler.mk "tiny.nes") short_world). reflexivity.
  - apply (H4 (ZipIOHandler.mk "roms.zip" 0) short_world
             [("a.nes", headed_entity); ("tiny.nes", repeat xea 9);
              ("b.nes", raw_entity)]).
    + reflexivity.
    + apply (bool_decide_unpack _). vm_compute. exact I.
    + reflexivity.
Defined.

(** ** Inserting a header into a bare file *)

Lemma TempIn_neq (p : path) (n : nat) : TempIn p n <> p.
Proof.
  revert n. induction p as [s | q IH m | m | d IH name]; intros n H;
    try discriminate.
  inversion H. subst. exact (IH m H1).
Qed.

Lemma fs_set_eq (p : path) (n : option node) (f : path -> option node) :
  fs_set p n f p = n.
Proof. unfold fs_set. rewrite bool_decide_eq_true_2; reflexivity. Qed.

Lemma fs_set_ne (p q : path) (n : option node) (f : path -> option node) :
  q <> p -> fs_set p n f q = f q.
Proof. intros H. unfold fs_set. rewrite bool_decide_eq_false_2; auto. Qed.

(** Run a computation one step further: decide the next look-up in the
    file system and reduce around it. *)
Ltac fs_step :=
  first
    [ rewrite fs_set_eq
    | rewrite fs_set_ne by (assumption || congruence || discriminate)
    | match goal with
      | H : fs ?w ?p = _ |- context [fs ?w ?p] => rewrite H
      end ];
  cbn -[fs_set].

(** Inserting puts the header bytes before the bytes of the file, and
    leaves no temporary file behind. *)
Lemma insert_header_prepends (w : world) (p : path)
    (header payload : list byte) :
  fs w p = Some (File payload) ->
  exists w', insert_header p header w = (Returned (), w')
    /\ fs w' p = Some (File (header ++ payload))
    /\ fs w' (TempIn p (next_temp w)) = None
    /\ (forall q, q <> p -> q <> TempIn p (next_temp w) -> fs w' q = fs w q).
Proof.
  intros Hp.
  pose proof (TempIn_neq p (next_temp w)) as Hne.
  assert (Hne' : p <> TempIn p (next_temp w)) by congruence.
  unfold insert_header, try_finally, mbind, M_bind, NamedTemporaryFile,
    append_file, mbind, M_bind, read_file, write_file, rename, exists_,
    unlink, mret, M_ret.
  cbn -[fs_set]. repeat fs_step.
  eexists. split; [reflexivity |]. cbn -[fs_set].
  split; [repeat fs_step; reflexivity |].
  split; [repeat fs_step; reflexivity |].
  intros q Hq1 Hq2. repeat fs_step. reflexivity.
Qed.

(** C1 at a bare file of 100 bytes.  The header written for [nrom_info] has
    10 bytes, not 16: the magic and the six computed bytes, with nothing at
    offsets 10 to 15.  Inserting it gives a file of 110 bytes, the 10
    written ones and then the payload; read again, six bytes of the payload
    are taken for the rest of the header and left out of the checksum. *)
Lemma written_header_is_ten_bytes :
  make_ines_header nrom_info = Returned nrom_written
  /\ length nrom_written = 10%nat
  /\ (let w' := (FileIOHandler.update (FileIOHandler.mk "rom.nes")
                   [bare_insert] bare_world).2 in
      fs w' (Named "rom.nes") = Some (File (nrom_written ++ bare_payload))
      /\ length (nrom_written ++ bare_payload) = 110%nat
      /\ (FileIOHandler.iter (FileIOHandler.mk "rom.nes") bare_world).1
         = Returned [mkFileInfo "rom.nes" "B6FBC955" None None]
      /\ (FileIOHandler.iter (FileIOHandler.mk "rom.nes") w').1
         = Returned [mkFileInfo "rom.nes" "1CD87426" (Some nrom_info) None]).
Proof.
  split; [reflexivity |]. split; [reflexivity |].
  cbv zeta. split; [vm_compute; reflexivity |].
  split; [reflexivity |]. split; vm_compute; reflexivity.
Qed.

(** ** Updates of a zip archive *)

Lemma same_named_refl (w : world) : same_named w w.
Proof. intros s. reflexivity. Qed.

Lemma same_named_trans (w1 w2 w3 : world) :
  same_named w1 w2 -> same_named w2 w3 -> same_named w1 w3.
Proof. intros H12 H23 s. rewrite H23. apply H12. Qed.

Lemma made_up_neq (p : path) (s : string) : made_up p -> Named s <> p.
Proof. intros H E. subst p. exact H. Qed.

Lemma keeps_on_error {A} (m : M A) : keeps_named m -> keeps_named_on_error m.
Proof. intros H w e w' E. exact (H w _ w' E). Qed.

Lemma keeps_ret {A} (a : A) : keeps_named (mret a : M A).
Proof. intros w r w' E. inversion E. apply same_named_refl. Qed.

Lemma keeps_raise {A} (e : exn) : keeps_named (raise e : M A).
Proof. intros w r w' E. inversion E. apply same_named_refl. Qed.

Lemma keeps_lift {A} (o : outcome A) : keeps_named (lift o).
Proof. intros w r w' E. inversion E. apply same_named_refl. Qed.

Lemma keeps_bind {A B} (m : M A) (f : A -> M B) :
  keeps_named m -> (forall a, keeps_named (f a)) -> keeps_named (m ≫= f).
Proof.
  intros Hm Hf w r w' E. unfold mbind, M_bind in E.
  destruct (m w) as [[a | e] w1] eqn:E1.
  - eapply same_named_trans; [exact (Hm _ _ _ E1) | exact (Hf _ _ _ _ E)].
  - inversion E. subst. exact (Hm _ _ _ E1).
Qed.

Lemma keeps_bind_on_error {A B} (m : M A) (f : A -> M B) :
  keeps_named m -> (forall a, keeps_named_on_error (f a)) ->
  keeps_named_on_error (m ≫= f).
Proof.
  intros Hm Hf w e w' E. unfold mbind, M_bind in E.
  destruct (m w) as [[a | e1] w1] eqn:E1.
  - eapply same_named_trans; [exact (Hm _ _ _ E1) | exact (Hf _ _ _ _ E)].
  - inversion E. subst. exact (Hm _ _ _ E1).
Qed.

(** The same, when what the first step returns is known to be a path the
    program made up. *)
Lemma keeps_bind_path {B} (m : M path) (f : path -> M B) :
  keeps_named m ->
  (forall w p w', m w = (Returned p, w') -> made_up p) ->
  (forall p, made_up p -> keeps_named (f p)) -> keeps_named (m ≫= f).
Proof.
  intros Hm Hp Hf w r w' E. unfold mbind, M_bind in E.
  destruct (m w) as [[a | e] w1] eqn:E1.
  - eapply same_named_trans; [exact (Hm _ _ _ E1) |].
    exact (Hf a (Hp _ _ _ E1) _ _ _ E).
  - inversion E. subst. exact (Hm _ _ _ E1).
Qed.

Lemma keeps_try_finally {A} (body : M A) (cleanup : M unit) :
  keeps_named body -> keeps_named cleanup ->
  keeps_named (try_finally body cleanup).
Proof.
  intros Hb Hc w r w' E. unfold try_finally in E.
  destruct (body w) as [r1 w1] eqn:E1.
  destruct (cleanup w1) as [[[] | e] w2] eqn:E2; inversion E; subst;
    (eapply same_named_trans; [exact (Hb _ _ _ E1) | exact (Hc _ _ _ E2)]).
Qed.

Lemma keeps_if {A} (b : bool) (m1 m2 : M A) :
  keeps_named m1 -> keeps_named m2 -> keeps_named (if b then m1 else m2).
Proof. destruct b; auto. Qed.

Lemma keeps_read_file (p : path) : keeps_named (read_file p).
Proof.
  intros w r w' E. unfold read_file in E.
  destruct (fs w p) as [[] |]; inversion E; apply same_named_refl.
Qed.

Lemma keeps_exists (p : path) : keeps_named (exists_ p).
Proof. intros w r w' E. inversion E. apply same_named_refl. Qed.

Lemma keeps_ZipFile_r (p : path) : keeps_named (ZipFile_r p).
Proof.
  intros w r w' E. unfold ZipFile_r in E.
  destruct (fs w p) as [[] |]; inversion E; apply same_named_refl.
Qed.

Lemma keeps_write_file (p : path) (content : list byte) :
  made_up p -> keeps_named (write_file p content).
Proof.
  intros Hp w r w' E. inversion E. intros s. cbn.
  apply fs_set_ne, made_up_neq, Hp.
Qed.

Lemma keeps_NamedTemporaryFile (p : path) : keeps_named (NamedTemporaryFile p).
Proof.
  intros w r w' E. inversion E. intros s. cbn.
  apply fs_set_ne. discriminate.
Qed.

Lemma keeps_mkdtemp : keeps_named mkdtemp.
Proof.
  intros w r w' E. inversion E. intros s. cbn.
  apply fs_set_ne. discriminate.
Qed.

Lemma keeps_rename (src dst : path) :
  made_up src -> made_up dst -> keeps_named (rename src dst).
Proof.
  intros Hs Hd w r w' E. unfold rename in E.
  destruct (fs w src); inversion E; [| apply same_named_refl].
  intros s. cbn. rewrite !fs_set_ne by (apply made_up_neq; assumption).
  reflexivity.
Qed.

Lemma keeps_unlink (p : path) : made_up p -> keeps_named (unlink p).
Proof.
  intros Hp w r w' E. unfold unlink in E.
  destruct (fs w p); inversion E; [| apply same_named_refl].
  intros s. cbn. apply fs_set_ne, made_up_neq, Hp.
Qed.

Lemma keeps_rmtree (d : path) : made_up d -> keeps_named (rmtree d).
Proof.
  intros Hd w r w' E. inversion E. intros s. cbn.
  rewrite bool_decide_eq_false_2 by (apply made_up_neq; exact Hd).
  reflexivity.
Qed.

Lemma keeps_ZipFile_w (p : path) : made_up p -> keeps_named (ZipFile_w p).
Proof.
  intros Hp w r w' E. inversion E. intros s. cbn.
  apply fs_set_ne, made_up_neq, Hp.
Qed.

Lemma keeps_zip_append (p : path) (name : string) (content : list byte) :
  made_up p -> keeps_named (zip_append p name content).
Proof.
  intros Hp w r w' E. unfold zip_append in E.
  destruct (fs w p) as [[] |]; inversion E; try apply same_named_refl.
  intros s. cbn. apply fs_set_ne, made_up_neq, Hp.
Qed.

Create HintDb keeps.
#[local] Hint Resolve keeps_ret keeps_raise keeps_lift keeps_read_file
  keeps_exists keeps_ZipFile_r keeps_write_file keeps_NamedTemporaryFile
  keeps_mkdtemp keeps_rename keeps_unlink keeps_rmtree keeps_ZipFile_w
  keeps_zip_append keeps_if : keeps.
#[local] Hint Extern 1 (made_up _) => first [assumption | exact I] : keeps.

(** Break a computation into its steps. *)
Ltac keeps_steps :=
  repeat first
    [ apply keeps_bind; [| intros ?]
    | apply keeps_try_finally
    | apply keeps_if
    | solve [auto with keeps] ].

Lemma NamedTemporaryFile_made_up (p t : path) (w w' : world) :
  NamedTemporaryFile p w = (Returned t, w') -> made_up t.
Proof. intros E. inversion E. exact I. Qed.

Lemma mkdtemp_made_up (d : path) (w w' : world) :
  mkdtemp w = (Returned d, w') -> made_up d.
Proof. intros E. inversion E. exact I. Qed.

Lemma extract_made_up (members : list (string * list byte)) (name : string)
    (temp_dir p : path) (w w' : world) :
  extract members name temp_dir w = (Returned p, w') -> made_up p.
Proof.
  unfold extract, mbind, M_bind, lift, write_file, mret, M_ret.
  destruct (getinfo members name); intros E; inversion E. exact I.
Qed.

Lemma keeps_insert_header (p : path) (header : list byte) :
  made_up p -> keeps_named (insert_header p header).
Proof.
  intros Hp. unfold insert_header, append_file.
  apply keeps_bind_path;
    [apply keeps_NamedTemporaryFile
    | intros w t w'; apply NamedTemporaryFile_made_up |].
  intros t Ht. keeps_steps.
Qed.

Lemma keeps_replace_header (p : path) (header : list byte) :
  made_up p -> keeps_named (replace_header p header).
Proof. intros Hp. unfold replace_header. keeps_steps. Qed.

Lemma keeps_update_file (p : path) (requests : list UpdateRequest.t) :
  made_up p -> keeps_named (_update_file p requests).
Proof.
  intros Hp. induction requests as [| request requests IH].
  - apply keeps_ret.
  - cbn [_update_file]. apply keeps_bind; [apply keeps_lift | intros header].
    apply keeps_bind; [| intros _; exact IH].
    repeat apply keeps_if.
    + apply keeps_replace_header, Hp.
    + apply keeps_insert_header, Hp.
    + apply keeps_raise.
Qed.

Lemma keeps_rebuild (members : list (string * list byte))
    (temp_file temp_dir : path) (names : list string)
    (requests_by_file : list (option string * list UpdateRequest.t)) :
  made_up temp_file ->
  keeps_named (ZipIOHandler.rebuild members temp_file temp_dir names
                 requests_by_file).
Proof.
  intros Ht. revert requests_by_file.
  induction names as [| name names IH]; intros requests_by_file.
  - apply keeps_ret.
  - cbn [ZipIOHandler.rebuild].
    apply keeps_bind_path.
    + unfold extract. keeps_steps.
    + intros w p w'. apply extract_made_up.
    + intros member_path Hm.
      apply keeps_bind; [apply keeps_update_file, Hm |]. intros _.
      apply keeps_bind; [unfold zip_write; keeps_steps |]. intros _.
      apply keeps_bind; [keeps_steps |]. intros _.
      apply IH.
Qed.

(** The [finally] block of [ZipIOHandler.update] never raises, removes both
    temporaries and touches no path the user names. *)
Lemma zip_cleanup_spec (t d : path) (w : world) :
  made_up t -> made_up d -> t <> d -> inside d t = false ->
  exists w',
    ZipIOHandler.update_finally t d w = (Returned (), w')
    /\ fs w' t = None /\ fs w' d = None /\ same_named w w'.
Proof.
  intros Ht Hd Hne Hin.
  unfold ZipIOHandler.update_finally, mbind, M_bind, exists_, unlink, rmtree,
    mret, M_ret.
  destruct (fs w t) as [nt |] eqn:Et; cbn -[fs_set]; rewrite ?Et;
    cbn -[fs_set];
    [rewrite (fs_set_ne t d) by congruence |];
    (destruct (fs w d) as [nd |] eqn:Ed; cbn -[fs_set];
     eexists; (split; [reflexivity |]); cbn -[fs_set]).
  - rewrite Hin, (bool_decide_eq_false_2 (t = d)) by exact Hne.
    rewrite (bool_decide_eq_true_2 (d = d)) by reflexivity.
    cbn -[fs_set]. rewrite fs_set_eq. repeat split.
    intros s. cbn -[fs_set].
    rewrite bool_decide_eq_false_2 by (apply made_up_neq; exact Hd).
    cbn -[fs_set]. apply fs_set_ne, made_up_neq, Ht.
  - rewrite fs_set_eq, fs_set_ne, Ed by congruence. repeat split.
    intros s. apply fs_set_ne, made_up_neq, Ht.
  - rewrite Hin, (bool_decide_eq_false_2 (t = d)) by exact Hne.
    rewrite (bool_decide_eq_true_2 (d = d)) by reflexivity.
    cbn. repeat split; [exact Et |].
    intros s. cbn.
    rewrite bool_decide_eq_false_2 by (apply made_up_neq; exact Hd).
    reflexivity.
  - repeat split; assumption || apply same_named_refl.
Qed.

(** The last step of the rebuild, the only one that writes to a path the
    user names: when it raises, it has written nothing. *)
Lemma commit_keeps_on_error {A} (t : path) (s : string) (a : A) :
  keeps_named_on_error (rename t (Named s);; (mret a : M A)).
Proof.
  intros w e w' E. unfold mbind, M_bind, rename, mret, M_ret in E.
  destruct (fs w t); inversion E. apply same_named_refl.
Qed.

(** C6.  Whenever [update] on a zip archive raises, every path the user
    names (the archive among them) holds what it held before the call, so
    the member list of the archive and the bytes of every member are
    unchanged; the temporary archive and the scratch directory are gone,
    and the final rename has not happened. *)
Theorem zip_update_atomic (self : ZipIOHandler.t)
    (requests : list UpdateRequest.t) (w w' : world) (e : exn) :
  ZipIOHandler.update self requests w = (Raised e, w') ->
  fs w' (Named (ZipIOHandler._path self))
  = fs w (Named (ZipIOHandler._path self))
  /\ same_named w w'
  /\ fs w' (TempIn (Named (ZipIOHandler._path self)) (next_temp w)) = None
  /\ fs w' (TempDir (S (next_temp w))) = None.
Proof.
  intros E.
  set (t := TempIn (Named (ZipIOHandler._path self)) (next_temp w)) in *.
  set (d := TempDir (S (next_temp w))) in *.
  cut (same_named w w' /\ fs w' t = None /\ fs w' d = None).
  { intros [H1 H2]. split; [apply H1 | split; [exact H1 | exact H2]]. }
  set (w2 := mkWorld (fs_set d (Some Dir) (fs_set t (Some (File [])) (fs w)))
                     (S (S (next_temp w))) (log w)).
  change (try_finally
            (ZipIOHandler.update_try self t d
               (ZipIOHandler.group_requests requests))
            (ZipIOHandler.update_finally t d) w2 = (Raised e, w')) in E.
  assert (K2 : same_named w w2).
  { intros s. subst w2. cbn -[fs_set].
    rewrite !fs_set_ne by discriminate. reflexivity. }
  assert (K3 : keeps_named_on_error
                 (ZipIOHandler.update_try self t d
                    (ZipIOHandler.group_requests requests))).
  { unfold ZipIOHandler.update_try.
    apply keeps_bind_on_error; [apply keeps_ZipFile_r |]. intros members.
    apply keeps_bind_on_error; [apply keeps_ZipFile_w; exact I |]. intros _.
    apply keeps_bind_on_error; [apply keeps_rebuild; exact I |]. intros left.
    destruct (negb _).
    - apply keeps_on_error, keeps_raise.
    - apply commit_keeps_on_error. }
  unfold try_finally in E.
  destruct (ZipIOHandler.update_try self t d
              (ZipIOHandler.group_requests requests) w2) as [r w3] eqn:E3.
  destruct (zip_cleanup_spec t d w3 I I ltac:(discriminate)
              ltac:(reflexivity)) as [w4 [E4 [Ht [Hd K4]]]].
  rewrite E4 in E. inversion E. subst r w4.
  split; [| split; assumption].
  eapply same_named_trans; [exact K2 |].
  eapply same_named_trans; [exact (K3 _ _ _ E3) | exact K4].
Qed.

(** *** Dicts as association lists *)

Lemma dict_get_app_fresh {K V} `{EqDecision K} (d : list (K * V)) (k : K)
    (v : V) :
  existsb (fun kv => bool_decide (kv.1 = k)) d = false ->
  dict_get (d ++ [(k, v)]) k = Some v.
Proof.
  unfold dict_get. induction d as [| [k' v'] d IH]; cbn; intros H.
  - rewrite bool_decide_eq_true_2 by reflexivity. reflexivity.
  - apply orb_false_elim in H. destruct H as [H1 H2].
    rewrite H1. apply IH, H2.
Qed.

Lemma dict_get_set_eq {K V} `{EqDecision K} (d : list (K * V)) (k : K)
    (v : V) :
  dict_get (dict_set d k v) k = Some v.
Proof.
  unfold dict_set.
  destruct (existsb _ d) eqn:E; [| apply dict_get_app_fresh, E].
  unfold dict_get. induction d as [| [k' v'] d IH]; [discriminate |].
  cbn in *. destruct (bool_decide (k' = k)) eqn:Ek; cbn.
  - rewrite bool_decide_eq_true_2 by reflexivity. reflexivity.
  - rewrite Ek. apply IH, E.
Qed.

Lemma dict_get_set_ne {K V} `{EqDecision K} (d : list (K * V)) (k k' : K)
    (v : V) :
  k' <> k -> dict_get (dict_set d k v) k' = dict_get d k'.
Proof.
  intros Hne. unfold dict_set, dict_get.
  destruct (existsb _ d) eqn:E.
  - clear E. induction d as [| [k0 v0] d IH]; [reflexivity |].
    cbn. destruct (bool_decide (k0 = k)) eqn:Ek; cbn.
    + apply bool_decide_eq_true in Ek. subst k0.
      rewrite !(bool_decide_eq_false_2 (k = k')) by congruence. exact IH.
    + destruct (bool_decide (k0 = k')); [reflexivity | exact IH].
  - clear E. induction d as [| [k0 v0] d IH]; cbn.
    + rewrite bool_decide_eq_false_2 by congruence. reflexivity.
    + destruct (bool_decide (k0 = k')); [reflexivity | exact IH].
Qed.

Lemma dict_get_del_ne {K V} `{EqDecision K} (d : list (K * V)) (k k' : K) :
  k' <> k -> dict_get (dict_del d k) k' = dict_get d k'.
Proof.
  intros Hne. unfold dict_del, dict_get.
  induction d as [| [k0 v0] d IH]; [reflexivity |].
  destruct (decide (k0 = k)) as [-> | Hk].
  - rewrite filter_cons_False by (intros H'; apply H'; reflexivity).
    cbn [find fst]. rewrite (bool_decide_eq_false_2 (k = k')) by congruence.
    exact IH.
  - rewrite filter_cons_True by exact Hk. cbn [find fst].
    destruct (bool_decide (k0 = k')); [reflexivity | exact IH].
Qed.

Lemma dict_get_nil_inv {K V} `{EqDecision K} (d : list (K * V)) (k : K)
    (v : V) :
  dict_get d k = Some v -> d <> [].
Proof. intros H ->. discriminate. Qed.

(** Every request is filed under its [handler_data]. *)
Lemma group_requests_get (requests : list UpdateRequest.t)
    (request : UpdateRequest.t) :
  request ∈ requests ->
  exists filed,
    dict_get (ZipIOHandler.group_requests requests)
             (handler_data (UpdateRequest.file_info request)) = Some filed
    /\ request ∈ filed.
Proof.
  unfold ZipIOHandler.group_requests.
  generalize (@nil (option string * list UpdateRequest.t)) as d.
  induction requests as [| r requests IH]; intros d Hin; [inversion Hin |].
  cbn [fold_left].
  assert (Hkeep : forall d' filed,
             dict_get d' (handler_data (UpdateRequest.file_info request))
             = Some filed ->
             request ∈ filed ->
             exists filed',
               dict_get
                 (fold_left
                    (fun d request =>
                       let k := handler_data (UpdateRequest.file_info request) in
                       dict_set d k (default [] (dict_get d k) ++ [request]))
                    requests d')
                 (handler_data (UpdateRequest.file_info request))
               = Some filed' /\ request ∈ filed').
  { clear. induction requests as [| r requests IH]; intros d' filed Hget Hin.
    - exists filed. auto.
    - cbn [fold_left]. cbv zeta.
      destruct (decide (handler_data (UpdateRequest.file_info request)
                        = handler_data (UpdateRequest.file_info r)))
        as [E | E].
      + eapply IH.
        * rewrite E. apply dict_get_set_eq.
        * rewrite <- E, Hget. cbn. apply elem_of_app. left. exact Hin.
      + eapply IH; [| exact Hin].
        rewrite dict_get_set_ne by exact E. exact Hget. }
  apply elem_of_cons in Hin. destruct Hin as [-> | Hin].
  - eapply Hkeep; [apply dict_get_set_eq |].
    apply elem_of_app. right. apply list_elem_of_singleton. reflexivity.
  - apply IH. exact Hin.
Qed.

(** *** The two failures of an update *)

Lemma always_raises_bind_l {A B} (m : M A) (f : A -> M B) :
  always_raises m -> always_raises (m ≫= f).
Proof.
  intros Hm w. destruct (Hm w) as [e [w' E]].
  exists e, w'. unfold mbind, M_bind. rewrite E. reflexivity.
Qed.

Lemma always_raises_bind_post {A B} (m : M A) (f : A -> M B) (P : A -> Prop) :
  (forall w a w', m w = (Returned a, w') -> P a) ->
  (forall a, P a -> always_raises (f a)) -> always_raises (m ≫= f).
Proof.
  intros Hm Hf w. unfold mbind, M_bind.
  destruct (m w) as [[a | e] w1] eqn:E; [| eauto].
  exact (Hf a (Hm _ _ _ E) w1).
Qed.

Lemma always_raises_bind_r {A B} (m : M A) (f : A -> M B) :
  (forall a, always_raises (f a)) -> always_raises (m ≫= f).
Proof.
  intros Hf. apply (always_raises_bind_post m f (fun _ => True)); auto.
Qed.

Lemma update_file_unwritable (p : path) (requests : list UpdateRequest.t) :
  Exists unwritable requests -> always_raises (_update_file p requests).
Proof.
  induction requests as [| request requests IH]; intros Hex.
  - inversion Hex.
  - cbn [_update_file]. apply Exists_cons in Hex. destruct Hex as [Hbad | Hex].
    + apply always_raises_bind_l. intros w.
      destruct Hbad as [e He]. exists e, w. unfold lift. rewrite He.
      reflexivity.
    + apply always_raises_bind_r. intros header.
      apply always_raises_bind_r. intros _. exact (IH Hex).
Qed.

Lemma rebuild_unwritable (members : list (string * list byte))
    (temp_file temp_dir : path) (names : list string)
    (requests_by_file : list (option string * list UpdateRequest.t))
    (name : string) (filed : list UpdateRequest.t) :
  name ∈ names ->
  dict_get requests_by_file (Some name) = Some filed ->
  Exists unwritable filed ->
  always_raises (ZipIOHandler.rebuild members temp_file temp_dir names
                   requests_by_file).
Proof.
  intros Hin Hget Hbad. revert requests_by_file Hget.
  induction names as [| name0 names IH]; intros requests_by_file Hget;
    [inversion Hin |].
  cbn [ZipIOHandler.rebuild]. apply always_raises_bind_r. intros member_path.
  destruct (decide (name0 = name)) as [-> | Hne].
  - apply always_raises_bind_l. rewrite Hget. cbn.
    apply update_file_unwritable, Hbad.
  - do 3 (apply always_raises_bind_r; intros _).
    apply IH.
    + apply elem_of_cons in Hin. destruct Hin as [-> | Hin]; [congruence |].
      exact Hin.
    + rewrite dict_get_del_ne by congruence. exact Hget.
Qed.

Lemma rebuild_leftover (members : list (string * list byte))
    (temp_file temp_dir : path) (names : list string)
    (requests_by_file left : list (option string * list UpdateRequest.t))
    (k : option string) (w w' : world) :
  (forall name, name ∈ names -> k <> Some name) ->
  ZipIOHandler.rebuild members temp_file temp_dir names requests_by_file w
  = (Returned left, w') ->
  dict_get left k = dict_get requests_by_file k.
Proof.
  revert requests_by_file w.
  induction names as [| name names IH]; intros requests_by_file w Hk E.
  - inversion E. reflexivity.
  - cbn [ZipIOHandler.rebuild] in E. unfold mbind, M_bind in E.
    destruct (extract _ _ _ w) as [[mp | ?] w1]; [| discriminate].
    destruct (_update_file _ _ w1) as [[[] | ?] w2]; [| discriminate].
    destruct (zip_write _ _ _ w2) as [[[] | ?] w3]; [| discriminate].
    destruct (unlink _ w3) as [[[] | ?] w4]; [| discriminate].
    rewrite (IH _ _ (fun n Hn => Hk n (list_elem_of_further _ _ _ Hn)) E).
    apply dict_get_del_ne. apply Hk. left.
Qed.

(** A request whose record cannot be written, for a member of the
    archive, makes [update] raise. *)
Lemma zip_update_unwritable (self : ZipIOHandler.t)
    (requests : list UpdateRequest.t) (request : UpdateRequest.t)
    (name : string) (members : list (string * list byte)) (w : world) :
  fs w (Named (ZipIOHandler._path self)) = Some (Zip members) ->
  name ∈ members.*1 ->
  request ∈ requests ->
  handler_data (UpdateRequest.file_info request) = Some name ->
  unwritable request ->
  exists e w', ZipIOHandler.update self requests w = (Raised e, w').
Proof.
  intros Hfs Hname Hin Hdata Hbad.
  destruct (group_requests_get requests request Hin) as [filed [Hget Hf]].
  rewrite Hdata in Hget.
  set (t := TempIn (Named (ZipIOHandler._path self)) (next_temp w)).
  set (d := TempDir (S (next_temp w))).
  set (w2 := mkWorld (fs_set d (Some Dir) (fs_set t (Some (File [])) (fs w)))
                     (S (S (next_temp w))) (log w)).
  change (exists e w',
            try_finally
              (ZipIOHandler.update_try self t d
                 (ZipIOHandler.group_requests requests))
              (ZipIOHandler.update_finally t d) w2 = (Raised e, w')).
  assert (E3 : exists e w3,
             ZipIOHandler.update_try self t d
               (ZipIOHandler.group_requests requests) w2 = (Raised e, w3)).
  { unfold ZipIOHandler.update_try, mbind at 1, M_bind at 1, ZipFile_r.
    subst w2. cbn -[fs_set mbind]. rewrite !fs_set_ne by discriminate.
    rewrite Hfs.
    apply always_raises_bind_r. intros _.
    apply always_raises_bind_l.
    eapply rebuild_unwritable; [exact Hname | exact Hget |].
    apply Exists_exists. exists request. split; [exact Hf | exact Hbad]. }
  destruct E3 as [e [w3 E3]].
  destruct (zip_cleanup_spec t d w3 I I ltac:(discriminate)
              ltac:(reflexivity)) as [w4 [E4 _]].
  exists e, w4. unfold try_finally. rewrite E3, E4. reflexivity.
Qed.

(** A request for a name that is not a member of the archive makes
    [update] raise. *)
Lemma zip_update_unknown_member (self : ZipIOHandler.t)
    (requests : list UpdateRequest.t) (request : UpdateRequest.t)
    (members : list (string * list byte)) (w : world) :
  fs w (Named (ZipIOHandler._path self)) = Some (Zip members) ->
  request ∈ requests ->
  (forall name, name ∈ members.*1 ->
     handler_data (UpdateRequest.file_info request) <> Some name) ->
  exists e w', ZipIOHandler.update self requests w = (Raised e, w').
Proof.
  intros Hfs Hin Hunknown.
  destruct (group_requests_get requests request Hin) as [filed [Hget Hf]].
  set (t := TempIn (Named (ZipIOHandler._path self)) (next_temp w)).
  set (d := TempDir (S (next_temp w))).
  set (w2 := mkWorld (fs_set d (Some Dir) (fs_set t (Some (File [])) (fs w)))
                     (S (S (next_temp w))) (log w)).
  change (exists e w',
            try_finally
              (ZipIOHandler.update_try self t d
                 (ZipIOHandler.group_requests requests))
              (ZipIOHandler.update_finally t d) w2 = (Raised e, w')).
  assert (E3 : exists e w3,
             ZipIOHandler.update_try self t d
               (ZipIOHandler.group_requests requests) w2 = (Raised e, w3)).
  { unfold ZipIOHandler.update_try, mbind at 1, M_bind at 1, ZipFile_r.
    subst w2. cbn -[fs_set mbind]. rewrite !fs_set_ne by discriminate.
    rewrite Hfs.
    apply always_raises_bind_r. intros _.
    apply (always_raises_bind_post _ _
             (fun left => left <> [])).
    - intros w0 left w0' E.
      apply (dict_get_nil_inv left
               (handler_data (UpdateRequest.file_info request)) filed).
      rewrite (rebuild_leftover _ _ _ _ _ _ _ _ _ Hunknown E). exact Hget.
    - intros left Hleft. rewrite bool_decide_eq_false_2 by exact Hleft.
      intros w0. cbn. eauto. }
  destruct E3 as [e [w3 E3]].
  destruct (zip_cleanup_spec t d w3 I I ltac:(discriminate)
              ltac:(reflexivity)) as [w4 [E4 _]].
  exists e, w4. unfold try_finally. rewrite E3, E4. reflexivity.
Qed.

Lemma zip_update_atomic_witness :
  (ZipIOHandler.update (ZipIOHandler.mk "roms.zip" 0)
     [request_for "b.nes" UpdateRequest.REQ_HEADER_REPLACE odd_info]
     two_roms).1
  = Raised (Exception (CantRepresentPrgRom 1000))
  /\ fs (ZipIOHandler.update (ZipIOHandler.mk "roms.zip" 0)
           [request_for "b.nes" UpdateRequest.REQ_HEADER_REPLACE odd_info]
           two_roms).2 (Named "roms.zip")
     = Some (Zip [("a.nes", raw_entity); ("b.nes", headed_entity)]).
Proof.
  assert (E : (ZipIOHandler.update (ZipIOHandler.mk "roms.zip" 0)
                 [request_for "b.nes" UpdateRequest.REQ_HEADER_REPLACE odd_info]
                 two_roms).1
              = Raised (Exception (CantRepresentPrgRom 1000)))
    by (vm_compute; reflexivity).
  split; [exact E |].
  destruct (ZipIOHandler.update (ZipIOHandler.mk "roms.zip" 0)
              [request_for "b.nes" UpdateRequest.REQ_HEADER_REPLACE odd_info]
              two_roms) as [r w'] eqn:Eu.
  cbn [fst snd] in *. subst r.
  exact (proj1 (zip_update_atomic (ZipIOHandler.mk "roms.zip" 0) _ _ _ _ Eu)).
Defined.

(* ===================================================================== *)
(** * Further properties *)
(* ===================================================================== *)

(** ** More on the header codec *)



Lemma land_1_range (a : Z) : 0 <= Z.land a 1 < 2.
Proof.
  change 1 with (Z.ones 1). rewrite Z.land_ones by lia.
  apply Z.mod_pos_bound. lia.
Qed.









Lemma startswith_NES_inv (bs : list byte) :
  startswith bs b_NES = true ->
  exists rest, bs = b_NES ++ rest.
Proof.
  destruct bs as [| c0 [| c1 [| c2 [| c3 rest]]]]; cbn;
    rewrite ?andb_false_r; try discriminate.
  intros H. repeat (apply andb_prop in H; destruct H as [?%byte_dec_bl H]).
  subst. exists rest. reflexivity.
Qed.

(** What a successful parse tells about the input. *)
Lemma parse_header_returned (bs : list byte) (r : ROMInfo) :
  parse_header bs = Returned (Some r) ->
  exists b4 b5 b6 b7 b8 b9 rest,
    bs = b_NES ++ [b4; b5; b6; b7; b8; b9] ++ rest
    /\ (6 <= length rest)%nat
    /\ (Z.land (byte_val b7) 12 =? 8) = false
    /\ truthy (Z.land (byte_val b6) 4) = false
    /\ r = mkROMInfo
         (byte_val b4 * 16384) (byte_val b8 * 8192) (byte_val b5 * 8192)
         (Z.land (byte_val b7) 240 + Z.shiftr (Z.land (byte_val b6) 240) 4)
         (Z.land (byte_val b6) 9) (Z.land (byte_val b9) 1)
         (truthy (Z.land (byte_val b6) 2)) false
         (truthy (Z.land (byte_val b7) 2)) (truthy (Z.land (byte_val b7) 1)).
Proof.
  intros H.
  destruct (le_lt_dec 16 (length bs)) as [Hlen | Hlen].
  2:{ rewrite parse_header_short in H by exact Hlen. discriminate. }
  assert (HN : startswith bs b_NES = true).
  { unfold parse_header in H. rewrite assert_passes in H by exact Hlen.
    destruct (startswith bs b_UNIF); [discriminate |].
    destruct (startswith bs b_NES); [reflexivity | discriminate]. }
  destruct (startswith_NES_inv bs HN) as [tl ->].
  rewrite length_app in Hlen. cbn [length b_NES] in Hlen.
  destruct tl as [| b4 [| b5 [| b6 [| b7 [| b8 [| b9 rest]]]]]];
    try (cbn in Hlen; lia).
  exists b4, b5, b6, b7, b8, b9, rest.
  assert (Hrest : (6 <= length rest)%nat) by (cbn in Hlen; lia).
  change (b_NES ++ b4 :: b5 :: b6 :: b7 :: b8 :: b9 :: rest)
    with (b_NES ++ [b4; b5; b6; b7; b8; b9] ++ rest) in H.
  rewrite parse_header_fields in H by exact Hrest.
  destruct (Z.land (byte_val b7) 12 =? 8); [discriminate |].
  destruct (truthy (Z.land (byte_val b6) 4)) eqn:Et; [discriminate |].
  inversion H. repeat split; try reflexivity. exact Hrest.
Qed.

Lemma byte_mapper_range (b6 b7 : byte) :
  0 <= Z.land (byte_val b7) 240 + Z.shiftr (Z.land (byte_val b6) 240) 4 <= 255.
Proof.
  assert (H7 : 0 <= Z.land (byte_val b7) 240 <= 240)
    by (destruct b7; vm_compute; split; discriminate).
  assert (H6 : 0 <= Z.shiftr (Z.land (byte_val b6) 240) 4 <= 15)
    by (destruct b6; vm_compute; split; discriminate).
  lia.
Qed.

Lemma byte_mirroring (b6 : byte) :
  Z.land (byte_val b6) 9 = MIRROR_HORIZONTAL
  \/ Z.land (byte_val b6) 9 = MIRROR_VERTICAL
  \/ Z.land (byte_val b6) 9 = MIRROR_FOUR_SCREEN
  \/ Z.land (byte_val b6) 9 = MIRROR_FOUR_SCREEN_ODD.
Proof.
  destruct b6; vm_compute; auto.
Qed.

(** The record built from six header bytes. *)
Lemma fields_shape (b4 b5 b6 b7 b8 b9 : byte) :
  parsed_shape (mkROMInfo
    (byte_val b4 * 16384) (byte_val b8 * 8192) (byte_val b5 * 8192)
    (Z.land (byte_val b7) 240 + Z.shiftr (Z.land (byte_val b6) 240) 4)
    (Z.land (byte_val b6) 9) (Z.land (byte_val b9) 1)
    (truthy (Z.land (byte_val b6) 2)) false
    (truthy (Z.land (byte_val b7) 2)) (truthy (Z.land (byte_val b7) 1))).
Proof.
  pose proof (byte_val_range b4). pose proof (byte_val_range b5).
  pose proof (byte_val_range b8).
  pose proof (byte_mapper_range b6 b7).
  pose proof (land_1_range (byte_val b9)).
  unfold parsed_shape, representable. cbn.
  rewrite !Z.mod_mul by lia.
  repeat split; try lia.
  - apply byte_mirroring.
  - unfold TV_NTSC, TV_PAL. lia.
Qed.

(** Every record a header is parsed into lies within the representable
    ranges: sizes are whole units of at most 255, the mapper is at most
    255, the mirroring is one of the four wire values (never
    mapper-controlled), the TV timing is NTSC or PAL (never "both"), and
    there is no trainer. *)
Theorem parse_header_shape (bs : list byte) (r : ROMInfo) :
  parse_header bs = Returned (Some r) -> parsed_shape r.
Proof.
  intros H.
  destruct (parse_header_returned bs r H)
    as (b4 & b5 & b6 & b7 & b8 & b9 & rest & _ & _ & _ & _ & ->).
  apply fields_shape.
Qed.

Lemma parse_header_shape_witness :
  parse_header example_header
  = Returned (Some (mkROMInfo 32768 0 8192 0 MIRROR_VERTICAL TV_NTSC
                      false false false false))
  /\ parsed_shape (mkROMInfo 32768 0 8192 0 MIRROR_VERTICAL TV_NTSC
                     false false false false).
Proof.
  split; [reflexivity |].
  apply (parse_header_shape example_header). reflexivity.
Defined.


(** Writing a record and reading it back, for any TV timing value. *)
Lemma write_then_parse (r : ROMInfo) :
  representable r -> valid_mirroring (mirroring r) -> has_trainer r = false ->
  exists header,
    make_ines_header r = Returned header
    /\ forall rest, (16 <= length (header ++ rest))%nat ->
         parse_header (header ++ rest)
         = Returned (Some (mkROMInfo
             (prg_rom_size r) (round_up_8192 (prg_ram_size r))
             (chr_rom_size r) (mapper r)
             (if mirroring r =? MIRROR_CONTROLLED then MIRROR_HORIZONTAL
              else mirroring r)
             (Z.land (tv_system r) 1)
             (has_nvram r) false (is_playchoice_10 r) (is_vs_unisystem r))).
Proof.
  intros Hrep Hmir Htr.
  destruct (make_ines_header_ok r Hrep Hmir)
    as (b4 & b5 & b6 & b7 & b8 & b9 & Hw & V4 & V5 & V6 & V7 & V8 & V9).
  exists (b_NES ++ [b4; b5; b6; b7; b8; b9]). split; [exact Hw |].
  intros rest Hlen. rewrite <- app_assoc.
  rewrite parse_header_fields.
  2:{ rewrite !length_app in Hlen. simpl in Hlen. lia. }
  destruct Hrep as [[Hp1 Hp2] [[Hc1 Hc2] [Hm Hr]]].
  destruct (flags_facts (mapper r) (mirroring r) (has_trainer r) (has_nvram r)
              (is_playchoice_10 r) (is_vs_unisystem r) Hm Hmir)
    as (Hgen & Htrain & Hmap & Hmi & Hnv & Hpc & Hvs).
  rewrite V6, V7, Hgen, Htrain, Hmap, Hmi, Hnv, Hpc, Hvs, V4, V5, V8, V9, Htr.
  do 2 f_equal. f_equal.
  - pose proof (Z_div_mod_eq_full (prg_rom_size r) 16384). lia.
  - apply ceil_div_8192.
  - pose proof (Z_div_mod_eq_full (chr_rom_size r) 8192). lia.
  - rewrite <- Z.land_assoc. reflexivity.
Qed.

Lemma round_up_8192_multiple (n : Z) : n mod 8192 = 0 -> round_up_8192 n = n.
Proof.
  intros H. unfold round_up_8192.
  pose proof (Z_div_mod_eq_full n 8192).
  pose proof (Z_div_mod_eq_full (n + 8191) 8192).
  pose proof (Z.mod_pos_bound (n + 8191) 8192 ltac:(lia)). lia.
Qed.

(** A parsed record survives a rewrite: it can always be written, and what
    is written parses back to the same record. *)
Theorem parse_write_parse (bs : list byte) (r : ROMInfo) :
  parse_header bs = Returned (Some r) ->
  exists header,
    make_ines_header r = Returned header
    /\ forall rest, (16 <= length (header ++ rest))%nat ->
         parse_header (header ++ rest) = Returned (Some r).
Proof.
  intros H.
  assert (Hshape : parsed_shape r).
  { destruct (parse_header_returned bs r H)
      as (b4 & b5 & b6 & b7 & b8 & b9 & tl & _ & _ & _ & _ & ->).
    apply fields_shape. }
  destruct Hshape as (Hrep & Hram & Hmir & Htv & Htr).
  assert (Hvm : valid_mirroring (mirroring r))
    by (unfold valid_mirroring; tauto).
  destruct (write_then_parse r Hrep Hvm Htr) as [header [Hw Hp]].
  exists header. split; [exact Hw |].
  intros rest Hlen. rewrite (Hp rest Hlen). do 2 f_equal.
  destruct r as [prg ram chr m mir tv nv tr pc vs]. cbn in *.
  subst tr. f_equal.
  - apply round_up_8192_multiple, Hram.
  - destruct Hmir as [-> | [-> | [-> | ->]]]; reflexivity.
  - destruct Htv as [-> | ->]; reflexivity.
Qed.

Lemma parse_write_parse_witness :
  exists header,
    make_ines_header (mkROMInfo 32768 0 8192 0 MIRROR_VERTICAL TV_NTSC
                        false false false false) = Returned header
    /\ forall rest, (16 <= length (header ++ rest))%nat ->
         parse_header (header ++ rest)
         = Returned (Some (mkROMInfo 32768 0 8192 0 MIRROR_VERTICAL TV_NTSC
                             false false false false)).
Proof.
  apply (parse_write_parse example_header). reflexivity.
Defined.

(** The three losses of the writer come from the writer alone: a record
    and its round-trip image (PRG RAM rounded up, "both" as NTSC,
    mapper-controlled as horizontal) are written as the same bytes. *)
Theorem image_written_alike (r : ROMInfo) :
  0 <= prg_ram_size r <= 255 * 8192 ->
  make_ines_header (round_trip_image r) = make_ines_header r.
Proof.
  intros Hram. unfold make_ines_header, round_trip_image. cbn.
  assert (Hmir : Z.land (if mirroring r =? MIRROR_CONTROLLED
                         then MIRROR_HORIZONTAL else mirroring r) 15
                 = Z.land (mirroring r) 15).
  { destruct (Z.eqb_spec (mirroring r) MIRROR_CONTROLLED) as [-> | _];
      reflexivity. }
  assert (Htv : Z.land (if tv_system r =? TV_BOTH then TV_NTSC
                        else tv_system r) 1 = Z.land (tv_system r) 1).
  { destruct (Z.eqb_spec (tv_system r) TV_BOTH) as [-> | _]; reflexivity. }
  assert (Hup : ceil_div (round_up_8192 (prg_ram_size r)) 8192
                = ceil_div (prg_ram_size r) 8192).
  { rewrite <- ceil_div_8192. unfold ceil_div.
    rewrite Z.opp_involutive || idtac.
    pose proof (Z_div_mod_eq_full (- prg_ram_size r) 8192).
    pose proof (Z.mod_pos_bound (- prg_ram_size r) 8192 ltac:(lia)).
    set (q := - prg_ram_size r / 8192) in *.
    replace (- (- q * 8192)) with (q * 8192) by lia.
    rewrite Z.div_mul by lia. reflexivity. }
  assert (Hle : (round_up_8192 (prg_ram_size r) >? 255 * 8192) = false).
  { destruct (round_up_8192_least (prg_ram_size r)) as [_ [_ Hleast]].
    specialize (Hleast (255 * 8192) ltac:(reflexivity) ltac:(lia)). lia. }
  assert (Hge : (round_up_8192 (prg_ram_size r) <? 0) = false).
  { destruct (round_up_8192_least (prg_ram_size r)) as [Hup' _]. lia. }
  rewrite Hmir, Htv, Hup, Hle, Hge.
  replace (prg_ram_size r >? 255 * 8192) with false by lia.
  replace (prg_ram_size r <? 0) with false by lia.
  reflexivity.
Qed.

Lemma image_written_alike_witness :
  make_ines_header (round_trip_image crisis_rom) = make_ines_header crisis_rom.
Proof.
  apply (image_written_alike crisis_rom). cbn. lia.
Defined.


(** ** More on differences *)


(** Comparing a record with what is read back after writing it: nothing
    is reported when the PRG RAM size is a multiple of 8192 (the losses of
    mirroring and TV timing fall under the two exceptions), and otherwise
    the PRG RAM size is reported, and only it. *)
Theorem diff_with_image (r : ROMInfo) :
  diff r (round_trip_image r)
  = if prg_ram_size r mod 8192 =? 0 then []
    else [(f_prg_ram_size,
           VPair (VInt (prg_ram_size r))
                 (VInt (round_up_8192 (prg_ram_size r))))].
Proof.
  rewrite diff_listing. unfold FIELDS, round_trip_image.
  assert (Hsame : forall z, negb (z =? z) = false)
    by (intros z; rewrite Z.eqb_refl; reflexivity).
  assert (Hsameb : forall b, negb (Bool.eqb b b) = false)
    by (intros []; reflexivity).
  cbn [omap list_omap]. unfold diff_entry, differs. cbn [getattr py_eq as_int
    prg_rom_size prg_ram_size chr_rom_size mapper mirroring tv_system
    has_nvram has_trainer is_playchoice_10 is_vs_unisystem].
  rewrite !Hsame, !Hsameb. cbn [andb].
  assert (Hmir : negb (mirroring r =? (if mirroring r =? MIRROR_CONTROLLED
                                       then MIRROR_HORIZONTAL else mirroring r))
                 && negb (bool_decide (f_mirroring = f_mirroring)
                          && _is_ignored_mirroring_diff (mirroring r)
                               (if mirroring r =? MIRROR_CONTROLLED
                                then MIRROR_HORIZONTAL else mirroring r)
                          || bool_decide (f_mirroring = f_tv_system)
                             && ((TV_BOTH =? mirroring r)
                                 || (TV_BOTH =? (if mirroring r =? MIRROR_CONTROLLED
                                      then MIRROR_HORIZONTAL else mirroring r))))
                 = false).
  { destruct (Z.eqb_spec (mirroring r) MIRROR_CONTROLLED) as [-> | _];
      [reflexivity | rewrite Z.eqb_refl; reflexivity]. }
  assert (Htv : negb (tv_system r =? (if tv_system r =? TV_BOTH then TV_NTSC
                                      else tv_system r))
                && negb (bool_decide (f_tv_system = f_mirroring)
                         && _is_ignored_mirroring_diff (tv_system r)
                              (if tv_system r =? TV_BOTH then TV_NTSC
                               else tv_system r)
                         || bool_decide (f_tv_system = f_tv_system)
                            && ((TV_BOTH =? tv_system r)
                                || (TV_BOTH =? (if tv_system r =? TV_BOTH
                                     then TV_NTSC else tv_system r))))
                = false).
  { destruct (Z.eqb_spec (tv_system r) TV_BOTH) as [-> | _];
      [reflexivity | rewrite Z.eqb_refl; reflexivity]. }
  rewrite Hmir, Htv. cbn.
  pose proof (round_up_8192_least (prg_ram_size r)) as [Hle [Hmod _]].
  destruct (Z.eqb_spec (prg_ram_size r mod 8192) 0) as [E | E].
  - rewrite (round_up_8192_multiple _ E), Z.eqb_refl. reflexivity.
  - destruct (Z.eqb_spec (prg_ram_size r) (round_up_8192 (prg_ram_size r)))
      as [E' | E']; [| reflexivity].
    exfalso. apply E. rewrite E'. exact Hmod.
Qed.


(** ** The driver *)

(** A request is returned exactly when the run is not a dry run, the
    checksum of the item is in the database, and the item has no header
    (then the request inserts) or a header that differs from the database
    record (then it replaces); the request carries the item and the record
    of the database. *)
Theorem update_rom_header_request (db : gmap string ROMInfo) (dry_run : bool)
    (file_info : FileInfo) (request : UpdateRequest.t) :
  (update_rom_header db dry_run file_info).2 = Some request <->
  dry_run = false
  /\ exists db_rom_info,
       db !! crc32 file_info = Some db_rom_info
       /\ match rom_info file_info with
          | None =>
              request = UpdateRequest.mk file_info
                          UpdateRequest.REQ_HEADER_INSERT db_rom_info
          | Some header =>
              diff db_rom_info header <> []
              /\ request = UpdateRequest.mk file_info
                             UpdateRequest.REQ_HEADER_REPLACE db_rom_info
          end.
Proof.
  unfold update_rom_header. cbv zeta.
  destruct (rom_info file_info) as [header |],
           (db !! crc32 file_info) as [d |]; cbn.
  - case_bool_decide as Hd; cbn.
    + split; [discriminate |]. intros [_ [d' [E [Hne _]]]].
      inversion E. subst d'. contradiction.
    + destruct dry_run; split.
      * discriminate.
      * intros [H _]. discriminate.
      * intros H. inversion H. eauto.
      * intros [_ [d' [E [_ ->]]]]. inversion E. reflexivity.
  - split; [discriminate |]. intros [_ [d' [E _]]]. discriminate.
  - destruct dry_run; split.
    + discriminate.
    + intros [H _]. discriminate.
    + intros H. inversion H. eauto.
    + intros [_ [d' [E ->]]]. inversion E. reflexivity.
  - split; [discriminate |]. intros [_ [d' [E _]]]. discriminate.
Qed.

Lemma update_rom_header_dry_run (db : gmap string ROMInfo)
    (file_info : FileInfo) :
  (update_rom_header db true file_info).2 = None.
Proof.
  unfold update_rom_header. cbv zeta.
  destruct (rom_info file_info), (db !! crc32 file_info); cbn;
    try reflexivity.
  case_bool_decide; reflexivity.
Qed.

(** ** Enumeration *)

(** The file system and the counter of temporaries are those of [w]. *)
Lemma same_files_refl (w : world) : same_files w w.
Proof. split; reflexivity. Qed.

Lemma same_files_trans (w1 w2 w3 : world) :
  same_files w1 w2 -> same_files w2 w3 -> same_files w1 w3.
Proof. intros [H1 H2] [H3 H4]. split; congruence. Qed.

Lemma reads_bind {A B} (m : M A) (f : A -> M B) :
  reads_only m -> (forall a, reads_only (f a)) -> reads_only (m ≫= f).
Proof.
  intros Hm Hf w. unfold mbind, M_bind.
  pose proof (Hm w) as H1. destruct (m w) as [[a | e] w1]; [| exact H1].
  eapply same_files_trans; [exact H1 | apply Hf].
Qed.

Lemma reads_ret {A} (a : A) : reads_only (mret a : M A).
Proof. intros w. apply same_files_refl. Qed.

Lemma reads_raise {A} (e : exn) : reads_only (raise e : M A).
Proof. intros w. apply same_files_refl. Qed.

Lemma reads_lift {A} (o : outcome A) : reads_only (lift o).
Proof. intros w. apply same_files_refl. Qed.

Lemma reads_read_file (p : path) : reads_only (read_file p).
Proof.
  intros w. unfold read_file. destruct (fs w p) as [[] |];
    apply same_files_refl.
Qed.

Lemma reads_ZipFile_r (p : path) : reads_only (ZipFile_r p).
Proof.
  intros w. unfold ZipFile_r. destruct (fs w p) as [[] |];
    apply same_files_refl.
Qed.

Lemma reads_logging_warning (ws : list warning) :
  reads_only (logging_warning ws).
Proof. intros w. split; reflexivity. Qed.

Lemma reads_make_file_info (name : string) (file_obj : list byte)
    (handler_data : option string) :
  reads_only (make_file_info name file_obj handler_data).
Proof.
  intros w. unfold make_file_info.
  destruct (_make_file_info name file_obj handler_data). split; reflexivity.
Qed.

Lemma reads_except_SkipROM {A} (body handler : M A) :
  reads_only body -> reads_only handler ->
  reads_only (except_SkipROM body handler).
Proof.
  intros Hb Hh w. unfold except_SkipROM.
  pose proof (Hb w) as H1.
  destruct (body w) as [[a | e] w1]; [exact H1 |].
  destruct e; try exact H1.
  eapply same_files_trans; [exact H1 | apply Hh].
Qed.

Lemma reads_file_iter (self : FileIOHandler.t) :
  reads_only (FileIOHandler.iter self).
Proof.
  unfold FileIOHandler.iter.
  apply reads_bind; [apply reads_read_file | intros the_file].
  apply reads_except_SkipROM; [| apply reads_ret].
  apply reads_bind; [apply reads_make_file_info | intros fi; apply reads_ret].
Qed.

Lemma reads_zip_iter_loop (self : ZipIOHandler.t) (expected : Z)
    (members : list (string * list byte)) (names : list string) :
  reads_only (ZipIOHandler.iter_loop self expected members names).
Proof.
  induction names as [| name names IH]; [apply reads_ret |].
  cbn [ZipIOHandler.iter_loop].
  destruct (bool_decide _); [apply reads_raise |].
  apply reads_bind.
  - apply reads_except_SkipROM; [| apply reads_ret].
    apply reads_bind; [apply reads_lift | intros member].
    apply reads_bind; [apply reads_make_file_info | intros fi; apply reads_ret].
  - intros yielded. apply reads_bind; [exact IH | intros rest; apply reads_ret].
Qed.

Lemma reads_zip_iter (self : ZipIOHandler.t) :
  reads_only (ZipIOHandler.iter self).
Proof.
  unfold ZipIOHandler.iter.
  apply reads_bind; [apply reads_ZipFile_r | intros members].
  apply reads_zip_iter_loop.
Qed.

(** Enumerating a bare file or a zip archive, however it ends, writes to
    no file and makes no temporary. *)
Theorem enumeration_reads_only (file_handler : FileIOHandler.t)
    (zip_handler : ZipIOHandler.t) (w : world) :
  same_files w (FileIOHandler.iter file_handler w).2
  /\ same_files w (ZipIOHandler.iter zip_handler w).2.
Proof.
  split; [apply reads_file_iter | apply reads_zip_iter].
Qed.

Lemma visit_items_no_request
    (visitor : FileInfo -> list report * option UpdateRequest.t)
    (items : list FileInfo) :
  (forall file_info, (visitor file_info).2 = None) ->
  (visit_items visitor items).2 = [].
Proof.
  intros Hv. induction items as [| fi items IH]; [reflexivity |].
  cbn [visit_items]. specialize (Hv fi).
  destruct (visitor fi) as [lines request]. cbn in Hv. subst request.
  destruct (visit_items visitor items) as [lines' requests].
  cbn in *. exact IH.
Qed.

Lemma reads_visit_rom
    (visitor : FileInfo -> list report * option UpdateRequest.t)
    (rom_path : string) :
  (forall file_info, (visitor file_info).2 = None) ->
  reads_only (visit_rom visitor rom_path).
Proof.
  intros Hv. unfold visit_rom.
  destruct (io_handler_cls_for false rom_path).
  - apply reads_bind; [apply reads_file_iter | intros items].
    pose proof (visit_items_no_request visitor items Hv) as Hr.
    destruct (visit_items visitor items) as [lines requests].
    cbn in Hr. subst requests. cbn.
    apply reads_bind; [apply reads_ret | intros; apply reads_ret].
  - apply reads_bind; [apply reads_zip_iter | intros items].
    pose proof (visit_items_no_request visitor items Hv) as Hr.
    destruct (visit_items visitor items) as [lines requests].
    cbn in Hr. subst requests. cbn.
    apply reads_bind; [apply reads_ret | intros; apply reads_ret].
  - apply reads_bind; [apply reads_file_iter | intros items].
    pose proof (visit_items_no_request visitor items Hv) as Hr.
    destruct (visit_items visitor items) as [lines requests].
    cbn in Hr. subst requests. cbn.
    apply reads_bind; [apply reads_ret | intros; apply reads_ret].
Qed.

Lemma reads_visit_roms
    (visitor : FileInfo -> list report * option UpdateRequest.t)
    (rom_paths : list string) :
  (forall file_info, (visitor file_info).2 = None) ->
  reads_only (visit_roms rom_paths visitor).
Proof.
  intros Hv. induction rom_paths as [| p ps IH]; [apply reads_ret |].
  cbn [visit_roms].
  apply reads_bind; [apply reads_visit_rom, Hv | intros lines].
  apply reads_bind; [exact IH | intros; apply reads_ret].
Qed.

(** A dry run changes nothing: whatever the database, the paths and the
    files are, and however the run ends, [cmd_write] with the dry-run flag
    writes to no file and makes no temporary. *)
Theorem dry_run_reads_only (xml_iter : list xml_event) (roms : list string)
    (w : world) :
  let w' := (cmd_write xml_iter true roms w).2 in
  (forall p, fs w' p = fs w p) /\ next_temp w' = next_temp w.
Proof.
  cbv zeta.
  assert (H : reads_only (cmd_write xml_iter true roms)).
  { unfold cmd_write.
    apply reads_bind; [apply reads_lift | intros loaded].
    apply reads_bind; [apply reads_logging_warning | intros _].
    apply reads_visit_roms. intros fi. apply update_rom_header_dry_run. }
  destruct (H w) as [Hfs Hn]. split; [| exact Hn].
  intros p. rewrite Hfs. reflexivity.
Qed.


(** ** Items *)

Lemma add_log_nil (w : world) : mkWorld (fs w) (next_temp w) (log w ++ []) = w.
Proof. destruct w. cbn. rewrite app_nil_r. reflexivity. Qed.


(** [_make_file_info] in one equation. *)
Lemma make_file_info_is (name : string) (content : list byte)
    (handler_data : option string) :
  _make_file_info name content handler_data
  = file_info_for name content handler_data.
Proof.
  unfold _make_file_info, file_info_for. rewrite read_header.
  destruct (parse_header (take 16 content)) as [[info |] | e];
    [| | reflexivity].
  - rewrite crc32_loop_spec by (try apply READ_SIZE_pos; lia).
    rewrite land_mask_id by apply binascii_crc32_range. reflexivity.
  - rewrite crc32_loop_spec
      by (try apply READ_SIZE_pos; apply binascii_crc32_range).
    rewrite binascii_crc32_app, take_drop.
    rewrite land_mask_id by apply binascii_crc32_range. reflexivity.
Qed.

(** Enumerating a bare file: a missing file is an error; a file that
    parsing skips yields nothing and logs one warning; any other error of
    parsing is passed on; otherwise there is exactly one item, named as the
    path, with the parsed header if there is one and the checksum of the
    bytes the header does not cover. *)
Theorem file_iter_outcome (self : FileIOHandler.t) (w : world) :
  FileIOHandler.iter self w
  = match fs w (Named (FileIOHandler._path self)) with
    | Some (File content) =>
        match file_info_for (FileIOHandler._path self) content None with
        | (Raised (SkipROM _), ws) =>
            (Returned [], mkWorld (fs w) (next_temp w) (log w ++ ws))
        | (Raised e, ws) =>
            (Raised e, mkWorld (fs w) (next_temp w) (log w ++ ws))
        | (Returned file_info, ws) =>
            (Returned [file_info], mkWorld (fs w) (next_temp w) (log w ++ ws))
        end
    | _ => (Raised FileNotFoundError, w)
    end.
Proof.
  unfold FileIOHandler.iter, mbind, M_bind, read_file, except_SkipROM,
    make_file_info.
  destruct (fs w (Named (FileIOHandler._path self))) as [[content | |] |];
    try reflexivity.
  rewrite make_file_info_is.
  destruct (file_info_for _ content None) as [[fi | e] ws]; cbn;
    [reflexivity |].
  destruct e; reflexivity.
Qed.




(** ** The printed checksum *)

Lemma hex_digit_upper (d : Z) :
  is_upper_hex (hex_digit d) = true
  /\ ascii_upper (hex_digit d) = hex_digit d.
Proof.
  unfold hex_digit. generalize (Z.to_nat d) as n. intros n.
  do 16 (destruct n as [| n]; [split; reflexivity |]).
  destruct n; split; reflexivity.
Qed.

Lemma hex_digit_inj (a b : Z) :
  0 <= a < 16 -> 0 <= b < 16 -> hex_digit a = hex_digit b -> a = b.
Proof.
  intros Ha Hb.
  assert (H : forallb (fun a => forallb (fun b =>
                 implb (bool_decide (hex_digit a = hex_digit b)) (a =? b))
                 (seqZ 0 16)) (seqZ 0 16) = true) by (vm_compute; reflexivity).
  rewrite forallb_forall in H.
  specialize (H a ltac:(apply list_elem_of_In, elem_of_seqZ; lia)).
  rewrite forallb_forall in H.
  specialize (H b ltac:(apply list_elem_of_In, elem_of_seqZ; lia)).
  intros E. rewrite bool_decide_eq_true_2 in H by exact E.
  cbn in H. apply Z.eqb_eq in H. exact H.
Qed.

Lemma hex_digits_length (n : nat) (z : Z) (acc : string) :
  String.length (hex_digits n z acc) = (n + String.length acc)%nat.
Proof.
  revert z acc. induction n as [| n IH]; intros z acc; [reflexivity |].
  cbn [hex_digits]. rewrite IH. cbn. lia.
Qed.

Lemma hex_digits_upper (n : nat) (z : Z) (acc : string) :
  upper acc = acc ->
  forallb is_upper_hex (list_ascii_of_string acc) = true ->
  upper (hex_digits n z acc) = hex_digits n z acc
  /\ forallb is_upper_hex (list_ascii_of_string (hex_digits n z acc)) = true.
Proof.
  revert z acc. induction n as [| n IH]; intros z acc Hu Hh; [auto |].
  cbn [hex_digits]. destruct (hex_digit_upper (z mod 16)) as [H1 H2].
  apply IH.
  - unfold upper in *. cbn [str_map]. rewrite H2, Hu. reflexivity.
  - cbn [list_ascii_of_string forallb]. rewrite H1, Hh. reflexivity.
Qed.

Lemma hex_digits_inj (n : nat) (a b : Z) (acc acc' : string) :
  String.length acc = String.length acc' ->
  hex_digits n a acc = hex_digits n b acc' ->
  a mod 16 ^ Z.of_nat n = b mod 16 ^ Z.of_nat n /\ acc = acc'.
Proof.
  revert a b acc acc'. induction n as [| n IH]; intros a b acc acc' Hlen H.
  - cbn in *. rewrite !Z.mod_1_r. auto.
  - cbn [hex_digits] in H.
    apply IH in H; [| cbn; lia]. destruct H as [Hq Hs].
    injection Hs as Hd Hacc. split; [| exact Hacc].
    apply hex_digit_inj in Hd; try (apply Z.mod_pos_bound; lia).
    rewrite Nat2Z.inj_succ, Z.pow_succ_r by lia.
    rewrite !(Z.rem_mul_r _ 16 (16 ^ Z.of_nat n)) by lia.
    rewrite Hd, Hq. reflexivity.
Qed.

(** The checksum is printed as 8 characters, digits and the capitals A to
    F, so that upper-casing leaves it as it is (the keys of the database
    are upper-cased); and two checksums that print alike are the same
    32-bit number. *)
Theorem format_08X_faithful (a b : Z) :
  String.length (format_08X a) = 8%nat
  /\ forallb is_upper_hex (list_ascii_of_string (format_08X a)) = true
  /\ upper (format_08X a) = format_08X a
  /\ (format_08X a = format_08X b -> a mod 2 ^ 32 = b mod 2 ^ 32).
Proof.
  unfold format_08X. split; [apply hex_digits_length |].
  destruct (hex_digits_upper 8 a "" eq_refl eq_refl) as [Hu Hh].
  split; [exact Hh |]. split; [exact Hu |].
  intros H. apply hex_digits_inj in H; [| reflexivity].
  destruct H as [H _]. exact H.
Qed.


(** ** More on the database *)

Lemma digit_not_space (c : ascii) : is_digit c = true -> is_space c = false.
Proof. destruct c as [[] [] [] [] [] [] [] []]; vm_compute; congruence. Qed.

Lemma lstrip_digit (c : ascii) (cs : list ascii) :
  is_digit c = true -> lstrip (c :: cs) = c :: cs.
Proof. intros H. cbn. rewrite (digit_not_space c H). reflexivity. Qed.

Lemma strip_digits (cs : list ascii) :
  forallb is_digit cs = true -> strip cs = cs.
Proof.
  intros H. unfold strip.
  assert (Hl : forall l, forallb is_digit l = true -> lstrip l = l).
  { intros [| c l] Hc; [reflexivity |]. cbn in Hc.
    apply andb_prop in Hc. apply lstrip_digit, Hc. }
  rewrite (Hl cs H). rewrite Hl; [apply rev_involutive |].
  rewrite forallb_forall in *. intros x Hx. apply H, in_rev, Hx.
Qed.

Lemma digits_value_digits (cs : list ascii) (acc : Z) (prev : bool) :
  forallb is_digit cs = true -> cs <> [] \/ prev = true -> 0 <= acc ->
  exists n, digits_value acc prev cs = Returned n /\ 0 <= n.
Proof.
  revert acc prev. induction cs as [| c cs IH]; intros acc prev Hd Hne Hacc.
  - destruct Hne as [Hne | ->]; [contradiction | cbn; eauto].
  - cbn in Hd. apply andb_prop in Hd. destruct Hd as [Hc Hd].
    cbn [digits_value]. rewrite Hc. apply IH; [exact Hd | auto |].
    unfold is_digit in Hc. apply andb_prop in Hc. destruct Hc as [Hc _].
    apply N.leb_le in Hc. lia.
Qed.

Lemma py_int_digits (s : string) :
  isdigit s = true -> exists n, py_int s = Returned n /\ 0 <= n.
Proof.
  unfold isdigit, py_int. destruct (list_ascii_of_string s) as [| c cs] eqn:E;
    [discriminate |].
  intros H. rewrite (strip_digits _ H).
  destruct (digits_value_digits (c :: cs) 0 false H) as [n Hn];
    [left; discriminate | lia |].
  exists n. cbn in H. apply andb_prop in H. destruct H as [Hc _].
  destruct c as [[] [] [] [] [] [] [] []]; try discriminate Hc; exact Hn.
Qed.

Lemma parse_size_returned (str_value : string) (v : Z) :
  parse_size str_value = Returned v -> exists n, v = n * 1024 /\ 0 <= n.
Proof.
  unfold parse_size. destruct (negb _ || negb _) eqn:E; [discriminate |].
  apply orb_false_elim in E. destruct E as [_ E].
  apply negb_false_iff in E.
  destruct (py_int_digits _ E) as [n [Hn H0]].
  rewrite Hn. cbn. intros H. inversion H. eauto.
Qed.


Lemma sum_sizes_shape (elems : list Element) (acc n : Z) :
  sum_sizes elems acc = Returned n ->
  0 <= acc -> acc mod 1024 = 0 -> 0 <= n /\ n mod 1024 = 0.
Proof.
  revert acc. induction elems as [| e elems IH]; intros acc H Hacc Hmod.
  - inversion H. subst. auto.
  - cbn [sum_sizes] in H.
    destruct (attrib_item e "size") as [size |]; [| discriminate].
    cbn in H. destruct (parse_size size) as [v |] eqn:Ep; [| discriminate].
    destruct (parse_size_returned _ _ Ep) as [k [-> H0]]. cbn in H.
    apply IH in H; [exact H | lia |].
    rewrite Z.add_mod, Hmod, Z.mod_mul by lia. reflexivity.
Qed.

Lemma upper_idempotent (s : string) : upper (upper s) = upper s.
Proof.
  unfold upper. induction s as [| c s IH]; [reflexivity |].
  cbn. rewrite IH. f_equal.
  destruct c as [[] [] [] [] [] [] [] []]; reflexivity.
Qed.

Lemma db_mirroring_values (crc32 : string) (board : Element) (m : Z) :
  db_mirroring crc32 board = Returned m ->
  m = MIRROR_HORIZONTAL \/ m = MIRROR_VERTICAL \/ m = MIRROR_FOUR_SCREEN
  \/ m = MIRROR_CONTROLLED.
Proof.
  unfold db_mirroring.
  destruct (etree_find_one board "pad" true) as [pad |]; [| discriminate].
  cbn.
  destruct pad as [pad |].
  - destruct (pad_bit pad "h") as [h |]; [| discriminate]. cbn.
    destruct (pad_bit pad "v") as [v |]; [| discriminate]. cbn.
    destruct (truthy h && truthy v); [discriminate |].
    destruct (negb (truthy h || truthy v)); [discriminate |]. cbn.
    repeat match goal with
           | |- context [if ?c then _ else _] => destruct c
           end;
      intros H; inversion H; auto; discriminate.
  - cbn.
    repeat match goal with
           | |- context [if ?c then _ else _] => destruct c
           end;
      intros H; inversion H; auto.
Qed.

(** Every record taken from the database has an upper-case key, sizes
    that are non-negative numbers of KiB, no trainer, NTSC or PAL timing
    (never "both"), a mirroring that is horizontal, vertical, four-screen
    or mapper-controlled (never the odd four-screen value), and is not both
    a PlayChoice-10 and a VS. UniSystem record. *)
Lemma parse_db_entry_fields (elem : Element) (crc32 : string)
    (info : ROMInfo) :
  parse_db_entry elem = Returned (crc32, info) ->
  upper crc32 = crc32
  /\ (0 <= prg_rom_size info /\ prg_rom_size info mod 1024 = 0)
  /\ (0 <= prg_ram_size info /\ prg_ram_size info mod 1024 = 0)
  /\ (0 <= chr_rom_size info /\ chr_rom_size info mod 1024 = 0)
  /\ has_trainer info = false
  /\ (tv_system info = TV_NTSC \/ tv_system info = TV_PAL)
  /\ (mirroring info = MIRROR_HORIZONTAL \/ mirroring info = MIRROR_VERTICAL
      \/ mirroring info = MIRROR_FOUR_SCREEN
      \/ mirroring info = MIRROR_CONTROLLED)
  /\ is_playchoice_10 info && is_vs_unisystem info = false.
Proof.
  unfold parse_db_entry.
  destruct (attrib_item elem "crc") as [crc |]; [| discriminate]. cbn.
  destruct (attrib_item elem "system") as [system |]; [| discriminate]. cbn.
  destruct (etree_find_one elem "board" false) as [[board |] |];
    try discriminate. cbn.
  destruct (match attrib board !! "mapper" with
            | Some m => py_int m
            | None => Returned 0
            end) as [m |]; [| discriminate]. cbn.
  destruct (sum_sizes (findall board "prg") 0) as [prg |] eqn:Eprg;
    [| discriminate]. cbn.
  destruct (sum_sizes (findall board "wram") 0) as [ram |] eqn:Eram;
    [| discriminate]. cbn.
  destruct (sum_sizes (findall board "chr") 0) as [chr |] eqn:Echr;
    [| discriminate]. cbn.
  destruct (db_mirroring (upper crc) board) as [mir |] eqn:Emir;
    [| discriminate]. cbn.
  intros H. inversion H. subst. cbn.
  apply sum_sizes_shape in Eprg, Eram, Echr; try lia; try reflexivity.
  apply db_mirroring_values in Emir.
  repeat split; try tauto.
  - apply upper_idempotent.
  - destruct (str_in system PAL_SYSTEMS); auto.
  - do 2 case_bool_decide; try reflexivity. congruence.
Qed.


Lemma db_record_ok_parsed (elem : Element) (crc32 : string) (info : ROMInfo) :
  parse_db_entry elem = Returned (crc32, info) -> db_record_ok crc32 info.
Proof.
  intros H. apply parse_db_entry_fields in H. unfold db_record_ok. tauto.
Qed.

Lemma db_record_ok_both (crc32 : string) (info : ROMInfo) :
  db_record_ok crc32 info -> db_record_ok crc32 (set_tv_system info TV_BOTH).
Proof. unfold db_record_ok. cbn. tauto. Qed.

(** One entry: a record that is in the dict stays under its key, whatever
    the entry says, with at most its TV timing changed to "both". *)
Lemma load_db_entry_keeps (db db' : gmap string ROMInfo)
    (log log' : list warning) (elem : Element) (k : string) (r : ROMInfo) :
  load_db_entry db log elem = Returned (db', log') ->
  db !! k = Some r ->
  db' !! k = Some r \/ db' !! k = Some (set_tv_system r TV_BOTH).
Proof.
  unfold load_db_entry.
  destruct (parse_db_entry elem) as [[crc32 info] | e]; [| discriminate].
  cbn -[diff]. intros H Hk.
  destruct (db !! crc32) as [existing |] eqn:E.
  - destruct (negb _); [inversion H; subst; auto |].
    destruct (_ || _); inversion H; subst; auto.
    destruct (decide (crc32 = k)) as [-> | Hne].
    + rewrite lookup_insert_eq. right. congruence.
    + rewrite lookup_insert_ne by exact Hne. auto.
  - inversion H. subst. left.
    rewrite lookup_insert_ne; [exact Hk | congruence].
Qed.

Lemma load_db_entry_ok (db db' : gmap string ROMInfo)
    (log log' : list warning) (elem : Element) :
  load_db_entry db log elem = Returned (db', log') ->
  (forall k r, db !! k = Some r -> db_record_ok k r) ->
  forall k r, db' !! k = Some r -> db_record_ok k r.
Proof.
  unfold load_db_entry.
  destruct (parse_db_entry elem) as [[crc32 info] | e] eqn:Ep; [| discriminate].
  apply db_record_ok_parsed in Ep.
  cbn -[diff]. intros H Hdb k r.
  destruct (db !! crc32) as [existing |] eqn:E.
  - destruct (negb _); [inversion H; subst; apply Hdb |].
    destruct (_ || _); inversion H; subst; [apply Hdb |].
    destruct (decide (crc32 = k)) as [-> | Hne].
    + rewrite lookup_insert_eq. intros Hr. inversion Hr.
      apply db_record_ok_both, Hdb, E.
    + rewrite lookup_insert_ne by exact Hne. apply Hdb.
  - inversion H. subst.
    destruct (decide (crc32 = k)) as [-> | Hne].
    + rewrite lookup_insert_eq. intros Hr. inversion Hr. subst. exact Ep.
    + rewrite lookup_insert_ne by exact Hne. apply Hdb.
Qed.

Lemma load_db_loop_ok (xml_iter : list xml_event) :
  forall (db db' : gmap string ROMInfo) (log log' : list warning),
  load_db_loop db log xml_iter = Returned (db', log') ->
  (forall k r, db !! k = Some r -> db_record_ok k r) ->
  forall k r, db' !! k = Some r -> db_record_ok k r.
Proof.
  induction xml_iter as [| [event elem] rest IH]; intros db db' log log' H Hdb.
  - inversion H. subst. exact Hdb.
  - cbn [load_db_loop] in H. destruct (_ && _).
    + destruct (load_db_entry db log elem) as [[db1 log1] | e] eqn:E;
        [| discriminate].
      cbn in H. eapply IH; [exact H |]. eapply load_db_entry_ok; eauto.
    + eapply IH; eauto.
Qed.

(** Every key of a loaded database is upper-case, as the checksums that
    are looked up in it are, and every record has sizes that are
    non-negative numbers of KiB, no trainer, a TV timing that is NTSC, PAL
    or "both", a mirroring that is horizontal, vertical, four-screen or
    mapper-controlled (never the odd four-screen value), and is not both a
    PlayChoice-10 and a VS. UniSystem record. *)
Theorem load_db_records (xml_iter : list xml_event)
    (db : gmap string ROMInfo) (log : list warning) (crc32 : string)
    (info : ROMInfo) :
  load_db xml_iter = Returned (db, log) ->
  db !! crc32 = Some info ->
  db_record_ok crc32 info.
Proof.
  unfold load_db. destruct xml_iter as [| [event root] rest]; [discriminate |].
  intros H. eapply load_db_loop_ok; [exact H |].
  intros k r Hk. rewrite lookup_empty in Hk. discriminate.
Qed.

Lemma load_db_records_witness :
  db_record_ok "3337EC46" smb_info.
Proof.
  apply (load_db_records corpus_once {[ "3337EC46" := smb_info ]} []);
    vm_compute; reflexivity.
Defined.

(** The first record loaded under a checksum is the one the database
    keeps: whatever entries follow, the key stays and its record is the
    same, except that its TV timing may have become "both". *)
Theorem load_db_first_wins (xml_iter : list xml_event)
    (db db' : gmap string ROMInfo) (log log' : list warning)
    (crc32 : string) (info : ROMInfo) :
  load_db_loop db log xml_iter = Returned (db', log') ->
  db !! crc32 = Some info ->
  db' !! crc32 = Some info
  \/ db' !! crc32 = Some (set_tv_system info TV_BOTH).
Proof.
  revert db log info.
  induction xml_iter as [| [event elem] rest IH]; intros db log info H Hk.
  - inversion H. subst. auto.
  - cbn [load_db_loop] in H. destruct (_ && _); [| eapply IH; eauto].
    destruct (load_db_entry db log elem) as [[db1 log1] | e] eqn:E;
      [| discriminate].
    cbn in H.
    destruct (load_db_entry_keeps _ _ _ _ _ _ _ E Hk) as [H1 | H1].
    + eapply IH; eauto.
    + destruct (IH _ _ _ H H1) as [H2 | H2]; right; exact H2.
Qed.

Lemma load_db_first_wins_witness :
  load_db_loop {[ "3337EC46" := smb_info ]} [] corpus_once
  = Returned ({[ "3337EC46" := set_tv_system smb_info TV_BOTH ]}, [])
  /\ (({[ "3337EC46" := set_tv_system smb_info TV_BOTH ]}
       : gmap string ROMInfo) !! "3337EC46" = Some smb_info
      \/ ({[ "3337EC46" := set_tv_system smb_info TV_BOTH ]}
          : gmap string ROMInfo) !! "3337EC46"
         = Some (set_tv_system smb_info TV_BOTH)).
Proof.
  assert (H : load_db_loop {[ "3337EC46" := smb_info ]} [] corpus_once
              = Returned ({[ "3337EC46" := set_tv_system smb_info TV_BOTH ]},
                          []))
    by (vm_compute; reflexivity).
  split; [exact H |].
  apply (load_db_first_wins _ _ _ _ _ _ _ H). vm_compute. reflexivity.
Defined.

Lemma load_db_loop_app (pre post : list xml_event) :
  forall (db : gmap string ROMInfo) (log : list warning),
  load_db_loop db log (pre ++ post)
  = '(db', log') ← load_db_loop db log pre; load_db_loop db' log' post.
Proof.
  induction pre as [| [event elem] pre IH]; intros db log; [reflexivity |].
  cbn [app load_db_loop]. destruct (_ && _); [| apply IH].
  destruct (load_db_entry db log elem) as [[db1 log1] | e]; [| reflexivity].
  cbn. apply IH.
Qed.

(** An entry that cannot be parsed stops the whole load: the exception it
    raises is what [load_db] raises, wherever the entry stands among the
    events and whatever follows it, so no database is returned. *)
Theorem load_db_aborts (root : xml_event) (pre post : list xml_event)
    (elem : Element) (e : exn)
    (db : gmap string ROMInfo) (log : list warning) :
  load_db (root :: pre) = Returned (db, log) ->
  tag elem = "cartridge" \/ tag elem = "arcade" ->
  parse_db_entry elem = Raised e ->
  load_db (root :: pre ++ ("end", elem) :: post) = Raised e.
Proof.
  unfold load_db. destruct root as [event r]. intros Hpre Htag Hparse.
  rewrite load_db_loop_app, Hpre. cbn [load_db_loop mbind].
  assert (Hc : bool_decide (tag elem = "cartridge")
               || bool_decide (tag elem = "arcade") = true).
  { destruct Htag as [-> | ->]; reflexivity. }
  cbn. rewrite Hc. cbn. unfold load_db_entry. rewrite Hparse. reflexivity.
Qed.

Lemma load_db_aborts_witness :
  load_db corpus_once = Returned ({[ "3337EC46" := smb_info ]}, [])
  /\ load_db corpus_with_boardless
     = Raised (Exception (NoChildren "board")).
Proof.
  assert (H : load_db corpus_once = Returned ({[ "3337EC46" := smb_info ]}, []))
    by (vm_compute; reflexivity).
  split; [exact H |].
  apply (load_db_aborts _ _ corpus_once boardless_cartridge _ _ _ H);
    [left; reflexivity | vm_compute; reflexivity].
Defined.



(** ** Updates of a bare file *)

Lemma land_tv_system (tv : Z) :
  valid_tv_system tv ->
  Z.land tv 1 = if tv =? TV_BOTH then TV_NTSC else tv.
Proof. intros [-> | [-> | ->]]; reflexivity. Qed.

(** What is written for a record reads back, with any six bytes after it,
    as the image of the record. *)
Lemma written_parses (r : ROMInfo) :
  representable r -> valid_mirroring (mirroring r) ->
  valid_tv_system (tv_system r) -> has_trainer r = false ->
  exists header,
    make_ines_header r = Returned header
    /\ length header = 10%nat
    /\ forall rest, (6 <= length rest)%nat ->
         parse_header (take 16 (header ++ rest))
         = Returned (Some (round_trip_image r)).
Proof.
  intros Hrep Hmir Htv Htr.
  destruct (write_then_parse r Hrep Hmir Htr) as [header [Hw Hp]].
  destruct (make_ines_header_length r header Hw) as [Hlen _].
  exists header. split; [exact Hw |]. split; [exact Hlen |].
  intros rest Hrest.
  rewrite take_app, Hlen, take_ge by lia.
  change (16 - 10)%nat with 6%nat.
  rewrite Hp by (rewrite length_app, length_take; lia).
  unfold round_trip_image. rewrite Htr, (land_tv_system _ Htv). reflexivity.
Qed.

(** Enumerating a bare file whose first 16 bytes parse as a header. *)
Lemma file_iter_headed (self : FileIOHandler.t) (w : world)
    (content : list byte) (info : ROMInfo) :
  fs w (Named (FileIOHandler._path self)) = Some (File content) ->
  parse_header (take 16 content) = Returned (Some info) ->
  FileIOHandler.iter self w
  = (Returned [mkFileInfo (FileIOHandler._path self)
                 (format_08X (binascii_crc32 (drop 16 content) 0))
                 (Some info) None], w).
Proof.
  intros Hfs Hp.
  unfold FileIOHandler.iter, mbind, M_bind, read_file, except_SkipROM,
    make_file_info.
  rewrite Hfs, make_file_info_is. unfold file_info_for. rewrite Hp.
  cbn. rewrite add_log_nil. reflexivity.
Qed.

Lemma check_requests_own (self : FileIOHandler.t) (fi : FileInfo)
    (req_type : Z) (r : ROMInfo) (w : world) :
  name fi = FileIOHandler._path self ->
  FileIOHandler.check_requests self [UpdateRequest.mk fi req_type r] w
  = (Returned (), w).
Proof.
  intros Hname. cbn. rewrite bool_decide_eq_false_2 by auto. reflexivity.
Qed.

(** Replacing the header of a bare file overwrites its first ten bytes and
    nothing else: the file keeps its length, every other path is left
    alone, and the file then reads as one item with the image of the
    record as its header and, as its checksum, that of the old bytes after
    the first 16: the checksum a file with a header had before. *)
Theorem replace_then_read (self : FileIOHandler.t) (w : world)
    (content : list byte) (fi : FileInfo) (r : ROMInfo) :
  fs w (Named (FileIOHandler._path self)) = Some (File content) ->
  (16 <= length content)%nat ->
  name fi = FileIOHandler._path self ->
  representable r -> valid_mirroring (mirroring r) ->
  valid_tv_system (tv_system r) -> has_trainer r = false ->
  exists header w1,
    make_ines_header r = Returned header
    /\ FileIOHandler.update self
         [UpdateRequest.mk fi UpdateRequest.REQ_HEADER_REPLACE r] w
       = (Returned (), w1)
    /\ fs w1 (Named (FileIOHandler._path self))
       = Some (File (header ++ drop 10 content))
    /\ length (header ++ drop 10 content) = length content
    /\ (forall q, q <> Named (FileIOHandler._path self) -> fs w1 q = fs w q)
    /\ FileIOHandler.iter self w1
       = (Returned [mkFileInfo (FileIOHandler._path self)
                      (format_08X (binascii_crc32 (drop 16 content) 0))
                      (Some (round_trip_image r)) None], w1).
Proof.
  intros Hfs Hlen Hname Hrep Hmir Htv Htr.
  destruct (written_parses r Hrep Hmir Htv Htr) as [header [Hw [Hl Hp]]].
  exists header.
  unfold FileIOHandler.update, mbind at 1, M_bind at 1.
  rewrite (check_requests_own self fi _ r w Hname).
  cbn [_update_file UpdateRequest.rom_info UpdateRequest.type].
  unfold mbind, M_bind, lift. rewrite Hw.
  change (UpdateRequest.REQ_HEADER_REPLACE =? UpdateRequest.REQ_HEADER_REPLACE)
    with true. cbv iota.
  unfold replace_header, mbind, M_bind, read_file, write_file.
  rewrite Hfs, Hl. cbn -[fs_set].
  set (w1 := mkWorld (fs_set (Named (FileIOHandler._path self))
                        (Some (File (header ++ drop 10 content))) (fs w))
                     (next_temp w) (log w)).
  exists w1. split; [reflexivity |]. split; [reflexivity |].
  assert (Hnew : fs w1 (Named (FileIOHandler._path self))
                 = Some (File (header ++ drop 10 content)))
    by apply fs_set_eq.
  split; [exact Hnew |].
  split; [rewrite length_app, length_drop; lia |].
  split; [intros q Hq; apply fs_set_ne; exact Hq |].
  rewrite (file_iter_headed self w1 (header ++ drop 10 content)
             (round_trip_image r) Hnew)
    by (apply Hp; rewrite length_drop; lia).
  rewrite drop_app, Hl, drop_ge, drop_drop by lia. reflexivity.
Qed.

Lemma replace_then_read_witness :
  exists header w1,
    make_ines_header nrom_info = Returned header
    /\ FileIOHandler.update (FileIOHandler.mk "rom.nes") [headed_replace]
         headed_world = (Returned (), w1)
    /\ fs w1 (Named "rom.nes") = Some (File (header ++ drop 10 headed_entity))
    /\ length (header ++ drop 10 headed_entity) = length headed_entity
    /\ (forall q, q <> Named "rom.nes" -> fs w1 q = fs headed_world q)
    /\ FileIOHandler.iter (FileIOHandler.mk "rom.nes") w1
       = (Returned [mkFileInfo "rom.nes"
                      (format_08X (binascii_crc32 (drop 16 headed_entity) 0))
                      (Some (round_trip_image nrom_info)) None], w1).
Proof.
  apply (replace_then_read (FileIOHandler.mk "rom.nes") headed_world
           headed_entity (mkFileInfo "rom.nes" "00000000" None None)
           nrom_info).
  - reflexivity.
  - cbn. lia.
  - reflexivity.
  - unfold representable. cbn. repeat split; vm_compute; congruence.
  - right. left. reflexivity.
  - left. reflexivity.
  - reflexivity.
Defined.

(** Inserting a header into a bare file puts the ten bytes written before
    the bytes of the file and leaves no temporary file; every other path
    is left alone.  The file then reads as one item with the image of the
    record as its header, and its checksum is that of the old bytes less
    the first six, which are taken for the rest of the header. *)
Theorem insert_then_read (self : FileIOHandler.t) (w : world)
    (content : list byte) (fi : FileInfo) (r : ROMInfo) :
  fs w (Named (FileIOHandler._path self)) = Some (File content) ->
  (6 <= length content)%nat ->
  name fi = FileIOHandler._path self ->
  representable r -> valid_mirroring (mirroring r) ->
  valid_tv_system (tv_system r) -> has_trainer r = false ->
  exists header w1,
    make_ines_header r = Returned header
    /\ FileIOHandler.update self
         [UpdateRequest.mk fi UpdateRequest.REQ_HEADER_INSERT r] w
       = (Returned (), w1)
    /\ fs w1 (Named (FileIOHandler._path self))
       = Some (File (header ++ content))
    /\ length (header ++ content) = (10 + length content)%nat
    /\ fs w1 (TempIn (Named (FileIOHandler._path self)) (next_temp w)) = None
    /\ (forall q, q <> Named (FileIOHandler._path self) ->
          q <> TempIn (Named (FileIOHandler._path self)) (next_temp w) ->
          fs w1 q = fs w q)
    /\ FileIOHandler.iter self w1
       = (Returned [mkFileInfo (FileIOHandler._path self)
                      (format_08X (binascii_crc32 (drop 6 content) 0))
                      (Some (round_trip_image r)) None], w1).
Proof.
  intros Hfs Hlen Hname Hrep Hmir Htv Htr.
  destruct (written_parses r Hrep Hmir Htv Htr) as [header [Hw [Hl Hp]]].
  exists header.
  destruct (insert_header_prepends w _ header content Hfs)
    as (w1 & Hins & Hfile & Htemp & Hrest).
  exists w1.
  split; [exact Hw |].
  split.
  { unfold FileIOHandler.update, mbind at 1, M_bind at 1.
    rewrite (check_requests_own self fi _ r w Hname).
    cbn [_update_file UpdateRequest.rom_info UpdateRequest.type].
    unfold mbind, M_bind, lift. rewrite Hw.
    change (UpdateRequest.REQ_HEADER_INSERT =? UpdateRequest.REQ_HEADER_REPLACE)
      with false.
    change (UpdateRequest.REQ_HEADER_INSERT =? UpdateRequest.REQ_HEADER_INSERT)
      with true.
    cbv iota. rewrite Hins. reflexivity. }
  split; [exact Hfile |].
  split; [rewrite length_app; lia |].
  split; [exact Htemp |].
  split; [exact Hrest |].
  rewrite (file_iter_headed self w1 (header ++ content)
             (round_trip_image r) Hfile) by (apply Hp; exact Hlen).
  rewrite drop_app, Hl, drop_ge by lia. reflexivity.
Qed.

Lemma insert_then_read_witness :
  exists header w1,
    make_ines_header nrom_info = Returned header
    /\ FileIOHandler.update (FileIOHandler.mk "rom.nes") [bare_insert]
         bare_world = (Returned (), w1)
    /\ fs w1 (Named "rom.nes") = Some (File (header ++ bare_payload))
    /\ length (header ++ bare_payload) = (10 + length bare_payload)%nat
    /\ fs w1 (TempIn (Named "rom.nes") (next_temp bare_world)) = None
    /\ (forall q, q <> Named "rom.nes" ->
          q <> TempIn (Named "rom.nes") (next_temp bare_world) ->
          fs w1 q = fs bare_world q)
    /\ FileIOHandler.iter (FileIOHandler.mk "rom.nes") w1
       = (Returned [mkFileInfo "rom.nes"
                      (format_08X (binascii_crc32 (drop 6 bare_payload) 0))
                      (Some (round_trip_image nrom_info)) None], w1).
Proof.
  apply (insert_then_read (FileIOHandler.mk "rom.nes") bare_world
           bare_payload (mkFileInfo "rom.nes" "B6FBC955" None None)
           nrom_info).
  - reflexivity.
  - cbn. lia.
  - reflexivity.
  - unfold representable. cbn. repeat split; vm_compute; congruence.
  - right. left. reflexivity.
  - left. reflexivity.
  - reflexivity.
Defined.

(** A request for another file is refused before anything is written:
    whatever the other requests are, [update] raises and the files are as
    they were. *)
Theorem file_update_refused (self : FileIOHandler.t)
    (requests : list UpdateRequest.t) (w : world) :
  Exists (fun request =>
            name (UpdateRequest.file_info request) <> FileIOHandler._path self)
         requests ->
  exists other,
    FileIOHandler.update self requests w
    = (Raised (Exception (OnlyAcceptRequestsFor (FileIOHandler._path self)
                            other)), w).
Proof.
  intros Hex. unfold FileIOHandler.update, mbind, M_bind.
  assert (Hcheck : exists other,
             FileIOHandler.check_requests self requests w
             = (Raised (Exception (OnlyAcceptRequestsFor
                                     (FileIOHandler._path self) other)), w)).
  { induction requests as [| request requests IH]; [inversion Hex |].
    cbn [FileIOHandler.check_requests]. case_bool_decide as Hn.
    - eexists. reflexivity.
    - apply Exists_cons in Hex. destruct Hex as [Hbad | Hex];
        [contradiction | exact (IH Hex)]. }
  destruct Hcheck as [other ->]. exists other. reflexivity.
Qed.

Lemma file_update_refused_witness :
  exists other,
    FileIOHandler.update (FileIOHandler.mk "other.nes")
      [bare_insert] bare_world
    = (Raised (Exception (OnlyAcceptRequestsFor "other.nes" other)),
       bare_world).
Proof.
  apply (file_update_refused (FileIOHandler.mk "other.nes")).
  apply Exists_cons_hd. cbn. discriminate.
Defined.


(** ** Updates of a zip archive that succeed *)




(** *** Grouping *)






(** *** The steps of the rebuild *)











(** ** Instances *)

Lemma ignored_mirroring_diff_spec_witness :
  _is_ignored_mirroring_diff MIRROR_CONTROLLED MIRROR_VERTICAL = true <->
  (MIRROR_CONTROLLED = MIRROR_CONTROLLED \/ MIRROR_VERTICAL = MIRROR_CONTROLLED)
  /\ MIRROR_CONTROLLED <> MIRROR_FOUR_SCREEN
  /\ MIRROR_CONTROLLED <> MIRROR_FOUR_SCREEN_ODD
  /\ MIRROR_VERTICAL <> MIRROR_FOUR_SCREEN
  /\ MIRROR_VERTICAL <> MIRROR_FOUR_SCREEN_ODD.
Proof.
  apply (ignored_mirroring_diff_spec MIRROR_CONTROLLED MIRROR_VERTICAL).
  - do 4 right. reflexivity.
  - right. left. reflexivity.
Defined.

Lemma zip_update_unwritable_witness :
  exists e w',
    ZipIOHandler.update (ZipIOHandler.mk "roms.zip" 0)
      [request_for "a.nes" UpdateRequest.REQ_HEADER_INSERT odd_info] two_roms
    = (Raised e, w').
Proof.
  apply (zip_update_unwritable (ZipIOHandler.mk "roms.zip" 0)
           [request_for "a.nes" UpdateRequest.REQ_HEADER_INSERT odd_info]
           (request_for "a.nes" UpdateRequest.REQ_HEADER_INSERT odd_info)
           "a.nes" [("a.nes", raw_entity); ("b.nes", headed_entity)] two_roms).
  - reflexivity.
  - apply elem_of_cons. left. reflexivity.
  - apply elem_of_cons. left. reflexivity.
  - reflexivity.
  - eexists. reflexivity.
Defined.

Lemma zip_update_unknown_member_witness :
  exists e w',
    ZipIOHandler.update (ZipIOHandler.mk "roms.zip" 0)
      [request_for "c.nes" UpdateRequest.REQ_HEADER_INSERT nrom_info] two_roms
    = (Raised e, w').
Proof.
  apply (zip_update_unknown_member (ZipIOHandler.mk "roms.zip" 0)
           [request_for "c.nes" UpdateRequest.REQ_HEADER_INSERT nrom_info]
           (request_for "c.nes" UpdateRequest.REQ_HEADER_INSERT nrom_info)
           [("a.nes", raw_entity); ("b.nes", headed_entity)] two_roms).
  - reflexivity.
  - apply elem_of_cons. left. reflexivity.
  - intros name Hin E. inversion E. subst name. cbn in Hin.
    apply elem_of_cons in Hin. destruct Hin as [Hin | Hin]; [discriminate |].
    apply elem_of_cons in Hin. destruct Hin as [Hin | Hin]; [discriminate |].
    inversion Hin.
Defined.
